(** * sync_agents.py: a model of [AgentSync] and of its command-line entry point

    The program is a thin layer over two collaborators, the [git] binary
    (reached through [subprocess.run]) and the file system.  Both are modelled
    as part of an explicit world: the file system is a state the program reads
    and writes, every [git] invocation is answered by an oracle and recorded
    in a trace.  Python exceptions are values of a result type, and
    [try]/[except] is a combinator of the monad the methods are written in. *)

From Stdlib Require Import Ascii String DecimalString ZArith NArith.
From Stdlib Require OrderedTypeEx DecimalFacts DecimalNat.
From stdpp Require Import gmap strings list sorting.

Local Open Scope string_scope.
Local Open Scope list_scope.

(** ** Python's string methods, as far as the program uses them *)

Module Py.

(** Line feed and carriage return. *)
Definition LF : ascii := "010"%char.
Definition CR : ascii := "013"%char.
Definition NL : string := String LF EmptyString.

(** [str.isspace] on the code points below 256: tab to carriage return,
    the four separators 28 to 31, space, NEL and the non-breaking space. *)
Definition isspace (c : ascii) : bool :=
  let n := N_of_ascii c in
  ((9 <=? n) && (n <=? 13) || (28 <=? n) && (n <=? 32)
   || (n =? 133) || (n =? 160))%N.

Fixpoint lstrip (s : string) : string :=
  match s with
  | String c s' => if isspace c then lstrip s' else s
  | EmptyString => EmptyString
  end.

Fixpoint rstrip (s : string) : string :=
  match s with
  | EmptyString => EmptyString
  | String c s' =>
      match rstrip s' with
      | EmptyString => if isspace c then EmptyString else String c EmptyString
      | r => String c r
      end
  end.

(** [s.strip()] *)
Definition strip (s : string) : string := rstrip (lstrip s).

(** Truth value of a string: the empty string is false. *)
Definition truthy (s : string) : bool :=
  match s with EmptyString => false | _ => true end.

(** [s.startswith(p)] *)
Definition startswith (p s : string) : bool := String.prefix p s.

(** [s[:n]] *)
Definition take (n : nat) (s : string) : string := String.substring 0 n s.

(** The characters at which [str.splitlines] breaks a line, a carriage
    return followed by a line feed counting as one break. *)
Definition islinebreak (c : ascii) : bool :=
  let n := N_of_ascii c in
  ((10 <=? n) && (n <=? 13) || (28 <=? n) && (n <=? 30) || (n =? 133))%N.

(** [s.splitlines()]: [cur] is the line read so far. *)
Fixpoint splitlines_from (cur s : string) : list string :=
  match s with
  | EmptyString => if truthy cur then [cur] else []
  | String c s' =>
      if islinebreak c then
        match s' with
        | String c' s'' =>
            if (Ascii.eqb c CR && Ascii.eqb c' LF)%bool
            then cur :: splitlines_from EmptyString s''
            else cur :: splitlines_from EmptyString s'
        | EmptyString => [cur]
        end
      else splitlines_from (cur +:+ String c EmptyString) s'
  end.

Definition splitlines (s : string) : list string :=
  splitlines_from EmptyString s.

(** What reading in text mode makes of the content of a file (universal
    newlines, the default of [open]): a carriage return, alone or followed
    by a line feed, is read as one line feed.  [after_cr] tells whether
    the previous character was a carriage return, whose line feed has
    been given already. *)
Fixpoint translate_newlines (after_cr : bool) (s : string) : string :=
  match s with
  | EmptyString => EmptyString
  | String c s' =>
      if (after_cr && Ascii.eqb c LF)%bool then translate_newlines false s'
      else if Ascii.eqb c CR then String LF (translate_newlines true s')
      else String c (translate_newlines false s')
  end.

Definition universal_newlines (s : string) : string :=
  translate_newlines false s.

(** [f.readlines()] on a file opened in text mode: the text has already
    gone through newline translation, every line keeps its line feed. *)
Fixpoint readlines_from (cur s : string) : list string :=
  match s with
  | EmptyString => if truthy cur then [cur] else []
  | String c s' =>
      if Ascii.eqb c LF
      then (cur +:+ String c EmptyString) :: readlines_from EmptyString s'
      else readlines_from (cur +:+ String c EmptyString) s'
  end.

Definition readlines (s : string) : list string :=
  readlines_from EmptyString s.

(** [s.split(sep)[0]]: the text before the first occurrence of [sep]. *)
Fixpoint split_head (sep s : string) : string :=
  if String.prefix sep s then EmptyString
  else match s with
       | EmptyString => EmptyString
       | String c s' => String c (split_head sep s')
       end.

(** [s.split(c)] for a separator of one character. *)
Fixpoint split_char_from (sep : ascii) (cur s : string) : list string :=
  match s with
  | EmptyString => [cur]
  | String c s' =>
      if Ascii.eqb c sep then cur :: split_char_from sep EmptyString s'
      else split_char_from sep (cur +:+ String c EmptyString) s'
  end.

Definition split_char (sep : ascii) (s : string) : list string :=
  split_char_from sep EmptyString s.

(** [l.index(x)] *)
Fixpoint index (x : string) (l : list string) : option nat :=
  match l with
  | [] => None
  | y :: l' => if String.eqb y x then Some 0 else S <$> index x l'
  end.

(** [str(n)] for a natural number. *)
Definition str_nat (n : nat) : string :=
  NilEmpty.string_of_uint (Nat.to_uint n).

(** Decimal with at least [w] digits, as ["%0wd"] prints it. *)
Definition zfill (w : nat) (s : string) : string :=
  String.concat "" (replicate (w - String.length s) "0") +:+ s.

Definition isdigit (c : ascii) : bool :=
  let n := N_of_ascii c in ((48 <=? n) && (n <=? 57))%N.

Definition digit_val (c : ascii) : Z := Z.of_N (N_of_ascii c) - 48.

(** The digits of an integer literal: a digit, then digits each of which
    may be preceded by one underscore. [acc] is the value read so far,
    [afterdigit] tells whether the previous character was a digit. *)
Fixpoint int_digits (acc : Z) (afterdigit : bool) (s : string) : option Z :=
  match s with
  | EmptyString => if afterdigit then Some acc else None
  | String c s' =>
      if isdigit c then int_digits (10 * acc + digit_val c) true s'
      else if (Ascii.eqb c "_" && afterdigit)%bool then int_digits acc false s'
      else None
  end.

(** The number of digits of a literal; its underscores do not count. *)
Fixpoint count_digits (s : string) : nat :=
  match s with
  | EmptyString => 0
  | String c s' => (if isdigit c then 1 else 0) + count_digits s'
  end.

(** [sys.get_int_max_str_digits()] as the interpreter starts with it: a
    decimal literal of more digits is refused. *)
Definition int_max_str_digits : nat := 4300.

(** An unsigned literal: well formed, and of no more digits than the
    limit. *)
Definition int_literal (s : string) : option Z :=
  match int_digits 0 false s with
  | Some z => if (int_max_str_digits <? count_digits s)%nat then None else Some z
  | None => None
  end.

(** [int(s)] for a string: surrounding white space and a sign are
    accepted; [None] stands for [ValueError], raised for a text that is
    not a literal and for a literal of more digits than the limit. *)
Definition int (s : string) : option Z :=
  match strip s with
  | String "-" s' => Z.opp <$> int_literal s'
  | String "+" s' => int_literal s'
  | s' => int_literal s'
  end.

End Py.

(** ** The world the program runs in *)

(** The exceptions the collaborators raise; all of them derive from
    [Exception], so that [except Exception] and a bare [except] catch each. *)
Inductive exn :=
| FileExistsError | FileNotFoundError | NotADirectoryError
| IsADirectoryError | PermissionError | ValueError
| OSError (msg : string).

(** The outcome of a call: a value, or an exception on its way up. *)
Inductive Res (A : Type) := Ok (a : A) | Exc (e : exn).
Arguments Ok {A} a.
Arguments Exc {A} e.

(** What [subprocess.run] returns. *)
Record CompletedProcess := {
  returncode : Z;
  stdout : string;
  stderr : string
}.

(** An entry of the agents directory: a file with its content, character
    by character as it is stored ([None] when opening or decoding it
    fails), or a directory. *)
Inductive node := File (text : option string) | Directory.

(** An entry of [.backups]: a directory with the files copied into it, or
    anything that is not a directory. *)
Inductive bentry := Snapshot (files : gmap string (option string)) | Stray.

(** The part of the file system the program looks at.  [top] maps a path
    relative to the agents directory, spelled as the program spells it, to
    what is there; the direct children are the keys without a slash.
    [backups] is the content of [.backups], [None] when it is missing. *)
Record FS := {
  root : bool;
  top : gmap string node;
  backups : option (gmap string bentry)
}.

(** What the trace records: the runs of [git] with their outcome, the
    entries into [backup], and the files opened with their mode. *)
Inductive Event :=
| EvRun (argv : list string) (cwd : option string) (r : Res CompletedProcess)
| EvBackup
| EvOpen (name : string) (mode : string).

(** [tick] counts the questions put to the environment so far: no two
    of them are asked in the same world. *)
Record World := {
  fs : FS;
  trace : list Event;
  tick : nat
}.

(** [datetime.now()] *)
Record datetime := {
  year : nat; month : nat; day : nat;
  hour : nat; minute : nat; second : nat; microsecond : nat
}.

(** The file-system calls that can fail for reasons the model does not
    track (permissions, a full disk, a vanished parent). *)
Inductive FsOp :=
| OpMkdirRoot | OpMkdirBackups | OpMkdir (snap : string)
| OpCopy (name snap : string) | OpRmtree (snap : string)
| OpOpen (name mode : string).

(** The environment: how [git] answers and what it does to the files,
    what the clock shows, which file-system calls fail, what [stat]
    reports (size in bytes, ISO format of the modification time), and in
    which order a set of strings is iterated, given as whether one string
    comes before another: that order follows the hashes of the strings,
    which change from one run of the interpreter to the next. *)
Record Env := {
  subprocess_run : list string -> option string -> World -> Res CompletedProcess * FS;
  datetime_now : World -> datetime;
  os_fault : FsOp -> World -> option exn;
  os_stat : string -> World -> Res (nat * string);
  hash_order : World -> string -> string -> bool
}.

(** [x] put into [l] in front of the first element that it comes before. *)
Fixpoint insert_by (before : string -> string -> bool) (x : string) (l : list string)
    : list string :=
  match l with
  | [] => [x]
  | y :: l' => if before x y then x :: l else y :: insert_by before x l'
  end.

(** ** The monad of the methods: state and exceptions *)

Definition M (A : Type) : Type := World -> Res A * World.

Definition ret {A} (a : A) : M A := fun w => (Ok a, w).

Definition raise {A} (e : exn) : M A := fun w => (Exc e, w).

Definition bind {A B} (m : M A) (k : A -> M B) : M B :=
  fun w => match m w with
           | (Ok a, w') => k a w'
           | (Exc e, w') => (Exc e, w')
           end.

(** [try: m except Exception as e: h e] *)
Definition try_except {A} (m : M A) (h : exn -> M A) : M A :=
  fun w => match m w with
           | (Ok a, w') => (Ok a, w')
           | (Exc e, w') => h e w'
           end.

Notation "'let*' x ':=' m 'in' k" := (bind m (fun x => k))
  (at level 10, x name, m at level 100, k at level 200).
Notation "m ';;' k" := (bind m (fun _ => k))
  (at level 100, k at level 200, right associativity).

(** [for x in l: body x] *)
Fixpoint for_each {A} (l : list A) (body : A -> M unit) : M unit :=
  match l with
  | [] => ret tt
  | x :: l' => body x ;; for_each l' body
  end.

Definition set_fs (f : FS) (w : World) : World :=
  {| fs := f; trace := trace w; tick := tick w |}.

Definition record (ev : Event) (w : World) : World :=
  {| fs := fs w; trace := trace w ++ [ev]; tick := tick w |}.

Definition asked (w : World) : World :=
  {| fs := fs w; trace := trace w; tick := S (tick w) |}.

(** [sorted] on strings. Python's sort is stable; on strings, where equal
    means identical, every sort returns the same list. *)
Fixpoint insert_sorted (x : string) (l : list string) : list string :=
  match l with
  | [] => [x]
  | y :: l' => if String.leb x y then x :: l else y :: insert_sorted x l'
  end.

Definition sorted (l : list string) : list string := foldr insert_sorted [] l.

(** [l[:-5]] and [l[-5:]] *)
Definition all_but_last5 {A} (l : list A) : list A := take (length l - 5) l.

(** A name matches [*.md] when it ends in [.md]; only direct children are
    listed. *)
Definition is_child (name : string) : bool :=
  match String.index 0 "/" name with None => true | Some _ => false end.

Definition endswith (suffix s : string) : bool :=
  let n := String.length s in let k := String.length suffix in
  (k <=? n)%nat && String.eqb (String.substring (n - k) k s) suffix.

Section Primitives.
Variable env : Env.

(** [subprocess.run(argv, cwd=cwd, ...)] *)
Definition run (argv : list string) (cwd : option string) : M CompletedProcess :=
  fun w =>
    let '(r, f) := subprocess_run env argv cwd w in
    (r, asked (record (EvRun argv cwd r) (set_fs f w))).

Definition now : M datetime :=
  fun w => (Ok (datetime_now env w), asked w).

(** A file-system call: it raises when the environment says so, and
    otherwise does what the state of the files implies. *)
Definition fs_call {A} (op : FsOp) (act : FS -> Res A * FS) : M A :=
  fun w =>
    match os_fault env op w with
    | Some e => (Exc e, asked w)
    | None => let '(r, f) := act (fs w) in (r, asked (set_fs f w))
    end.

(** Whether the agents directory has an entry at [name], a path relative
    to it. *)
Definition has_entry (f : FS) (name : string) : bool :=
  root f && bool_decide (is_Some (top f !! name)).

(** [(self.agents_dir / name).exists()], for a relative [name]: the
    answer of the test, in the runs in which it gives one. *)
Definition path_exists (name : string) : M bool :=
  fun w => (Ok (has_entry (fs w) name), w).

(** [self.agents_dir.exists()]: the answer of the test, in the runs in
    which it gives one. *)
Definition root_exists : M bool := fun w => (Ok (root (fs w)), w).

(** [self.agents_dir.mkdir(parents=True)] *)
Definition mkdir_root : M unit :=
  fs_call OpMkdirRoot (fun f =>
    if root f then (Exc FileExistsError, f)
    else (Ok tt, {| root := true; top := ∅; backups := None |})).

(** [self.backup_dir.mkdir(exist_ok=True)] *)
Definition mkdir_backups : M unit :=
  fs_call OpMkdirBackups (fun f =>
    if negb (root f) then (Exc FileNotFoundError, f)
    else match backups f with
         | Some _ => (Ok tt, f)
         | None => (Ok tt, {| root := root f; top := top f; backups := Some ∅ |})
         end).

Definition set_backups (b : gmap string bentry) (f : FS) : FS :=
  {| root := root f; top := top f; backups := Some b |}.

(** [backup_path.mkdir()] *)
Definition mkdir_snapshot (snap : string) : M unit :=
  fs_call (OpMkdir snap) (fun f =>
    match backups f with
    | None => (Exc FileNotFoundError, f)
    | Some b =>
        match b !! snap with
        | Some _ => (Exc FileExistsError, f)
        | None => (Ok tt, set_backups (<[snap := Snapshot ∅]> b) f)
        end
    end).

(** [self.agents_dir.glob('*.md')], in the order the directory is read,
    for a directory that can be read. *)
Definition glob_md : M (list string) :=
  fun w => (Ok (if root (fs w)
                then filter (fun n => is_child n && endswith ".md" n) (map fst (map_to_list (top (fs w))))
                else []), w).

(** [shutil.copy2(md_file, backup_path)] *)
Definition copy2 (name snap : string) : M unit :=
  fs_call (OpCopy name snap) (fun f =>
    match top f !! name, backups f with
    | Some (File t), Some b =>
        match b !! snap with
        | Some (Snapshot files) => (Ok tt, set_backups (<[snap := Snapshot (<[name := t]> files)]> b) f)
        | Some Stray => (Ok tt, f)
        | None => (Ok tt, set_backups (<[snap := Stray]> b) f)
        end
    | Some (File _), None => (Exc FileNotFoundError, f)
    | Some Directory, _ => (Exc IsADirectoryError, f)
    | None, _ => (Exc FileNotFoundError, f)
    end).

(** [self.backup_dir.glob('backup_*')] *)
Definition glob_backups : M (list string) :=
  fun w => (Ok (match backups (fs w) with
                | Some b => filter (Py.startswith "backup_") (map fst (map_to_list b))
                | None => []
                end), w).

(** [shutil.rmtree(old_backup)] *)
Definition rmtree (snap : string) : M unit :=
  fs_call (OpRmtree snap) (fun f =>
    match backups f with
    | None => (Exc FileNotFoundError, f)
    | Some b =>
        match b !! snap with
        | Some (Snapshot _) => (Ok tt, set_backups (delete snap b) f)
        | Some Stray => (Exc NotADirectoryError, f)
        | None => (Exc FileNotFoundError, f)
        end
    end).

Definition set_top (t : gmap string node) (f : FS) : FS :=
  {| root := root f; top := t; backups := backups f |}.

(** [with open(path, 'a') as f: f.write(entry)]: the text is stored as it
    is written, the line end of the system being the line feed. *)
Definition append_file (name entry : string) : M unit :=
  fun w =>
    fs_call (OpOpen name "a") (fun f =>
      if negb (root f) then (Exc FileNotFoundError, f)
      else match top f !! name with
           | None => (Ok tt, set_top (<[name := File (Some entry)]> (top f)) f)
           | Some (File (Some t)) => (Ok tt, set_top (<[name := File (Some (t +:+ entry))]> (top f)) f)
           | Some (File None) => (Ok tt, f)
           | Some Directory => (Exc IsADirectoryError, f)
           end) (record (EvOpen name "a") w).

(** [with open(path, 'r') as f: f.read()]: the content, its line ends
    translated as a text-mode read translates them. *)
Definition read_file (name : string) : M string :=
  fun w =>
    fs_call (OpOpen name "r") (fun f =>
      if negb (root f) then (Exc FileNotFoundError, f)
      else match top f !! name with
           | Some (File (Some t)) => (Ok (Py.universal_newlines t), f)
           | Some (File None) => (Exc PermissionError, f)
           | Some Directory => (Exc IsADirectoryError, f)
           | None => (Exc FileNotFoundError, f)
           end) (record (EvOpen name "r") w).

(** [path.stat()] *)
Definition stat (name : string) : M (nat * string) :=
  fun w => (os_stat env name w, asked w).

(** [list(s)] for a set of strings: its elements, once each, in the order
    in which the set is iterated. *)
Definition list_of_set (s : gset string) : M (list string) :=
  fun w => (Ok (foldr (insert_by (hash_order env w)) [] (elements s)), asked w).

End Primitives.

(** ** Dates as the program prints them *)

Definition two (n : nat) : string := Py.zfill 2 (Py.str_nat n).

(** [strftime('%Y%m%d_%H%M%S')] *)
Definition strftime_compact (d : datetime) : string :=
  Py.zfill 4 (Py.str_nat (year d)) +:+ two (month d) +:+ two (day d) +:+ "_"
  +:+ two (hour d) +:+ two (minute d) +:+ two (second d).

(** [strftime('%Y-%m-%d %H:%M:%S')] *)
Definition strftime_log (d : datetime) : string :=
  Py.zfill 4 (Py.str_nat (year d)) +:+ "-" +:+ two (month d) +:+ "-" +:+ two (day d)
  +:+ " " +:+ two (hour d) +:+ ":" +:+ two (minute d) +:+ ":" +:+ two (second d).

(** [str(d)]: the microseconds are printed unless they are zero. *)
Definition str_datetime (d : datetime) : string :=
  strftime_log d +:+
  (if Nat.eqb (microsecond d) 0 then "" else "." +:+ Py.zfill 6 (Py.str_nat (microsecond d))).

(** ** The role line of a prompt file ([list_agents], lines 241 to 253) *)

(** The [while] loop: the first line, stripped, that is neither empty nor
    a heading; longer than 100 characters it is cut and marked. *)
Fixpoint next_role (ls : list string) : option string :=
  match ls with
  | [] => None
  | l :: ls' =>
      let next_line := Py.strip l in
      if Py.truthy next_line && negb (Py.startswith "#" next_line)
      then Some (if (100 <? String.length next_line)%nat
                 then Py.take 100 next_line +:+ "..." else next_line)
      else next_role ls'
  end.

(** The [for] loop over [lines], [rest] being the lines not yet visited.
    [lines.index(line)] raises [ValueError] when the line is not there. *)
Fixpoint find_role (lines rest : list string) : Res (option string) :=
  match rest with
  | [] => Ok None
  | line :: rest' =>
      if Py.startswith "## Role" (Py.strip line) then
        match Py.index line lines with
        | Some i => Ok (next_role (drop (i + 1) lines))
        | None => Exc ValueError
        end
      else find_role lines rest'
  end.

(** [lines = f.readlines()[:10]] and the loop on them. *)
Definition role_of_text (text : string) : Res (option string) :=
  let lines := take 10 (Py.readlines text) in
  find_role lines lines.

(** [role or 'No description available'] *)
Definition role_or_default (role : option string) : string :=
  match role with
  | Some r => if Py.truthy r then r else "No description available"
  | None => "No description available"
  end.

(** [Path.stem] of a name that ends in [.md]: the name without it, a bare
    [.md] being all stem. *)
Definition stem (name : string) : string :=
  if String.eqb name ".md" then name
  else String.substring 0 (String.length name - 3) name.

(** ** The class [AgentSync] *)

Record AgentSync := {
  repo_url : string;
  agents_dir : string
}.

(** A path below the agents directory, by its components. *)
Definition Path := list string.

(** One entry of the list [list_agents] returns. *)
Record AgentInfo := {
  ai_name : string;
  ai_file : string;
  ai_size : nat;
  ai_modified : string;
  ai_role : string
}.

(** The dictionary [get_status] returns. *)
Record Status := {
  st_initialized : bool;
  st_agents_dir : string;
  st_repo_url : string;
  st_last_sync : option string;
  st_total_agents : nat;
  st_has_updates : bool;
  st_local_changes : list string
}.

(** [a.symmetric_difference(b)] *)
Definition symmetric_difference (a b : gset string) : gset string :=
  (a ∖ b) ∪ (b ∖ a).

(** [set(text.splitlines())] *)
Definition line_set (text : string) : gset string :=
  list_to_set (Py.splitlines text).

Section Methods.
Variable env : Env.
Variable self : AgentSync.

Definition str_path (p : Path) : string :=
  agents_dir self +:+ String.concat "" (map (fun c => "/" +:+ c) p).

Definition git (args : list string) : M CompletedProcess :=
  run env ("git" :: args) (Some (agents_dir self)).

(** [_log] (lines 342 to 351) *)
Definition _log (message : string) : M unit :=
  let* d := now env in
  let timestamp := strftime_log d in
  let log_entry := timestamp +:+ " - " +:+ message +:+ Py.NL in
  try_except (append_file env ".sync.log" log_entry) (fun _ => ret tt).

(** [is_initialized] (lines 33 to 35) *)
Definition is_initialized : M bool := path_exists ".git".

(** [initialize] (lines 37 to 68) *)
Definition initialize : M bool :=
  if negb (Py.truthy (repo_url self)) then ret false
  else
    let* e := root_exists in
    (if negb e then mkdir_root env else ret tt) ;;
    let* i := is_initialized in
    if negb i then
      try_except
        (let* result := run env ["git"; "clone"; repo_url self; agents_dir self] None in
         if (returncode result =? 0)%Z
         then _log "Repository cloned successfully" ;; ret true
         else ret false)
        (fun _ => ret false)
    else ret true.

(** [check_for_updates] (lines 70 to 109) *)
Definition check_for_updates : M bool :=
  let* i := is_initialized in
  if negb i then ret false
  else
    try_except
      (git ["fetch"; "origin"] ;;
       let* result := git ["rev-list"; "--count"; "HEAD..origin/main"] in
       let* result :=
         (if negb (returncode result =? 0)%Z
          then git ["rev-list"; "--count"; "HEAD..origin/master"]
          else ret result) in
       if (returncode result =? 0)%Z then
         match Py.int (Py.strip (stdout result)) with
         | Some n => ret (0 <? n)%Z
         | None => raise ValueError
         end
       else ret false)
      (fun _ => ret false).

(** [backup] (lines 197 to 226) *)
Definition backup : M (option Path) :=
  fun w =>
    try_except
      (mkdir_backups env ;;
       let* d := now env in
       let timestamp := strftime_compact d in
       let backup_name := "backup_" +:+ timestamp in
       let backup_path := [".backups"; backup_name] in
       mkdir_snapshot env backup_name ;;
       let* md_files := glob_md in
       for_each md_files (fun md_file => copy2 env md_file backup_name) ;;
       let* found := glob_backups in
       let backups := sorted found in
       for_each (all_but_last5 backups) (rmtree env) ;;
       _log ("Backup created: " +:+ str_path backup_path) ;;
       ret (Some backup_path))
      (fun _ => ret None)
      (record EvBackup w).

(** Lines 148 to 191 of [sync]: the listings around the pull. *)
Definition sync_pull : M (bool * list string) :=
  let* before_result := git ["ls-tree"; "-r"; "HEAD"; "--name-only"] in
  let before_files := line_set (stdout before_result) in
  let* pull_result := git ["pull"; "origin"; "main"] in
  let* pull_result :=
    (if negb (returncode pull_result =? 0)%Z
     then git ["pull"; "origin"; "master"]
     else ret pull_result) in
  if (returncode pull_result =? 0)%Z then
    let* after_result := git ["ls-tree"; "-r"; "HEAD"; "--name-only"] in
    let after_files := line_set (stdout after_result) in
    let* changed_files := list_of_set env (symmetric_difference after_files before_files) in
    _log ("Synced successfully. " +:+ Py.str_nat (length changed_files) +:+ " files changed.") ;;
    ret (true, changed_files)
  else ret (false, []).

(** Lines 127 to 195 of [sync]: the [try] block and its handler. *)
Definition sync_guarded (force : bool) : M (bool * list string) :=
  try_except
    (let* result := git ["status"; "--porcelain"] in
     if Py.truthy (Py.strip (stdout result)) then
       if negb force then ret (false, [])
       else
         backup ;;
         let* d := now env in
         git ["stash"; "push"; "-m"; "Auto-stash " +:+ str_datetime d] ;;
         sync_pull
     else sync_pull)
    (fun _ => ret (false, [])).

(** Lines 121 to 123 of [sync]: whether the directory is, or has just
    been made, a clone. *)
Definition ensure_initialized : M bool :=
  let* i := is_initialized in
  if negb i then initialize else ret true.

(** [sync] (lines 111 to 195) *)
Definition sync (force : bool) : M (bool * list string) :=
  let* ok := ensure_initialized in
  if negb ok then ret (false, []) else sync_guarded force.

(** The body of the loop of [list_agents] for one file (lines 239 to 263):
    the entry, or nothing when an exception was caught. *)
Definition describe_agent (agent_file : string) : M (option AgentInfo) :=
  try_except
    (let* text := read_file env agent_file in
     match role_of_text text with
     | Exc e => raise e
     | Ok role =>
         let* st1 := stat env agent_file in
         let* st2 := stat env agent_file in
         ret (Some {| ai_name := stem agent_file;
                      ai_file := str_path [agent_file];
                      ai_size := fst st1;
                      ai_modified := snd st2;
                      ai_role := role_or_default role |})
     end)
    (fun _ => ret None).

Fixpoint list_agents_loop (files : list string) : M (list AgentInfo) :=
  match files with
  | [] => ret []
  | agent_file :: files' =>
      let* a := describe_agent agent_file in
      let* agents := list_agents_loop files' in
      ret (match a with Some i => i :: agents | None => agents end)
  end.

(** [list_agents] (lines 228 to 265) *)
Definition list_agents : M (list AgentInfo) :=
  let* md_files := glob_md in
  list_agents_loop (sorted md_files).

(** [get_agent] (lines 267 to 290) *)
Definition get_agent (agent_name : string) : M (option string) :=
  let agent_file := agent_name +:+ ".md" in
  let* e := path_exists agent_file in
  let agent_file := if negb e then agent_name else agent_file in
  let* e := path_exists agent_file in
  if e then
    try_except
      (let* text := read_file env agent_file in ret (Some text))
      (fun _ => ret None)
  else ret None.

(** The last line of the log, before its first [" - "] (lines 316 to 320). *)
Definition last_sync_of (text : string) : option string :=
  let lines := Py.readlines text in
  match last lines with
  | Some last_line => Some (Py.split_head " - " last_line)
  | None => None
  end.

(** [get_status] (lines 292 to 340) *)
Definition get_status : M Status :=
  let* initialized := is_initialized in
  let* i := is_initialized in
  if i then
    let* md_files := glob_md in
    let total_agents := length md_files in
    let* has_log := path_exists ".sync.log" in
    let* last_sync :=
      (if has_log then
         try_except
           (let* text := read_file env ".sync.log" in ret (last_sync_of text))
           (fun _ => ret None)
       else ret None) in
    let* has_updates := check_for_updates in
    let* local_changes :=
      try_except
        (let* result := git ["status"; "--porcelain"] in
         if Py.truthy (stdout result)
         then ret (Py.split_char Py.LF (Py.strip (stdout result)))
         else ret [])
        (fun _ => ret []) in
    ret {| st_initialized := initialized;
           st_agents_dir := agents_dir self;
           st_repo_url := repo_url self;
           st_last_sync := last_sync;
           st_total_agents := total_agents;
           st_has_updates := has_updates;
           st_local_changes := local_changes |}
  else
    ret {| st_initialized := initialized;
           st_agents_dir := agents_dir self;
           st_repo_url := repo_url self;
           st_last_sync := None;
           st_total_agents := 0;
           st_has_updates := false;
           st_local_changes := [] |}.

End Methods.

(** ** The command line (lines 355 to 427) *)

(** What [argparse] hands over. *)
Record Args := {
  arg_sync : bool;
  arg_status : bool;
  arg_list : bool;
  arg_get : option string;
  arg_backup : bool;
  arg_force : bool;
  arg_repo : option string;
  arg_dir : option string
}.

(** The process environment: its variables and the home directory. *)
Record Process := {
  environ : gmap string string;
  home : string
}.

(** [x or y] for an optional string. *)
Definition or_else (x : option string) (y : string) : string :=
  match x with
  | Some s => if Py.truthy s then s else y
  | None => y
  end.

(** [AgentSync.__init__] (lines 20 to 31), for a directory written the
    way [Path] prints it. *)
Definition AgentSync_init (p : Process) (url dir : option string) : AgentSync :=
  {| repo_url := or_else url (default "" (environ p !! "AGENT_REPO_URL"));
     agents_dir := or_else dir (default (home p +:+ "/agents") (environ p !! "AGENTS_DIR")) |}.

(** [if x:] for an optional string: [None] and the empty string are false. *)
Definition given (x : option string) : option string :=
  match x with
  | Some s => if Py.truthy s then Some s else None
  | None => None
  end.

(** [main]: the value is the exit status of the process, 1 where the
    program calls [sys.exit(1)] and 0 where it returns.  What [main]
    prints is left out. *)
Definition main (env : Env) (p : Process) (args : Args) : M nat :=
  let self := AgentSync_init p (arg_repo args) (arg_dir args) in
  if arg_sync args then
    let* r := sync env self (arg_force args) in
    if fst r then ret 0 else ret 1
  else if arg_status args then
    get_status env self ;; ret 0
  else if arg_list args then
    list_agents env self ;; ret 0
  else
    match given (arg_get args) with
    | Some name =>
        let* content := get_agent env name in
        match given content with
        | Some _ => ret 0
        | None => ret 1
        end
    | None =>
        if arg_backup args then
          let* backup_path := backup env self in
          match backup_path with Some _ => ret 0 | None => ret 1 end
        else ret 0
    end.

(** * The vocabulary of the statements *)

(** ** Concrete environments and worlds *)

Module Scenario.

Definition exited (code : Z) (out : string) : CompletedProcess :=
  {| returncode := code; stdout := out; stderr := "" |}.

(** A clock that moves by one second with every question asked. *)
Definition clock (w : World) : datetime :=
  {| year := 2024; month := 5; day := 17; hour := 9;
     minute := tick w / 60; second := tick w mod 60; microsecond := 0 |}.

(** An environment in which [git] answers by [reply] and nothing else
    fails. *)
Definition scripted (reply : list string -> World -> Res CompletedProcess * FS) : Env :=
  {| subprocess_run := fun argv _ w => reply argv w;
     datetime_now := clock;
     os_fault := fun _ _ => None;
     os_stat := fun _ _ => Ok (0, "2024-05-17T09:00:00");
     hash_order := fun _ _ _ => true |}.

(** [git] prints [out] for the status query, fails every pull and
    succeeds silently otherwise; it leaves the files alone. *)
Definition dirty (out : string) : Env :=
  scripted (fun argv w =>
    match argv with
    | ["git"; "status"; "--porcelain"] => (Ok (exited 0 out), fs w)
    | "git" :: "pull" :: _ => (Ok (exited 1 ""), fs w)
    | _ => (Ok (exited 0 ""), fs w)
    end).

Definition me : AgentSync :=
  {| repo_url := "https://example.org/agents.git"; agents_dir := "/home/u/agents" |}.

Definition cloned (files : gmap string node) : World :=
  {| fs := {| root := true; top := <[".git" := Directory]> files; backups := None |};
     trace := []; tick := 0 |}.

Definition nothing : World :=
  {| fs := {| root := false; top := ∅; backups := None |}; trace := []; tick := 0 |}.

End Scenario.

Module CommandLine.


Definition sync_only : Args :=
  {| arg_sync := true; arg_status := false; arg_list := false; arg_get := None;
     arg_backup := false; arg_force := false; arg_repo := None; arg_dir := None |}.

Definition get_only (name : string) : Args :=
  {| arg_sync := false; arg_status := false; arg_list := false; arg_get := Some name;
     arg_backup := false; arg_force := false; arg_repo := None; arg_dir := None |}.

Definition proc : Process :=
  {| environ := {[ "AGENT_REPO_URL" := "https://example.org/agents.git" ]}; home := "/home/u" |}.


End CommandLine.

Definition foo_only : World :=
  Scenario.cloned {[ "foo.md" := File (Some "You are a planner.") ]}.

(** A prompt of two lines, the first of which ends with a carriage return
    and a line feed. *)
Definition two_lines_crlf : string :=
  "You are a planner." +:+ String Py.CR (String Py.LF "Plan.").

Definition foo_crlf : World :=
  Scenario.cloned {[ "foo.md" := File (Some two_lines_crlf) ]}.

Definition planner_md : string :=
  "# Planner" +:+ Py.NL +:+ "## Role" +:+ Py.NL +:+ Py.NL +:+ "Example role text" +:+ Py.NL.

Definition planner_info : AgentInfo :=
  {| ai_name := "planner"; ai_file := "/home/u/agents/planner.md"; ai_size := 0;
     ai_modified := "2024-05-17T09:00:00"; ai_role := "Example role text" |}.

Definition planner_world : World :=
  Scenario.cloned {[ "planner.md" := File (Some planner_md) ]}.

(** ** Reports and role summaries *)

(** The report of [get_status] before any query. *)
Definition default_status (self : AgentSync) : Status :=
  {| st_initialized := false;
     st_agents_dir := agents_dir self;
     st_repo_url := repo_url self;
     st_last_sync := None;
     st_total_agents := 0;
     st_has_updates := false;
     st_local_changes := [] |}.

(** A line that opens the role section: stripped, it starts with
    [## Role]. *)
Definition role_heading (line : string) : bool :=
  Py.startswith "## Role" (Py.strip line).

(** A line that can serve as summary: stripped, it is neither empty nor
    a heading. *)
Definition summary_line (line : string) : bool :=
  Py.truthy (Py.strip line) && negb (Py.startswith "#" (Py.strip line)).

(** At most 100 characters, with three dots where something was cut. *)
Definition shorten (s : string) : string :=
  if (100 <? String.length s)%nat then Py.take 100 s +:+ "..." else s.

Definition unavailable : string := "No description available".

(** ** Traces *)

(** The events a computation adds when started in [w]. *)
Definition emitted {A} (m : M A) (w : World) : list Event :=
  drop (length (trace w)) (trace (snd (m w))).

(** [emits P m]: whatever [m] adds to the trace satisfies [P], event by
    event. *)
Definition emits {A} (P : Event -> Prop) (m : M A) : Prop :=
  forall w r w', m w = (r, w') ->
    exists l, trace w' = trace w ++ l /\ Forall P l.

Definition is_log_append (ev : Event) : Prop := ev = EvOpen ".sync.log" "a".

(** A run of [git] with the given arguments, whatever the directory and
    the outcome. *)
Definition is_git (args : list string) (ev : Event) : Prop :=
  match ev with EvRun argv _ _ => argv = "git" :: args | _ => False end.

(** The arguments of the [git] commands the program runs. *)
Module Git.
Definition status : list string := ["status"; "--porcelain"].
Definition ls_tree : list string := ["ls-tree"; "-r"; "HEAD"; "--name-only"].
Definition fetch : list string := ["fetch"; "origin"].
Definition pull (branch : string) : list string := ["pull"; "origin"; branch].
Definition rev_list (branch : string) : list string :=
  ["rev-list"; "--count"; "HEAD..origin/" +:+ branch].
Definition stash (message : string) : list string := ["stash"; "push"; "-m"; message].
End Git.

(** Whether an event is a pull, or a count of the commits ahead. *)
Definition is_pull (ev : Event) : bool :=
  match ev with EvRun ("git" :: "pull" :: _) _ _ => true | _ => false end.

Definition is_rev_list (ev : Event) : bool :=
  match ev with EvRun ("git" :: "rev-list" :: _) _ _ => true | _ => false end.

(** What a failed pull, or a failed initialization, makes [sync] return
    in place of an exception caught by its handler. *)
Definition caught (r : Res (bool * list string)) : Res (bool * list string) :=
  match r with Ok v => Ok v | Exc _ => Ok (false, []) end.

Section Shapes.
Variable self : AgentSync.

(** A run of [git] in the agents directory. *)
Definition ran (args : list string) (r : Res CompletedProcess) : Event :=
  EvRun ("git" :: args) (Some (agents_dir self)) r.

Definition cloning (r : Res CompletedProcess) : Event :=
  EvRun ["git"; "clone"; repo_url self; agents_dir self] None r.

Definition log_append : Event := EvOpen ".sync.log" "a".

(** The events of initialization: a clone, an append to the log. *)
Definition is_init_event (ev : Event) : Prop :=
  (exists r, ev = cloning r) \/ ev = log_append.

(** A command tried with a first argument list and, only when that run
    exits with a status other than zero, with a second one; [r] is the
    outcome that counts. *)
Inductive attempts (first second : list string) :
    list Event -> Res CompletedProcess -> Prop :=
| attempt_first r :
    (forall c, r = Ok c -> returncode c = 0%Z) ->
    attempts first second [ran first r] r
| attempt_second c r :
    returncode c <> 0%Z ->
    attempts first second [ran first (Ok c); ran second r] r.

(** The traces of lines 148 to 191, with what is returned. *)
Inductive pull_shape : list Event -> Res (bool * list string) -> Prop :=
| pull_no_listing e :
    pull_shape [ran Git.ls_tree (Exc e)] (Exc e)
| pull_raises before l e :
    attempts (Git.pull "main") (Git.pull "master") l (Exc e) ->
    pull_shape (ran Git.ls_tree (Ok before) :: l) (Exc e)
| pull_fails before l c :
    attempts (Git.pull "main") (Git.pull "master") l (Ok c) ->
    returncode c <> 0%Z ->
    pull_shape (ran Git.ls_tree (Ok before) :: l) (Ok (false, []))
| pull_no_second_listing before l c e :
    attempts (Git.pull "main") (Git.pull "master") l (Ok c) ->
    returncode c = 0%Z ->
    pull_shape (ran Git.ls_tree (Ok before) :: l ++ [ran Git.ls_tree (Exc e)]) (Exc e)
| pull_synced before l c after changed :
    attempts (Git.pull "main") (Git.pull "master") l (Ok c) ->
    returncode c = 0%Z ->
    changed ≡ₚ elements (symmetric_difference (line_set (stdout after))
                                               (line_set (stdout before))) ->
    pull_shape
      (ran Git.ls_tree (Ok before) :: l ++ [ran Git.ls_tree (Ok after); log_append])
      (Ok (true, changed)).

(** The traces of the [try] block of [sync]. *)
Inductive guarded_shape (force : bool) :
    list Event -> Res (bool * list string) -> Prop :=
| guarded_no_status e :
    guarded_shape force [ran Git.status (Exc e)] (Ok (false, []))
| guarded_refused c :
    Py.truthy (Py.strip (stdout c)) = true -> force = false ->
    guarded_shape force [ran Git.status (Ok c)] (Ok (false, []))
| guarded_clean c l r :
    Py.truthy (Py.strip (stdout c)) = false ->
    pull_shape l r ->
    guarded_shape force (ran Git.status (Ok c) :: l) (caught r)
| guarded_no_stash c opens message e :
    Py.truthy (Py.strip (stdout c)) = true -> force = true ->
    Forall is_log_append opens ->
    guarded_shape force
      (ran Git.status (Ok c) :: EvBackup :: opens ++ [ran (Git.stash message) (Exc e)])
      (Ok (false, []))
| guarded_forced c opens message cs l r :
    Py.truthy (Py.strip (stdout c)) = true -> force = true ->
    Forall is_log_append opens ->
    pull_shape l r ->
    guarded_shape force
      (ran Git.status (Ok c) :: EvBackup :: opens ++ ran (Git.stash message) (Ok cs) :: l)
      (caught r).

(** The traces of lines 121 to 123. *)
Inductive init_shape : list Event -> Res bool -> Prop :=
| init_ready : init_shape [] (Ok true)
| init_no_url : init_shape [] (Ok false)
| init_mkdir_raises e : init_shape [] (Exc e)
| init_clone_raises e : init_shape [cloning (Exc e)] (Ok false)
| init_clone_fails c :
    returncode c <> 0%Z -> init_shape [cloning (Ok c)] (Ok false)
| init_cloned c :
    returncode c = 0%Z -> init_shape [cloning (Ok c); log_append] (Ok true).

(** The traces of [sync]. *)
Inductive sync_shape (force : bool) :
    list Event -> Res (bool * list string) -> Prop :=
| sync_not_initialized l :
    init_shape l (Ok false) -> sync_shape force l (Ok (false, []))
| sync_raises l e :
    init_shape l (Exc e) -> sync_shape force l (Exc e)
| sync_guarded_run l g r :
    init_shape l (Ok true) -> guarded_shape force g r ->
    sync_shape force (l ++ g) r.

(** What [check_for_updates] answers from the outcome of the count. *)
Definition behind (r : Res CompletedProcess) : bool :=
  match r with
  | Ok c =>
      if (returncode c =? 0)%Z then
        match Py.int (Py.strip (stdout c)) with
        | Some n => (0 <? n)%Z
        | None => false
        end
      else false
  | Exc _ => false
  end.

(** The traces of [check_for_updates], with its answer. *)
Inductive updates_shape : list Event -> bool -> Prop :=
| updates_not_initialized : updates_shape [] false
| updates_no_fetch e : updates_shape [ran Git.fetch (Exc e)] false
| updates_counted fetched l r :
    attempts (Git.rev_list "main") (Git.rev_list "master") l r ->
    updates_shape (ran Git.fetch (Ok fetched) :: l) (behind r).

End Shapes.

Module Runs.

Definition lines (l : list string) : string :=
  String.concat "" (map (fun s => s +:+ Py.NL) l).

(** A repository whose status query prints [status_out], whose stash and
    pulls exit with the given codes, and whose tracked files are [a.md]
    and [b.md] before a pull and [b.md] and [c.md] after one.  A clone
    succeeds and leaves a directory that holds [.git]. *)
Definition repo (status_out : string) (stash_code main_code master_code : Z) : Env :=
  Scenario.scripted (fun argv w =>
    match argv with
    | ["git"; "status"; "--porcelain"] => (Ok (Scenario.exited 0 status_out), fs w)
    | "git" :: "stash" :: _ => (Ok (Scenario.exited stash_code ""), fs w)
    | ["git"; "pull"; "origin"; "main"] => (Ok (Scenario.exited main_code ""), fs w)
    | ["git"; "pull"; "origin"; "master"] => (Ok (Scenario.exited master_code ""), fs w)
    | "git" :: "ls-tree" :: _ =>
        (Ok (Scenario.exited 0 (if existsb is_pull (trace w)
                                then lines ["b.md"; "c.md"] else lines ["a.md"; "b.md"])),
         fs w)
    | "git" :: "rev-list" :: _ => (Ok (Scenario.exited 128 ""), fs w)
    | "git" :: "clone" :: _ =>
        (Ok (Scenario.exited 0 ""),
         {| root := true; top := {[ ".git" := Directory ]}; backups := None |})
    | _ => (Ok (Scenario.exited 0 ""), fs w)
    end).

(** An environment in which the agents directory cannot be created. *)
Definition no_permission : Env :=
  {| subprocess_run := fun _ _ w => (Ok (Scenario.exited 0 ""), fs w);
     datetime_now := Scenario.clock;
     os_fault := fun op _ => match op with OpMkdirRoot => Some PermissionError | _ => None end;
     os_stat := fun _ _ => Ok (0, "");
     hash_order := fun _ _ _ => true |}.

(** An environment that iterates its sets in the order of [before], and
    is [e] otherwise. *)
Definition iterating (before : string -> string -> bool) (e : Env) : Env :=
  {| subprocess_run := subprocess_run e;
     datetime_now := datetime_now e;
     os_fault := os_fault e;
     os_stat := os_stat e;
     hash_order := fun _ => before |}.

(** A clock that stands still. *)
Definition noon : datetime :=
  {| year := 2024; month := 5; day := 17; hour := 12;
     minute := 0; second := 0; microsecond := 0 |}.

Definition frozen : Env :=
  {| subprocess_run := fun _ _ w => (Ok (Scenario.exited 0 ""), fs w);
     datetime_now := fun _ => noon;
     os_fault := fun _ _ => None;
     os_stat := fun _ _ => Ok (0, "");
     hash_order := fun _ _ _ => true |}.

(** A clone with one prompt, a snapshot taken at noon and a stray file
    under [.backups]. *)
Definition backed_up : World :=
  {| fs := {| root := true;
              top := {[ ".git" := Directory; "a.md" := File (Some "# A") ]};
              backups := Some {[ "backup_20240517_120000" := Snapshot ∅; "notes" := Stray ]} |};
     trace := []; tick := 0 |}.

(** A repository that is [n] commits behind its remote. *)
Definition ahead (n : nat) : Env :=
  Scenario.scripted (fun argv w =>
    match argv with
    | "git" :: "rev-list" :: _ => (Ok (Scenario.exited 0 (Py.str_nat n +:+ Py.NL)), fs w)
    | _ => (Ok (Scenario.exited 0 ""), fs w)
    end).

Definition tidy : World := Scenario.cloned {[ "a.md" := File (Some "# A") ]}.

End Runs.

(** ** Snapshots under [.backups] *)

(** The order [sorted] sorts by. *)
Definition sle (x y : string) : Prop := String.leb x y = true.

(** The names under [.backups]. *)
Definition entries (f : FS) : gset string :=
  match backups f with Some b => dom b | None => ∅ end.

(** The entries of [.backups] that match [backup_*], as [glob] lists
    them, and in the order of their names. *)
Definition snapshot_names (f : FS) : list string :=
  match backups f with
  | Some b => filter (Py.startswith "backup_") (map fst (map_to_list b))
  | None => []
  end.

Definition snapshots (f : FS) : list string := sorted (snapshot_names f).

(** [n] calls of [backup] in a row, with what each returned. *)
Fixpoint backups_run (env : Env) (self : AgentSync) (n : nat) : M (list (option Path)) :=
  match n with
  | 0 => ret []
  | S n' =>
      (let* p := backup env self in
       let* ps := backups_run env self n' in
       ret (p :: ps))
  end.

(** The names of the snapshots the calls created, oldest first. *)
Definition created (ps : list (option Path)) : list string :=
  omap (fun p : option Path => p ≫= last) ps.


(** What a run of backups returned, when it returned. *)
Definition returned (r : Res (list (option Path)) * World) : list (option Path) :=
  match fst r with Ok ps => ps | Exc _ => [] end.


(** ** What a method may do *)

(** Whether a clone succeeded, as [initialize] judges it: it returned
    with exit status zero. *)
Definition clone_ok (r : Res CompletedProcess) : bool :=
  match r with Ok c => (returncode c =? 0)%Z | Exc _ => false end.

(** The events [sync] can add to the trace; the entry into [backup] and
    the stash need [force]. *)
Inductive sync_event (self : AgentSync) (force : bool) : Event -> Prop :=
| sync_clones r : sync_event self force (cloning self r)
| sync_logs : sync_event self force log_append
| sync_asks_status r : sync_event self force (ran self Git.status r)
| sync_lists r : sync_event self force (ran self Git.ls_tree r)
| sync_pulls_main r : sync_event self force (ran self (Git.pull "main") r)
| sync_pulls_master r : sync_event self force (ran self (Git.pull "master") r)
| sync_backs_up : force = true -> sync_event self force EvBackup
| sync_stashes message r :
    force = true -> sync_event self force (ran self (Git.stash message) r).

(** A trace in which the last pull, on [main] or on [master], exited with
    status zero, and which ends with an entry in the log. *)
Definition pulled (self : AgentSync) (l : list Event) : Prop :=
  exists branch c,
    (branch = "main" \/ branch = "master") /\ returncode c = 0%Z /\
    last (List.filter is_pull l) = Some (ran self (Git.pull branch) (Ok c)) /\
    last l = Some log_append.

(** The events of the methods that only look: a file opened for reading,
    a fetch, a count of the commits ahead, a status query. *)
Inductive query_event (self : AgentSync) : Event -> Prop :=
| query_reads name : query_event self (EvOpen name "r")
| query_fetches r : query_event self (ran self Git.fetch r)
| query_counts_main r : query_event self (ran self (Git.rev_list "main") r)
| query_counts_master r : query_event self (ran self (Git.rev_list "master") r)
| query_asks_status r : query_event self (ran self Git.status r).

(** [git] as a command that leaves alone the part of the file system the
    program looks at. *)
Definition git_idle (env : Env) : Prop :=
  forall argv cwd w, snd (subprocess_run env argv cwd w) = fs w.

(** [keeps R m]: the file system [m] leaves is related by [R] to the one
    it found, however [m] ends. *)
Definition keeps {A} (R : FS -> FS -> Prop) (m : M A) : Prop :=
  forall w r w', m w = (r, w') -> R (fs w) (fs w').

(** ** Listings and reports *)

(** The direct children of the agents directory that match [*.md]. *)
Definition md_names (f : FS) : list string :=
  if root f
  then filter (fun n => is_child n && endswith ".md" n) (map fst (map_to_list (top f)))
  else [].

(** [info] is an entry for the file [name]: the name without its
    extension, the full path, and the role read from the text that a read
    of the file there returns. *)
Definition listed (self : AgentSync) (f : FS) (name : string) (info : AgentInfo) : Prop :=
  ai_name info = stem name /\ ai_file info = str_path self [name] /\
  exists content role,
    top f !! name = Some (File (Some content)) /\
    role_of_text (Py.universal_newlines content) = Ok role /\
    ai_role info = role_or_default role.

Definition opened_for_reading (name : string) : Event := EvOpen name "r".

(** The local changes [get_status] reports for an outcome of the status
    query (lines 328 to 338). *)
Definition local_changes_of (r : Res CompletedProcess) : list string :=
  match r with
  | Ok c => if Py.truthy (stdout c) then Py.split_char Py.LF (Py.strip (stdout c)) else []
  | Exc _ => []
  end.

(** ** Texts *)

(** Whether every character of a text is a decimal digit. *)
Fixpoint all_digits (s : string) : bool :=
  match s with
  | EmptyString => true
  | String c s' => Py.isdigit c && all_digits s'
  end.

(** Whether a character occurs in a text. *)
Fixpoint contains (c : ascii) (s : string) : bool :=
  match s with
  | EmptyString => false
  | String c' s' => Ascii.eqb c' c || contains c s'
  end.

(** A text whose lines all end with a line feed: the empty text, or one
    that ends with a line feed. *)
Definition ends_lines (t : string) : Prop :=
  t = "" \/ exists t', t = t' +:+ Py.NL.

(** The text of the log as [open(..., 'a')] finds it: empty when the file
    is not there yet. *)
Definition log_text (f : FS) : option string :=
  match top f !! ".sync.log" with
  | None => Some ""
  | Some (File t) => t
  | Some Directory => None
  end.

(** The line [_log] writes at a given time. *)
Definition log_entry_at (d : datetime) (message : string) : string :=
  strftime_log d +:+ " - " +:+ message +:+ Py.NL.

(** ** What [backup] may touch *)

(** Two states of the files that differ at most in the log and under
    [.backups]. *)
Definition same_agents (f f' : FS) : Prop :=
  root f' = root f /\ forall name, name <> ".sync.log" -> top f' !! name = top f !! name.

(** The same, for an agents directory that exists to begin with. *)
Definition same_agents_if_there (f f' : FS) : Prop :=
  root f = true -> same_agents f f'.

(** Two states of the files that differ at most under [.backups]. *)
Definition same_top (f f' : FS) : Prop :=
  root f' = root f /\ top f' = top f.

(** What is under [.backups] at a name. *)
Definition backup_entry (f : FS) (name : string) : option bentry :=
  match backups f with Some b => b !! name | None => None end.

(** Two states of the files with the same entries under [.backups], but
    for those that match [backup_*]. *)
Definition same_strays (f f' : FS) : Prop :=
  forall name, Py.startswith "backup_" name = false ->
    backup_entry f' name = backup_entry f name.



(** * Properties *)

(** ** The string methods on examples *)

Example strip_ex : Py.strip (" ?? a.md " +:+ String Py.LF "") = "?? a.md".
Proof. reflexivity. Qed.

Example splitlines_ex :
  Py.splitlines ("a.md" +:+ String Py.LF ("b.md" +:+ String Py.CR (String Py.LF "c")))
  = ["a.md"; "b.md"; "c"].
Proof. reflexivity. Qed.

Example readlines_ex :
  Py.readlines ("## Role" +:+ String Py.LF (String Py.LF "x"))
  = ["## Role" +:+ String Py.LF ""; String Py.LF ""; "x"].
Proof. reflexivity. Qed.

Example split_head_ex : Py.split_head " - " "2024-01-01 10:00:00 - Synced" = "2024-01-01 10:00:00".
Proof. reflexivity. Qed.

Example int_ex : Py.int (" 1_0" +:+ String Py.LF "") = Some 10%Z /\ Py.int "" = None /\ Py.int "-3" = Some (-3)%Z.
Proof. repeat split; reflexivity. Qed.

Example str_nat_ex : Py.str_nat 0 = "0" /\ Py.zfill 2 (Py.str_nat 7) = "07" /\ Py.zfill 2 (Py.str_nat 123) = "123".
Proof. repeat split; reflexivity. Qed.

(** ** Status of a directory that is not a clone *)

Section StatusFacts.
Variable env : Env.
Variable self : AgentSync.

(** C10. In a directory without [.git], [get_status] returns the default
    report (no agents, no last sync, no updates, no local changes) and
    leaves the world as it was: nothing was run, opened or asked. *)
Theorem get_status_uninitialized (w : World) :
  has_entry (fs w) ".git" = false ->
  get_status env self w = (Ok (default_status self), w).
Proof.
  intros H.
  unfold get_status, bind, is_initialized, path_exists, ret. simpl.
  rewrite H. reflexivity.
Qed.

End StatusFacts.

Lemma get_status_uninitialized_witness :
  has_entry (fs Scenario.nothing) ".git" = false /\
  get_status (Scenario.dirty "") Scenario.me Scenario.nothing
  = (Ok (default_status Scenario.me), Scenario.nothing).
Proof.
  split; [reflexivity |].
  apply (get_status_uninitialized (Scenario.dirty "") Scenario.me Scenario.nothing).
  reflexivity.
Defined.

(** ** Retrieval by name *)

Section GetAgentFacts.
Variable env : Env.

(** A text without carriage return is read as it is stored. *)
Lemma universal_newlines_plain s :
  contains Py.CR s = false -> Py.universal_newlines s = s.
Proof.
  unfold Py.universal_newlines. induction s as [| c s IH]; [reflexivity |].
  simpl. intros H. apply orb_false_elim in H as [Hc Hs].
  rewrite Hc, (IH Hs). reflexivity.
Qed.

(** What [get_agent] does once the file to read is known. *)
Lemma get_agent_candidate name w :
  let f := if has_entry (fs w) (name +:+ ".md") then name +:+ ".md" else name in
  fst (get_agent env name w) =
    if has_entry (fs w) f
    then match fst (read_file env f w) with
         | Ok t => Ok (Some t)
         | Exc _ => Ok None
         end
    else Ok None.
Proof.
  simpl. unfold get_agent, bind, try_except, ret, path_exists. simpl.
  destruct (has_entry (fs w) (name +:+ ".md")) eqn:E1; simpl.
  - rewrite E1.
    destruct (read_file env (name +:+ ".md") w) as [[t|e] w']; reflexivity.
  - destruct (has_entry (fs w) name) eqn:E2; simpl; [| reflexivity].
    destruct (read_file env name w) as [[t|e] w']; reflexivity.
Qed.

(** C8. For a relative [name], a directory that holds a file [name.md]
    with the content [content], and an [open] of it that does not fail for
    outside reasons: [get_agent name] returns the content as a read in
    text mode gives it, every carriage return, alone or followed by a line
    feed, read as one line feed; so does [get_agent (name.md)] when the
    test for [<dir>/name.md.md] answers no; and what is returned is
    exactly [content] when that has no carriage return.  When both tests
    answer no the result is [None] and nothing is touched; when the read
    of the chosen file raises, the result is [None]. *)
Theorem get_agent_round_trip (name : string) (w : World) :
  Py.startswith "/" name = false ->
  (forall content,
     root (fs w) = true ->
     top (fs w) !! (name +:+ ".md") = Some (File (Some content)) ->
     (forall w0, os_fault env (OpOpen (name +:+ ".md") "r") w0 = None) ->
     fst (get_agent env name w) = Ok (Some (Py.universal_newlines content)) /\
     (fst (path_exists ((name +:+ ".md") +:+ ".md") w) = Ok false ->
      fst (get_agent env (name +:+ ".md") w) = Ok (Some (Py.universal_newlines content))) /\
     (contains Py.CR content = false ->
      fst (get_agent env name w) = Ok (Some content))) /\
  (fst (path_exists (name +:+ ".md") w) = Ok false ->
   fst (path_exists name w) = Ok false ->
   get_agent env name w = (Ok None, w)) /\
  (forall e,
     fst (read_file env
            (if has_entry (fs w) (name +:+ ".md") then name +:+ ".md" else name) w)
     = Exc e ->
     fst (get_agent env name w) = Ok None).
Proof.
  intros _. split; [| split].
  - intros content Hroot Hfile Hopen.
    assert (Hex : has_entry (fs w) (name +:+ ".md") = true).
    { unfold has_entry. rewrite Hroot, Hfile. reflexivity. }
    assert (Hread : fst (read_file env (name +:+ ".md") w)
                    = Ok (Py.universal_newlines content)).
    { unfold read_file, fs_call. rewrite Hopen. simpl. rewrite Hroot, Hfile. reflexivity. }
    assert (Hget : fst (get_agent env name w) = Ok (Some (Py.universal_newlines content))).
    { rewrite get_agent_candidate. simpl. rewrite Hex, Hex, Hread. reflexivity. }
    split; [exact Hget | split].
    + unfold path_exists. simpl. intros [= Hno]. rewrite get_agent_candidate. simpl.
      rewrite Hno, Hex, Hread. reflexivity.
    + intros Hplain. rewrite Hget, (universal_newlines_plain _ Hplain). reflexivity.
  - unfold get_agent, bind, ret, path_exists. simpl. intros [= H1] [= H2].
    rewrite H1. simpl. rewrite H2. reflexivity.
  - intros e Hread. rewrite get_agent_candidate. simpl.
    destruct (has_entry (fs w) (if has_entry (fs w) (name +:+ ".md") then name +:+ ".md" else name));
      [| reflexivity].
    rewrite Hread. reflexivity.
Qed.

End GetAgentFacts.

Lemma get_agent_round_trip_witness :
  fst (get_agent (Scenario.dirty "") "foo" foo_only) = Ok (Some "You are a planner.") /\
  fst (get_agent (Scenario.dirty "") "foo.md" foo_only) = Ok (Some "You are a planner.") /\
  get_agent (Scenario.dirty "") "bar" foo_only = (Ok None, foo_only).
Proof.
  destruct (get_agent_round_trip (Scenario.dirty "") "foo" foo_only eq_refl) as [H _].
  destruct (H "You are a planner." eq_refl eq_refl (fun _ => eq_refl)) as (_ & H2 & H1).
  destruct (get_agent_round_trip (Scenario.dirty "") "bar" foo_only eq_refl) as (_ & H3 & _).
  split; [apply H1; reflexivity
         | split; [apply H2; vm_compute; reflexivity
                  | apply H3; vm_compute; reflexivity]].
Defined.

(** A prompt stored with a carriage return before its line feed does not
    come back as it was written: the pair is returned as one line feed. *)
Lemma get_agent_translates_line_ends :
  top (fs foo_crlf) !! "foo.md" = Some (File (Some two_lines_crlf)) /\
  fst (get_agent (Scenario.dirty "") "foo" foo_crlf)
  = Ok (Some ("You are a planner." +:+ Py.NL +:+ "Plan.")) /\
  fst (get_agent (Scenario.dirty "") "foo" foo_crlf) <> Ok (Some two_lines_crlf).
Proof. split; [reflexivity | split; [vm_compute; reflexivity | vm_compute; discriminate]]. Qed.

(** ** The role summary of a listing entry *)

Lemma truthy_append_r a b : Py.truthy b = true -> Py.truthy (a +:+ b) = true.
Proof. destruct a; simpl; auto. Qed.

Lemma truthy_shorten s : Py.truthy s = true -> Py.truthy (shorten s) = true.
Proof.
  intros H. unfold shorten. destruct (100 <? String.length s)%nat; [| exact H].
  apply truthy_append_r. reflexivity.
Qed.

Lemma next_role_none ls :
  Forall (fun l => summary_line l = false) ls -> next_role ls = None.
Proof.
  induction 1 as [| l ls Hl _ IH]; simpl; [reflexivity |].
  unfold summary_line in Hl. rewrite Hl. exact IH.
Qed.

Lemma next_role_first skip l rest :
  Forall (fun l => summary_line l = false) skip ->
  summary_line l = true ->
  next_role (skip ++ l :: rest) = Some (shorten (Py.strip l)).
Proof.
  intros Hskip Hl. induction Hskip as [| k skip Hk _ IH]; simpl.
  - unfold summary_line in Hl. rewrite Hl. reflexivity.
  - unfold summary_line in Hk. rewrite Hk. exact IH.
Qed.

Lemma index_first h pre post :
  Forall (fun l => l <> h) pre ->
  Py.index h (pre ++ h :: post) = Some (length pre).
Proof.
  induction 1 as [| l pre Hl _ IH]; simpl.
  - rewrite String.eqb_refl. reflexivity.
  - apply String.eqb_neq in Hl. rewrite Hl, IH. reflexivity.
Qed.

Lemma find_role_none lines rest :
  Forall (fun l => role_heading l = false) rest -> find_role lines rest = Ok None.
Proof.
  induction 1 as [| l rest Hl _ IH]; simpl; [reflexivity |].
  unfold role_heading in Hl. rewrite Hl. exact IH.
Qed.

Lemma find_role_first lines pre h post :
  Forall (fun l => role_heading l = false) pre ->
  role_heading h = true ->
  find_role lines (pre ++ h :: post) =
    match Py.index h lines with
    | Some i => Ok (next_role (drop (i + 1) lines))
    | None => Exc ValueError
    end.
Proof.
  intros Hpre Hh. induction Hpre as [| l pre Hl _ IH]; simpl.
  - unfold role_heading in Hh. rewrite Hh. reflexivity.
  - unfold role_heading in Hl. rewrite Hl. exact IH.
Qed.

(** The loop of [list_agents] on ten lines of which [h] is the first
    heading: the search goes on in the lines after [h]. *)
Lemma find_role_heading pre h post :
  Forall (fun l => role_heading l = false) pre ->
  role_heading h = true ->
  find_role (pre ++ h :: post) (pre ++ h :: post) = Ok (next_role post).
Proof.
  intros Hpre Hh. rewrite find_role_first by assumption.
  rewrite index_first.
  - replace (length pre + 1) with (length (pre ++ [h])) by (rewrite length_app; reflexivity).
    rewrite (cons_middle h pre post), app_assoc, drop_app_length. reflexivity.
  - eapply Forall_impl; [exact Hpre |]. simpl. intros l Hl ->. congruence.
Qed.

(** C7, as the code has it. An entry [list_agents] builds for a file
    carries a role read from the first ten lines of its text.  Without a
    line that, stripped, starts with [## Role], the role is the sentinel.
    With [h] the first such line, the role is the first line after [h],
    among those ten, that stripped is neither empty nor starts with [#],
    cut to 100 characters and marked with three dots when longer; it is
    the sentinel when no line after [h] qualifies. *)
Theorem list_agents_role env self agent_file w info w' :
  describe_agent env self agent_file w = (Ok (Some info), w') ->
  exists text,
    fst (read_file env agent_file w) = Ok text /\
    let lines := take 10 (Py.readlines text) in
    (Forall (fun l => role_heading l = false) lines -> ai_role info = unavailable) /\
    (forall pre h post,
       lines = (pre ++ h :: post)%list ->
       Forall (fun l => role_heading l = false) pre ->
       role_heading h = true ->
       (forall skip l rest,
          post = (skip ++ l :: rest)%list ->
          Forall (fun l => summary_line l = false) skip ->
          summary_line l = true ->
          ai_role info = shorten (Py.strip l)) /\
       (Forall (fun l => summary_line l = false) post -> ai_role info = unavailable)).
Proof.
  unfold describe_agent, try_except, bind. intros H.
  destruct (read_file env agent_file w) as [[text|e] w1] eqn:Hread; [| discriminate].
  exists text. split; [reflexivity |]. simpl.
  unfold role_of_text in H.
  assert (Hinfo : forall role,
            find_role (take 10 (Py.readlines text)) (take 10 (Py.readlines text)) = Ok role ->
            ai_role info = role_or_default role).
  { intros role Hrole. rewrite Hrole in H.
    destruct (stat env agent_file w1) as [[st1|e1] w2]; [| discriminate].
    destruct (stat env agent_file w2) as [[st2|e2] w3]; [| discriminate].
    unfold ret in H. injection H as <- _. reflexivity. }
  split.
  - intros Hnone. rewrite (Hinfo None); [reflexivity |]. apply find_role_none, Hnone.
  - intros pre h post Hlines Hpre Hh.
    assert (Hrole : ai_role info = role_or_default (next_role post)).
    { apply Hinfo. rewrite Hlines. apply find_role_heading; assumption. }
    split.
    + intros skip l rest -> Hskip Hl. rewrite Hrole, next_role_first by assumption.
      simpl. rewrite truthy_shorten; [reflexivity |].
      unfold summary_line in Hl. apply andb_prop in Hl. apply Hl.
    + intros Hpost. rewrite Hrole, next_role_none by assumption. reflexivity.
Qed.

Lemma list_agents_role_witness :
  describe_agent (Scenario.dirty "") Scenario.me "planner.md" planner_world
  = (Ok (Some planner_info),
     snd (describe_agent (Scenario.dirty "") Scenario.me "planner.md" planner_world)) /\
  ai_role planner_info = shorten (Py.strip ("Example role text" +:+ Py.NL)).
Proof.
  assert (Hrun : describe_agent (Scenario.dirty "") Scenario.me "planner.md" planner_world
                 = (Ok (Some planner_info),
                    snd (describe_agent (Scenario.dirty "") Scenario.me "planner.md" planner_world)))
    by (vm_compute; reflexivity).
  split; [exact Hrun |].
  destruct (list_agents_role _ _ _ _ _ _ Hrun) as (text & Htext & _ & Hrole).
  vm_compute in Htext. injection Htext as <-.
  destruct (Hrole ["# Planner" +:+ Py.NL] ("## Role" +:+ Py.NL)
              [Py.NL; "Example role text" +:+ Py.NL]) as [Hfound _].
  - vm_compute. reflexivity.
  - repeat constructor.
  - reflexivity.
  - apply (Hfound [Py.NL] ("Example role text" +:+ Py.NL) []).
    + reflexivity.
    + repeat constructor.
    + reflexivity.
Defined.

(** C7 as the spec words it fails: no line of this file equals [## Role]
    once stripped, and yet its role is not the sentinel; the code asks for
    a line that starts with [## Role]. *)
Lemma role_heading_not_literal :
  let text := "## Roles and duties" +:+ Py.NL +:+ "Reviews patches" +:+ Py.NL in
  Forall (fun l => Py.strip l <> "## Role") (take 10 (Py.readlines text)) /\
  role_of_text text = Ok (Some "Reviews patches") /\
  role_or_default (Some "Reviews patches") <> unavailable.
Proof.
  simpl. split; [| split].
  - repeat constructor; vm_compute; discriminate.
  - vm_compute. reflexivity.
  - vm_compute. discriminate.
Qed.

(** ** The exit status of the command line *)




(** ** What a method adds to the trace *)

Lemma emitted_eq {A} (m : M A) w l :
  trace (snd (m w)) = trace w ++ l -> emitted m w = l.
Proof. unfold emitted. intros ->. apply drop_app_length. Qed.

Lemma bind_inv {A B} (m : M A) (k : A -> M B) w r w' :
  bind m k w = (r, w') ->
  (exists a w1, m w = (Ok a, w1) /\ k a w1 = (r, w')) \/
  (exists e, m w = (Exc e, w') /\ r = Exc e).
Proof.
  unfold bind. destruct (m w) as [[a|e] w1]; intros H.
  - left. eauto.
  - right. injection H as <- <-. eauto.
Qed.

Lemma try_except_inv {A} (m : M A) (h : exn -> M A) w r w' :
  try_except m h w = (r, w') ->
  (exists a, m w = (Ok a, w') /\ r = Ok a) \/
  (exists e w1, m w = (Exc e, w1) /\ h e w1 = (r, w')).
Proof.
  unfold try_except. destruct (m w) as [[a|e] w1]; intros H.
  - left. injection H as <- <-. eauto.
  - right. eauto.
Qed.

Section Emits.
Context (P : Event -> Prop).

Lemma emits_ret {A} (a : A) : emits P (ret a).
Proof. intros w r w' [= <- <-]. exists []. rewrite app_nil_r. auto. Qed.

Lemma emits_raise {A} e : emits P (@raise A e).
Proof. intros w r w' [= <- <-]. exists []. rewrite app_nil_r. auto. Qed.

Lemma emits_bind {A B} (m : M A) (k : A -> M B) :
  emits P m -> (forall a, emits P (k a)) -> emits P (bind m k).
Proof.
  intros Hm Hk w r w' H. apply bind_inv in H as [(a & w1 & H1 & H2) | (e & H1 & ->)].
  - destruct (Hm _ _ _ H1) as (l1 & E1 & F1). destruct (Hk _ _ _ _ H2) as (l2 & E2 & F2).
    exists (l1 ++ l2). rewrite E2, E1, app_assoc. split; [reflexivity |].
    apply Forall_app; auto.
  - exact (Hm _ _ _ H1).
Qed.

Lemma emits_try_except {A} (m : M A) h :
  emits P m -> (forall e, emits P (h e)) -> emits P (try_except m h).
Proof.
  intros Hm Hh w r w' H.
  apply try_except_inv in H as [(a & H1 & ->) | (e & w1 & H1 & H2)].
  - exact (Hm _ _ _ H1).
  - destruct (Hm _ _ _ H1) as (l1 & E1 & F1). destruct (Hh _ _ _ _ H2) as (l2 & E2 & F2).
    exists (l1 ++ l2). rewrite E2, E1, app_assoc. split; [reflexivity |].
    apply Forall_app; auto.
Qed.

Lemma emits_for_each {A} (l : list A) body :
  (forall x, emits P (body x)) -> emits P (for_each l body).
Proof.
  intros Hb. induction l as [| x l IH]; simpl.
  - apply emits_ret.
  - apply emits_bind; auto.
Qed.

Lemma emits_silent {A} (m : M A) :
  (forall w, trace (snd (m w)) = trace w) -> emits P m.
Proof.
  intros H w r w' E. exists []. rewrite app_nil_r. split; [| constructor].
  specialize (H w). rewrite E in H. exact H.
Qed.

Lemma emits_fs_call {A} env op (act : FS -> Res A * FS) : emits P (fs_call env op act).
Proof.
  apply emits_silent. intros w. unfold fs_call.
  destruct (os_fault env op w); [reflexivity |]. destruct (act (fs w)); reflexivity.
Qed.

Lemma emits_now env : emits P (now env).
Proof. apply emits_silent. reflexivity. Qed.

Lemma emits_stat env name : emits P (stat env name).
Proof. apply emits_silent. reflexivity. Qed.

Lemma emits_glob_md : emits P glob_md.
Proof. apply emits_silent. reflexivity. Qed.

Lemma emits_glob_backups : emits P glob_backups.
Proof. apply emits_silent. reflexivity. Qed.

Lemma emits_path_exists name : emits P (path_exists name).
Proof. apply emits_silent. reflexivity. Qed.

Lemma emits_root_exists : emits P root_exists.
Proof. apply emits_silent. reflexivity. Qed.

Lemma emits_recorded {A} (m : M A) ev :
  P ev -> emits P m -> emits P (fun w => m (record ev w)).
Proof.
  intros Hev Hm w r w' H. destruct (Hm _ _ _ H) as (l & E & F).
  exists (ev :: l). simpl in E. rewrite E, <- app_assoc. split; [reflexivity |].
  constructor; assumption.
Qed.

Lemma emits_append_file env name entry :
  P (EvOpen name "a") -> emits P (append_file env name entry).
Proof. intros H. unfold append_file. apply emits_recorded; [exact H | apply emits_fs_call]. Qed.

Lemma emits_read_file env name :
  P (EvOpen name "r") -> emits P (read_file env name).
Proof. intros H. unfold read_file. apply emits_recorded; [exact H | apply emits_fs_call]. Qed.

Lemma emits_run env argv cwd :
  (forall r, P (EvRun argv cwd r)) -> emits P (run env argv cwd).
Proof.
  intros H w r w'. unfold run. destruct (subprocess_run env argv cwd w) as [r0 f].
  intros [= <- <-]. exists [EvRun argv cwd r0]. split; [reflexivity |].
  constructor; [apply H | constructor].
Qed.

End Emits.

(** One step through a computation made of silent primitives. *)
Ltac emits_step :=
  match goal with
  | |- forall _, emits _ _ => intro
  | |- emits _ (bind _ _) => apply emits_bind
  | |- emits _ (try_except _ _) => apply emits_try_except
  | |- emits _ (for_each _ _) => apply emits_for_each
  | |- emits _ (ret _) => apply emits_ret
  | |- emits _ (raise _) => apply emits_raise
  | |- emits _ (now _) => apply emits_now
  | |- emits _ glob_md => apply emits_glob_md
  | |- emits _ glob_backups => apply emits_glob_backups
  | |- emits _ (path_exists _) => apply emits_path_exists
  | |- emits _ root_exists => apply emits_root_exists
  | |- emits _ (stat _ _) => apply emits_stat
  | |- emits _ (mkdir_root _) => apply emits_fs_call
  | |- emits _ (mkdir_backups _) => apply emits_fs_call
  | |- emits _ (mkdir_snapshot _ _) => apply emits_fs_call
  | |- emits _ (copy2 _ _ _) => apply emits_fs_call
  | |- emits _ (rmtree _ _) => apply emits_fs_call
  | |- emits _ (if ?b then _ else _) => destruct b
  end.

Section MethodTraces.
Variable env : Env.
Variable self : AgentSync.

Lemma log_spec message w :
  exists w', _log env message w = (Ok tt, w') /\
             trace w' = trace w ++ [EvOpen ".sync.log" "a"].
Proof.
  unfold _log, bind, now, try_except, append_file, fs_call, ret. simpl.
  destruct (os_fault env _ _); simpl; [eexists; split; reflexivity |].
  destruct (root (fs w)); simpl; [| eexists; split; reflexivity].
  destruct (top (fs w) !! ".sync.log") as [[[t|]|]|]; simpl; eexists; split; reflexivity.
Qed.

Lemma emits_log message : emits is_log_append (_log env message).
Proof.
  intros w r w' H. destruct (log_spec message w) as (w1 & E & T).
  rewrite E in H. injection H as <- <-. exists [EvOpen ".sync.log" "a"].
  split; [exact T |]. repeat constructor.
Qed.

(** [backup] never raises; it marks its entry in the trace and opens
    nothing but the log. *)
Lemma backup_spec w r w' :
  backup env self w = (r, w') ->
  exists o opens,
    r = Ok o /\ trace w' = trace w ++ EvBackup :: opens /\ Forall is_log_append opens.
Proof.
  unfold backup. intros H.
  assert (Hbody : emits is_log_append
            (mkdir_backups env ;;
             let* d := now env in
             mkdir_snapshot env ("backup_" +:+ strftime_compact d) ;;
             let* md_files := glob_md in
             for_each md_files (fun md_file => copy2 env md_file ("backup_" +:+ strftime_compact d)) ;;
             let* found := glob_backups in
             for_each (all_but_last5 (sorted found)) (rmtree env) ;;
             _log env ("Backup created: " +:+ str_path self [".backups"; "backup_" +:+ strftime_compact d]) ;;
             ret (Some [".backups"; "backup_" +:+ strftime_compact d]))).
  { repeat emits_step; apply emits_log. }
  apply try_except_inv in H as [(o & H & ->) | (e & w1 & H & Hh)].
  - destruct (Hbody _ _ _ H) as (l & E & F). exists o, l. simpl in E.
    rewrite E, <- app_assoc. auto.
  - destruct (Hbody _ _ _ H) as (l & E & F). injection Hh as <- <-.
    exists None, l. simpl in E. rewrite E, <- app_assoc. auto.
Qed.

End MethodTraces.

(** ** The shape of the traces *)

Section ShapeLemmas.
Variable env : Env.
Variable self : AgentSync.

Lemma run_inv argv cwd w r w' :
  run env argv cwd w = (r, w') -> trace w' = trace w ++ [EvRun argv cwd r].
Proof.
  unfold run. destruct (subprocess_run env argv cwd w) as [r0 f].
  intros [= <- <-]. reflexivity.
Qed.

Lemma Zeqb_cases (z : Z) : ((z =? 0)%Z = true /\ z = 0%Z) \/ ((z =? 0)%Z = false /\ z <> 0%Z).
Proof. destruct (Z.eqb_spec z 0); auto. Qed.

(** A command with its fallback, as both [check_for_updates] and [sync]
    write it, followed by what is done with the outcome. *)
Lemma attempts_run {B} (first second : list string) (k : CompletedProcess -> M B) w r w' :
  (let* result := git env self first in
   let* result :=
     (if negb (returncode result =? 0)%Z then git env self second else ret result) in
   k result) w = (r, w') ->
  exists l rr w1,
    trace w1 = trace w ++ l /\ attempts self first second l rr /\
    match rr with
    | Ok c => k c w1 = (r, w')
    | Exc e => r = Exc e /\ w' = w1
    end.
Proof.
  unfold git, bind, ret.
  destruct (run env ("git" :: first) _ w) as [[c|e] w1] eqn:H1; apply run_inv in H1.
  - destruct (Zeqb_cases (returncode c)) as [[E Hc] | [E Hc]]; rewrite E; simpl.
    + intros H. exists [ran self first (Ok c)], (Ok c), w1.
      split; [exact H1 |]. split; [| exact H].
      apply attempt_first. intros c' [= <-]. exact Hc.
    + destruct (run env ("git" :: second) _ w1) as [r2 w2] eqn:H2; apply run_inv in H2.
      intros H. exists [ran self first (Ok c); ran self second r2], r2, w2.
      split; [rewrite H2, H1, <- app_assoc; reflexivity |].
      split; [apply attempt_second; exact Hc |].
      destruct r2; [exact H | injection H as <- <-; auto].
  - intros [= <- <-]. exists [ran self first (Exc e)], (Exc e), w1.
    split; [exact H1 |]. split; [| auto].
    apply attempt_first. discriminate.
Qed.

Lemma insert_by_perm before x l : insert_by before x l ≡ₚ x :: l.
Proof.
  induction l as [| y l IH]; simpl; [reflexivity |].
  destruct (before x y); [reflexivity |]. rewrite IH. apply Permutation_swap.
Qed.

(** Whatever the order of iteration, the list made of a set holds its
    elements, once each. *)
Lemma iterated_perm before l : foldr (insert_by before) [] l ≡ₚ l.
Proof.
  induction l as [| x l IH]; simpl; [reflexivity |].
  rewrite insert_by_perm, IH. reflexivity.
Qed.

Lemma sync_pull_shape w r w' :
  sync_pull env self w = (r, w') ->
  exists l, trace w' = trace w ++ l /\ pull_shape self l r.
Proof.
  unfold sync_pull. intros H.
  apply bind_inv in H as [(before & w1 & H1 & H) | (e & H1 & ->)]; unfold git in H1;
    apply run_inv in H1.
  2: { eexists. split; [exact H1 |]. constructor. }
  apply attempts_run in H as (l & rr & w2 & T2 & Hl & H).
  destruct rr as [c|e].
  2: { destruct H as [-> ->]. exists (ran self Git.ls_tree (Ok before) :: l).
       split; [rewrite T2, H1, <- app_assoc; reflexivity |].
       apply pull_raises. exact Hl. }
  destruct (Zeqb_cases (returncode c)) as [[E Hc] | [E Hc]]; rewrite E in H.
  2: { injection H as <- <-. exists (ran self Git.ls_tree (Ok before) :: l).
       split; [rewrite T2, H1, <- app_assoc; reflexivity |].
       eapply pull_fails; eassumption. }
  apply bind_inv in H as [(after & w3 & H3 & H) | (e & H3 & ->)]; unfold git in H3;
    apply run_inv in H3.
  2: { exists (ran self Git.ls_tree (Ok before) :: l ++ [ran self Git.ls_tree (Exc e)]).
       split; [rewrite H3, T2, H1, <- !app_assoc; reflexivity |].
       eapply pull_no_second_listing; eassumption. }
  unfold bind, list_of_set in H.
  match type of H with
  | context [_log env ?m ?w0] => destruct (log_spec env m w0) as (w4 & E4 & T4); rewrite E4 in H
  end.
  injection H as <- <-. simpl in T4.
  exists (ran self Git.ls_tree (Ok before) :: l ++ [ran self Git.ls_tree (Ok after); log_append]).
  split; [rewrite T4, H3, T2, H1, <- !app_assoc; reflexivity |].
  eapply pull_synced; [eassumption | eassumption | apply iterated_perm].
Qed.

Lemma guarded_shape_of force w r w' :
  sync_guarded env self force w = (r, w') ->
  exists l, trace w' = trace w ++ l /\ guarded_shape self force l r.
Proof.
  unfold sync_guarded. intros H.
  apply try_except_inv in H as [(v & H & ->) | (e & w0 & H & Hh)].
  - apply bind_inv in H as [(c & w1 & H1 & H) | (e & H1 & [=])]; unfold git in H1;
      apply run_inv in H1.
    destruct (Py.truthy (Py.strip (stdout c))) eqn:Hdirty.
    + destruct force; simpl in H.
      * apply bind_inv in H as [(o & w2 & H2 & H) | (e & H2 & [=])].
        apply backup_spec in H2 as (o' & opens & _ & T2 & Hopens).
        apply bind_inv in H as [(d & w3 & H3 & H) | (e & H3 & [=])].
        injection H3 as <- <-.
        apply bind_inv in H as [(cs & w4 & H4 & H) | (e & H4 & [=])]; unfold git in H4;
          apply run_inv in H4.
        apply sync_pull_shape in H as (l & T & Hl).
        eexists. split.
        2: { change (Ok v) with (caught (Ok v)).
             eapply guarded_forced; [exact Hdirty | reflexivity | exact Hopens | exact Hl]. }
        rewrite T, H4. simpl. rewrite T2, H1, <- !app_assoc. reflexivity.
      * injection H as <- <-. eexists. split; [exact H1 |].
        apply guarded_refused; [exact Hdirty | reflexivity].
    + apply sync_pull_shape in H as (l & T & Hl).
      exists (ran self Git.status (Ok c) :: l).
      split; [rewrite T, H1, <- app_assoc; reflexivity |].
      change (Ok v) with (caught (Ok v)). apply guarded_clean; assumption.
  - injection Hh as <- <-.
    apply bind_inv in H as [(c & w1 & H1 & H) | (e' & H1 & [= <-])]; unfold git in H1;
      apply run_inv in H1.
    2: { eexists. split; [exact H1 |]. constructor. }
    destruct (Py.truthy (Py.strip (stdout c))) eqn:Hdirty.
    + destruct force; simpl in H; [| discriminate].
      apply bind_inv in H as [(o & w2 & H2 & H) | (e' & H2 & [= <-])];
        apply backup_spec in H2 as (o' & opens & Ho & T2 & Hopens); [| discriminate].
      apply bind_inv in H as [(d & w3 & H3 & H) | (e' & H3 & _)];
        [| unfold now in H3; discriminate].
      injection H3 as <- <-.
      apply bind_inv in H as [(cs & w4 & H4 & H) | (e' & H4 & [= <-])]; unfold git in H4;
        apply run_inv in H4.
      * apply sync_pull_shape in H as (l & T & Hl).
        eexists. split.
        2: { change (Ok (false, @nil string)) with (caught (Exc e)).
             eapply guarded_forced; [exact Hdirty | reflexivity | exact Hopens | exact Hl]. }
        rewrite T, H4. simpl. rewrite T2, H1, <- !app_assoc. reflexivity.
      * eexists. split.
        2: { eapply guarded_no_stash; [exact Hdirty | reflexivity | exact Hopens]. }
        rewrite H4. simpl. rewrite T2, H1, <- !app_assoc. reflexivity.
    + apply sync_pull_shape in H as (l & T & Hl).
      exists (ran self Git.status (Ok c) :: l).
      split; [rewrite T, H1, <- app_assoc; reflexivity |].
      change (Ok (false, @nil string)) with (caught (Exc e)). apply guarded_clean; assumption.
Qed.

Lemma fs_call_trace {A} op (act : FS -> Res A * FS) w :
  trace (snd (fs_call env op act w)) = trace w.
Proof.
  unfold fs_call. destruct (os_fault env op w); [reflexivity |].
  destruct (act (fs w)); reflexivity.
Qed.

Lemma init_shape_of w r w' :
  ensure_initialized env self w = (r, w') ->
  exists l, trace w' = trace w ++ l /\ init_shape self l r.
Proof.
  unfold ensure_initialized, is_initialized, path_exists, bind.
  destruct (has_entry (fs w) ".git") eqn:Hgit; simpl.
  { intros [= <- <-]. exists []. rewrite app_nil_r. split; [reflexivity | constructor]. }
  unfold initialize. destruct (Py.truthy (repo_url self)); simpl.
  2: { intros [= <- <-]. exists []. rewrite app_nil_r. split; [reflexivity | constructor]. }
  intros H.
  apply bind_inv in H as [(e & w1 & H1 & H) | (e & H1 & _)]; [| discriminate].
  injection H1 as <- <-.
  apply bind_inv in H as [([] & w2 & H2 & H) | (e & H2 & ->)].
  2: { exists []. rewrite app_nil_r. split; [| constructor].
       destruct (root (fs w)); simpl in H2; [discriminate |].
       pose proof (fs_call_trace OpMkdirRoot
         (fun f => if root f then (Exc FileExistsError, f)
                   else (Ok tt, {| root := true; top := ∅; backups := None |})) w) as T.
       unfold mkdir_root in H2. rewrite H2 in T. exact T. }
  assert (T2 : trace w2 = trace w).
  { destruct (root (fs w)); simpl in H2; [injection H2 as <-; reflexivity |].
    pose proof (fs_call_trace OpMkdirRoot
      (fun f => if root f then (Exc FileExistsError, f)
                else (Ok tt, {| root := true; top := ∅; backups := None |})) w) as T.
    unfold mkdir_root in H2. rewrite H2 in T. exact T. }
  apply bind_inv in H as [(i & w3 & H3 & H) | (e & H3 & _)]; [| discriminate].
  injection H3 as <- <-.
  destruct (has_entry (fs w2) ".git"); simpl in H.
  { injection H as <- <-. exists []. rewrite app_nil_r. split; [exact T2 | constructor]. }
  apply try_except_inv in H as [(v & H & ->) | (e & w4 & H & Hh)].
  - apply bind_inv in H as [(c & w4 & H4 & H) | (e & H4 & [=])]. apply run_inv in H4.
    destruct (Zeqb_cases (returncode c)) as [[E Hc] | [E Hc]]; rewrite E in H.
    + unfold bind in H.
      destruct (log_spec env "Repository cloned successfully" w4) as (w5 & E5 & T5).
      rewrite E5 in H. injection H as <- <-.
      exists [cloning self (Ok c); log_append].
      split; [rewrite T5, H4, T2, <- app_assoc; reflexivity |].
      apply init_cloned. exact Hc.
    + injection H as <- <-. exists [cloning self (Ok c)].
      split; [rewrite H4, T2; reflexivity |]. apply init_clone_fails. exact Hc.
  - injection Hh as <- <-.
    apply bind_inv in H as [(c & w5 & H4 & H) | (e' & H4 & [= <-])].
    + destruct (returncode c =? 0)%Z.
      * unfold bind in H.
        destruct (log_spec env "Repository cloned successfully" w5) as (w6 & E6 & T6).
        rewrite E6 in H. discriminate.
      * discriminate.
    + apply run_inv in H4. exists [cloning self (Exc e)].
      split; [rewrite H4, T2; reflexivity |]. constructor.
Qed.

Lemma sync_shape_of force w r w' :
  sync env self force w = (r, w') ->
  exists l, trace w' = trace w ++ l /\ sync_shape self force l r.
Proof.
  unfold sync. intros H.
  apply bind_inv in H as [(ok & w1 & H1 & H) | (e & H1 & ->)];
    apply init_shape_of in H1 as (l1 & T1 & S1).
  - destruct ok; simpl in H.
    + apply guarded_shape_of in H as (l2 & T2 & S2).
      exists (l1 ++ l2). split; [rewrite T2, T1, app_assoc; reflexivity |].
      apply sync_guarded_run; assumption.
    + injection H as <- <-. exists l1. split; [exact T1 |].
      apply sync_not_initialized. exact S1.
  - exists l1. split; [exact T1 |]. apply sync_raises. exact S1.
Qed.

Lemma updates_shape_of w r w' :
  check_for_updates env self w = (r, w') ->
  exists b l, r = Ok b /\ trace w' = trace w ++ l /\ updates_shape self l b /\
    (has_entry (fs w) ".git" = true -> l <> []).
Proof.
  unfold check_for_updates, is_initialized, path_exists, bind at 1.
  destruct (has_entry (fs w) ".git"); simpl.
  2: { intros [= <- <-]. exists false, []. rewrite app_nil_r.
       split; [reflexivity |]. split; [reflexivity |]. split; [constructor | discriminate]. }
  intros H. apply try_except_inv in H as [(v & H & ->) | (e & w0 & H & Hh)].
  - apply bind_inv in H as [(fetched & w1 & H1 & H) | (e & H1 & [=])]. unfold git in H1.
    apply run_inv in H1.
    apply attempts_run in H as (l & rr & w2 & T2 & Hl & H).
    destruct rr as [c|e]; [| destruct H; discriminate].
    exists v, (ran self Git.fetch (Ok fetched) :: l).
    split; [reflexivity |].
    assert (Hv : v = behind (Ok c) /\ w' = w2).
    { simpl. destruct (returncode c =? 0)%Z.
      - destruct (Py.int (Py.strip (stdout c))); [| discriminate].
        injection H as <- <-. auto.
      - injection H as <- <-. auto. }
    destruct Hv as [-> ->].
    split; [rewrite T2, H1, <- app_assoc; reflexivity |].
    split; [apply updates_counted; exact Hl | discriminate].
  - injection Hh as <- <-.
    apply bind_inv in H as [(fetched & w1 & H1 & H) | (e' & H1 & [= <-])]; unfold git in H1;
      apply run_inv in H1.
    2: { exists false, [ran self Git.fetch (Exc e)].
         split; [reflexivity |]. split; [exact H1 |]. split; [constructor | discriminate]. }
    apply attempts_run in H as (l & rr & w2 & T2 & Hl & H).
    exists false, (ran self Git.fetch (Ok fetched) :: l).
    split; [reflexivity |].
    assert (Hv : false = behind rr /\ w0 = w2).
    { destruct rr as [c|e'']; [| destruct H as [_ ->]; auto].
      simpl. destruct (returncode c =? 0)%Z.
      - destruct (Py.int (Py.strip (stdout c))); [discriminate |].
        injection H as <-. auto.
      - discriminate. }
    destruct Hv as [Hb ->].
    split; [rewrite T2, H1, <- app_assoc; reflexivity |].
    split; [rewrite Hb; apply updates_counted; exact Hl | discriminate].
Qed.

End ShapeLemmas.

(** ** What the traces of [sync] say *)

Section SyncFacts.
Variable env : Env.
Variable self : AgentSync.

Lemma sync_trace force w :
  trace (snd (sync env self force w)) = trace w ++ emitted (sync env self force) w /\
  sync_shape self force (emitted (sync env self force) w) (fst (sync env self force w)).
Proof.
  destruct (sync_shape_of env self force w (fst (sync env self force w))
              (snd (sync env self force w))) as (l & T & S).
  { destruct (sync env self force w); reflexivity. }
  rewrite (emitted_eq _ _ _ T). auto.
Qed.

Lemma updates_trace w :
  exists b, fst (check_for_updates env self w) = Ok b /\
            updates_shape self (emitted (check_for_updates env self) w) b.
Proof.
  destruct (updates_shape_of env self w (fst (check_for_updates env self w))
              (snd (check_for_updates env self w))) as (b & l & E & T & S & _).
  { destruct (check_for_updates env self w); reflexivity. }
  rewrite (emitted_eq _ _ _ T). eauto.
Qed.

(** On a clone [check_for_updates] begins with the fetch. *)
Lemma check_for_updates_on_clone w :
  has_entry (fs w) ".git" = true ->
  exists rf rest, emitted (check_for_updates env self) w = ran self Git.fetch rf :: rest.
Proof.
  intros Hgit.
  destruct (updates_shape_of env self w (fst (check_for_updates env self w))
              (snd (check_for_updates env self w))) as (b & l & E & T & S & Hl).
  { destruct (check_for_updates env self w); reflexivity. }
  rewrite (emitted_eq _ _ _ T). specialize (Hl Hgit).
  destruct S as [| e | fetched l r Ha]; [contradiction | eauto ..].
Qed.

Lemma init_events l r : init_shape self l r -> Forall (is_init_event self) l.
Proof.
  destruct 1; repeat (apply List.Forall_cons); try apply List.Forall_nil;
    first [left; eexists; reflexivity | right; reflexivity].
Qed.

Lemma attempts_pulls first second l r :
  attempts self ("pull" :: first) ("pull" :: second) l r -> List.filter is_pull l = l.
Proof. destruct 1; reflexivity. Qed.

Lemma attempts_rev_lists first second l r :
  attempts self ("rev-list" :: first) ("rev-list" :: second) l r ->
  List.filter is_rev_list l = l.
Proof. destruct 1; reflexivity. Qed.

Lemma init_no_pull l : Forall (is_init_event self) l -> List.filter is_pull l = [].
Proof.
  induction 1 as [| ev l [[r ->] | ->] _ IH]; simpl; auto.
Qed.

Lemma opens_no_pull l : Forall is_log_append l -> List.filter is_pull l = [].
Proof. induction 1 as [| ev l -> _ IH]; simpl; auto. Qed.

Lemma pull_shape_events l r :
  pull_shape self l r ->
  Forall (fun ev => is_git Git.ls_tree ev \/ is_pull ev = true \/ ev = log_append) l.
Proof.
  assert (Ha : forall l r, attempts self (Git.pull "main") (Git.pull "master") l r ->
             Forall (fun ev => is_git Git.ls_tree ev \/ is_pull ev = true \/ ev = log_append) l).
  { destruct 1; repeat (apply List.Forall_cons); try apply List.Forall_nil;
      right; left; reflexivity. }
  destruct 1;
    repeat first [apply List.Forall_cons | apply Forall_app; split | apply List.Forall_nil];
    try (left; reflexivity); try (right; right; reflexivity); eauto.
Qed.

Lemma status_not_in_pull_shape l r cwd rs :
  pull_shape self l r -> EvRun ("git" :: Git.status) cwd rs ∉ l.
Proof.
  intros Hl Hin. apply pull_shape_events in Hl. rewrite Forall_forall in Hl.
  destruct (Hl _ Hin) as [H | [H | H]]; simpl in H; discriminate.
Qed.

Lemma status_not_init l cwd rs :
  Forall (is_init_event self) l -> EvRun ("git" :: Git.status) cwd rs ∉ l.
Proof.
  intros Hl Hin. rewrite Forall_forall in Hl.
  destruct (Hl _ Hin) as [[r H] | H]; discriminate.
Qed.

(** C1, as the code has it. Whenever [sync(force=False)] gets from its
    status query an output that is not blank (not empty once stripped),
    it returns failure with no changed file; the status query is the last
    thing it does, and all that precedes it is initialization (the clone
    of a directory that was not one yet, its log entry): no pull, no
    stash, no backup. *)
Theorem sync_refuses_local_changes w cwd c :
  EvRun ("git" :: Git.status) cwd (Ok c) ∈ emitted (sync env self false) w ->
  Py.truthy (Py.strip (stdout c)) = true ->
  fst (sync env self false w) = Ok (false, []) /\
  last (emitted (sync env self false) w) = Some (ran self Git.status (Ok c)) /\
  exists init, emitted (sync env self false) w = init ++ [ran self Git.status (Ok c)] /\
               Forall (is_init_event self) init.
Proof.
  intros Hin Hdirty. destruct (sync_trace false w) as [_ S].
  revert Hin. generalize dependent (emitted (sync env self false) w).
  generalize dependent (fst (sync env self false w)).
  intros r evs S Hin. destruct S as [l Hl | l e Hl | l g r Hl Hg].
  - apply init_events in Hl. exfalso. eapply status_not_init; eauto.
  - apply init_events in Hl. exfalso. eapply status_not_init; eauto.
  - apply init_events in Hl. apply elem_of_app in Hin as [Hin | Hin].
    { exfalso. eapply status_not_init; eauto. }
    destruct Hg as [e | c' Hc' _ | c' l' r' Hc' Hp | c' opens m e _ Hf | c' opens m cs l' r' _ Hf];
      try discriminate.
    + apply list_elem_of_singleton in Hin. discriminate.
    + apply list_elem_of_singleton in Hin. injection Hin as -> ->.
      split; [reflexivity |]. split; [apply last_snoc |]. eauto.
    + apply elem_of_cons in Hin as [Hin | Hin].
      * injection Hin as -> ->. congruence.
      * exfalso. eapply status_not_in_pull_shape; eauto.
Qed.

(** C4. Whenever [sync(force=True)] gets from its status query an output
    that is not blank, its trace reads: initialization, the status query,
    the entry into [backup] with the log entry [backup] writes, the stash,
    and then the pull phase.  The entry into [backup] thus comes before the
    stash.  If the stash returns, with whatever exit status, what [sync]
    returns is what the pull phase yields: a failed stash does not fail
    the sync. *)
Theorem sync_force_backup_before_stash w cwd c :
  EvRun ("git" :: Git.status) cwd (Ok c) ∈ emitted (sync env self true) w ->
  Py.truthy (Py.strip (stdout c)) = true ->
  exists init opens message rs rest,
    emitted (sync env self true) w =
      init ++ ran self Git.status (Ok c) :: EvBackup :: opens
           ++ ran self (Git.stash message) rs :: rest /\
    Forall (is_init_event self) init /\
    Forall is_log_append opens /\
    (forall cs, rs = Ok cs ->
       exists rp, pull_shape self rest rp /\ fst (sync env self true w) = caught rp).
Proof.
  intros Hin Hdirty. destruct (sync_trace true w) as [_ S].
  revert Hin. generalize dependent (emitted (sync env self true) w).
  generalize dependent (fst (sync env self true w)).
  intros r evs S Hin. destruct S as [l Hl | l e Hl | l g r Hl Hg].
  - apply init_events in Hl. exfalso. eapply status_not_init; eauto.
  - apply init_events in Hl. exfalso. eapply status_not_init; eauto.
  - apply init_events in Hl. apply elem_of_app in Hin as [Hin | Hin].
    { exfalso. eapply status_not_init; eauto. }
    destruct Hg as [e | c' Hc' Hf | c' l' r' Hc' Hp | c' opens m e _ _ Ho | c' opens m cs l' r' _ _ Ho Hp];
      try discriminate.
    + apply list_elem_of_singleton in Hin. discriminate.
    + apply elem_of_cons in Hin as [Hin | Hin].
      * injection Hin as -> ->. congruence.
      * exfalso. eapply status_not_in_pull_shape; eauto.
    + assert (c' = c) as ->.
      { apply elem_of_cons in Hin as [Hin | Hin]; [injection Hin as _ ->; reflexivity |].
        apply elem_of_cons in Hin as [Hin | Hin]; [discriminate |].
        apply elem_of_app in Hin as [Hin | Hin].
        - rewrite Forall_forall in Ho. specialize (Ho _ Hin). discriminate.
        - apply list_elem_of_singleton in Hin. discriminate. }
      exists l, opens, m, (Exc e), []. repeat split; auto. discriminate.
    + assert (c' = c) as ->.
      { apply elem_of_cons in Hin as [Hin | Hin]; [injection Hin as _ ->; reflexivity |].
        apply elem_of_cons in Hin as [Hin | Hin]; [discriminate |].
        apply elem_of_app in Hin as [Hin | Hin].
        - rewrite Forall_forall in Ho. specialize (Ho _ Hin). discriminate.
        - apply elem_of_cons in Hin as [Hin | Hin]; [discriminate |].
          exfalso. eapply status_not_in_pull_shape; eauto. }
      exists l, opens, m, (Ok cs), l'. repeat split; auto.
      intros cs' _. exists r'. auto.
Qed.

Lemma ls_tree_not_init l cwd r :
  Forall (is_init_event self) l -> EvRun ("git" :: Git.ls_tree) cwd r ∉ l.
Proof.
  intros Hl Hin. rewrite Forall_forall in Hl.
  destruct (Hl _ Hin) as [[r' H] | H]; discriminate.
Qed.

Lemma ls_tree_not_opens l cwd r :
  Forall is_log_append l -> EvRun ("git" :: Git.ls_tree) cwd r ∉ l.
Proof.
  intros Hl Hin. rewrite Forall_forall in Hl. specialize (Hl _ Hin). discriminate.
Qed.

Lemma status_not_opens l cwd r :
  Forall is_log_append l -> EvRun ("git" :: Git.status) cwd r ∉ l.
Proof.
  intros Hl Hin. rewrite Forall_forall in Hl. specialize (Hl _ Hin). discriminate.
Qed.

(** Lines 148 to 191 begin with a listing. *)
Lemma pull_shape_lists l r :
  pull_shape self l r -> exists rl rest, l = ran self Git.ls_tree rl :: rest.
Proof. destruct 1; eauto. Qed.

(** Once the first listing has returned, the pulls are the attempts on
    [main] and [master], nothing else there is a pull, and a failure of
    the attempt that counts gives the failure result. *)
Lemma pull_shape_listed l r before :
  pull_shape self l r -> ran self Git.ls_tree (Ok before) ∈ l ->
  exists rp v,
    attempts self (Git.pull "main") (Git.pull "master") (List.filter is_pull l) rp /\
    caught r = Ok v /\
    (forall c, rp = Ok c -> returncode c <> 0%Z -> v = (false, [])) /\
    (forall e, rp = Exc e -> v = (false, [])).
Proof.
  destruct 1 as [e | before' l e Ha | before' l c Ha Hc | before' l c e Ha Hc
                 | before' l c after changed Ha Hc Hperm]; intros Hin.
  - apply list_elem_of_singleton in Hin. discriminate.
  - simpl. rewrite (attempts_pulls _ _ _ _ Ha). eexists _, _.
    split; [exact Ha |]. split; [reflexivity |]. split; reflexivity.
  - simpl. rewrite (attempts_pulls _ _ _ _ Ha). eexists _, _.
    split; [exact Ha |]. split; [reflexivity |]. split; reflexivity.
  - simpl. rewrite List.filter_app, (attempts_pulls _ _ _ _ Ha). simpl. rewrite app_nil_r.
    eexists _, _. split; [exact Ha |]. split; [reflexivity |]. split; reflexivity.
  - simpl. rewrite List.filter_app, (attempts_pulls _ _ _ _ Ha). simpl. rewrite app_nil_r.
    eexists _, _. split; [exact Ha |]. split; [reflexivity |]. split.
    + intros c' [= <-] Hne. contradiction.
    + discriminate.
Qed.

(** The same, of the whole of [sync]. *)
Lemma sync_shape_listed force l r before :
  sync_shape self force l r -> ran self Git.ls_tree (Ok before) ∈ l ->
  exists rp v,
    attempts self (Git.pull "main") (Git.pull "master") (List.filter is_pull l) rp /\
    r = Ok v /\
    (forall c, rp = Ok c -> returncode c <> 0%Z -> v = (false, [])) /\
    (forall e, rp = Exc e -> v = (false, [])).
Proof.
  destruct 1 as [l Hl | l e Hl | l g r Hl Hg]; intros Hin.
  - apply init_events in Hl. exfalso. eapply ls_tree_not_init; eauto.
  - apply init_events in Hl. exfalso. eapply ls_tree_not_init; eauto.
  - apply init_events in Hl. apply elem_of_app in Hin as [Hin | Hin].
    { exfalso. eapply ls_tree_not_init; eauto. }
    rewrite List.filter_app, (init_no_pull l Hl). simpl.
    destruct Hg as [e | c' Hc' Hf | c' l' r' Hc' Hp | c' opens m e _ _ Ho
                    | c' opens m cs l' r' _ _ Ho Hp].
    + apply list_elem_of_singleton in Hin. discriminate.
    + apply list_elem_of_singleton in Hin. discriminate.
    + apply elem_of_cons in Hin as [Hin | Hin]; [discriminate |].
      exact (pull_shape_listed _ _ _ Hp Hin).
    + exfalso. apply elem_of_cons in Hin as [Hin | Hin]; [discriminate |].
      apply elem_of_cons in Hin as [Hin | Hin]; [discriminate |].
      apply elem_of_app in Hin as [Hin | Hin]; [eapply ls_tree_not_opens; eauto |].
      apply list_elem_of_singleton in Hin. discriminate.
    + apply elem_of_cons in Hin as [Hin | Hin]; [discriminate |].
      apply elem_of_cons in Hin as [Hin | Hin]; [discriminate |].
      apply elem_of_app in Hin as [Hin | Hin];
        [exfalso; eapply ls_tree_not_opens; eauto |].
      apply elem_of_cons in Hin as [Hin | Hin]; [discriminate |].
      simpl. rewrite List.filter_app, (opens_no_pull _ Ho). simpl.
      exact (pull_shape_listed _ _ _ Hp Hin).
Qed.

(** A status query that returned a blank output is followed by a
    listing. *)
Lemma sync_shape_clean force l r c :
  sync_shape self force l r -> ran self Git.status (Ok c) ∈ l ->
  Py.truthy (Py.strip (stdout c)) = false ->
  exists rl, ran self Git.ls_tree rl ∈ l.
Proof.
  destruct 1 as [l Hl | l e Hl | l g r Hl Hg]; intros Hin Hclean.
  - apply init_events in Hl. exfalso. eapply status_not_init; eauto.
  - apply init_events in Hl. exfalso. eapply status_not_init; eauto.
  - apply init_events in Hl. apply elem_of_app in Hin as [Hin | Hin].
    { exfalso. eapply status_not_init; eauto. }
    destruct Hg as [e | c' Hc' Hf | c' l' r' Hc' Hp | c' opens m e Hc' _ Ho
                    | c' opens m cs l' r' Hc' _ Ho Hp].
    + apply list_elem_of_singleton in Hin. discriminate.
    + apply list_elem_of_singleton in Hin. injection Hin as ->. congruence.
    + destruct (pull_shape_lists _ _ Hp) as (rl & rest & ->). exists rl.
      apply elem_of_app. right. right. left.
    + exfalso. apply elem_of_cons in Hin as [Hin | Hin]; [injection Hin as ->; congruence |].
      apply elem_of_cons in Hin as [Hin | Hin]; [discriminate |].
      apply elem_of_app in Hin as [Hin | Hin]; [eapply status_not_opens; eauto |].
      apply list_elem_of_singleton in Hin. discriminate.
    + exfalso. apply elem_of_cons in Hin as [Hin | Hin]; [injection Hin as ->; congruence |].
      apply elem_of_cons in Hin as [Hin | Hin]; [discriminate |].
      apply elem_of_app in Hin as [Hin | Hin]; [eapply status_not_opens; eauto |].
      apply elem_of_cons in Hin as [Hin | Hin]; [discriminate |].
      eapply status_not_in_pull_shape; eauto.
Qed.

(** On a clone [sync] begins with the status query, and whatever that
    gives, [sync] returns. *)
Lemma sync_on_clone force w :
  has_entry (fs w) ".git" = true ->
  exists rs rest v,
    emitted (sync env self force) w = ran self Git.status rs :: rest /\
    fst (sync env self force w) = Ok v.
Proof.
  intros Hgit.
  assert (E : sync env self force w = sync_guarded env self force w).
  { unfold sync, ensure_initialized, is_initialized, path_exists, bind. rewrite Hgit.
    reflexivity. }
  destruct (sync_guarded env self force w) as [r w'] eqn:Eg.
  destruct (guarded_shape_of env self force w r w' Eg) as (l & T & S).
  unfold emitted. rewrite E. simpl. rewrite T, drop_app_length.
  destruct S as [e | c' Hc' Hf | c' l' [v|e] Hc' Hp | c' opens m e _ _ Ho
                 | c' opens m cs l' [v|e] _ _ Ho Hp]; simpl; eauto.
Qed.

Lemma fetch_not_attempted l r cwd rf :
  attempts self (Git.rev_list "main") (Git.rev_list "master") l r ->
  EvRun ("git" :: Git.fetch) cwd rf ∉ l.
Proof.
  destruct 1; intros Hin.
  - apply list_elem_of_singleton in Hin. discriminate.
  - apply elem_of_cons in Hin as [Hin | Hin]; [discriminate |].
    apply list_elem_of_singleton in Hin. discriminate.
Qed.

(** C5. On a clone, [check_for_updates] begins with the fetch.  Once the
    fetch has been run the check returns; when the fetch itself returned,
    what follows it is the count on [main] and, exactly when that one
    exited with a status other than zero, the count on [master], and the
    answer is read from the count that counts: [False] when it failed.
    On a clone, [sync] begins with the status query; once that has been
    run [sync] returns; a blank status is followed by the listing of the
    tracked files; and once a listing has returned, the pulls of [sync]
    are the pull of [main] and, exactly when that one exited with a
    status other than zero, the pull of [master]: when the pull that
    counts failed, or could not be run, [sync] returns failure with no
    changed file. *)
Theorem branch_fallback :
  (forall w, has_entry (fs w) ".git" = true ->
     exists rf rest,
       emitted (check_for_updates env self) w = ran self Git.fetch rf :: rest) /\
  (forall w rf,
     ran self Git.fetch rf ∈ emitted (check_for_updates env self) w ->
     exists b,
       fst (check_for_updates env self w) = Ok b /\
       forall fetched, rf = Ok fetched ->
         exists tries r,
           emitted (check_for_updates env self) w = ran self Git.fetch rf :: tries /\
           attempts self (Git.rev_list "main") (Git.rev_list "master") tries r /\
           b = behind r /\
           (forall c, r = Ok c -> returncode c <> 0%Z -> b = false)) /\
  (forall force w, has_entry (fs w) ".git" = true ->
     exists rs rest,
       emitted (sync env self force) w = ran self Git.status rs :: rest) /\
  (forall force w rs,
     ran self Git.status rs ∈ emitted (sync env self force) w ->
     (exists v, fst (sync env self force w) = Ok v) /\
     forall c, rs = Ok c -> Py.truthy (Py.strip (stdout c)) = false ->
       exists rl, ran self Git.ls_tree rl ∈ emitted (sync env self force) w) /\
  (forall force w before,
     ran self Git.ls_tree (Ok before) ∈ emitted (sync env self force) w ->
     exists r v,
       attempts self (Git.pull "main") (Git.pull "master")
         (List.filter is_pull (emitted (sync env self force) w)) r /\
       fst (sync env self force w) = Ok v /\
       (forall c, r = Ok c -> returncode c <> 0%Z -> v = (false, [])) /\
       (forall e, r = Exc e -> v = (false, []))).
Proof.
  split; [| split; [| split; [| split]]].
  - exact check_for_updates_on_clone.
  - intros w rf Hin. destruct (updates_trace w) as (b & E & S). exists b.
    split; [exact E |]. intros fetched ->.
    destruct S as [| e | fetched' l r Ha].
    + apply elem_of_nil in Hin. contradiction.
    + apply list_elem_of_singleton in Hin. discriminate.
    + apply elem_of_cons in Hin as [Hin | Hin];
        [| exfalso; eapply fetch_not_attempted; eauto].
      injection Hin as ->. exists l, r. split; [reflexivity |]. split; [exact Ha |].
      split; [reflexivity |].
      intros c -> Hne. simpl. apply Z.eqb_neq in Hne. rewrite Hne. reflexivity.
  - intros force w Hgit. destruct (sync_on_clone force w Hgit) as (rs & rest & v & E & _).
    eauto.
  - intros force w rs Hin. destruct (sync_trace force w) as [_ S]. split.
    + destruct S as [l Hl | l e Hl | l g r Hl Hg].
      * apply init_events in Hl. exfalso. eapply status_not_init; eauto.
      * apply init_events in Hl. exfalso. eapply status_not_init; eauto.
      * destruct Hg as [e | c' Hc' Hf | c' l' [v|e] Hc' Hp | c' opens m e _ _ Ho
                        | c' opens m cs l' [v|e] _ _ Ho Hp]; simpl; eauto.
    + intros c -> Hclean. exact (sync_shape_clean _ _ _ _ S Hin Hclean).
  - intros force w before Hin. destruct (sync_trace force w) as [_ S].
    exact (sync_shape_listed _ _ _ _ S Hin).
Qed.

Lemma symmetric_difference_comm (a b : gset string) :
  symmetric_difference a b = symmetric_difference b a.
Proof.
  unfold symmetric_difference. apply set_eq. intros f.
  rewrite !elem_of_union, !elem_of_difference. tauto.
Qed.

Lemma elem_of_symmetric_difference (a b : gset string) f :
  f ∈ symmetric_difference a b <-> (f ∈ a /\ f ∉ b) \/ (f ∈ b /\ f ∉ a).
Proof.
  unfold symmetric_difference. rewrite elem_of_union, !elem_of_difference. tauto.
Qed.

Lemma pull_shape_synced l changed :
  pull_shape self l (Ok (true, changed)) ->
  exists before pulls after,
    l = ran self Git.ls_tree (Ok before) :: pulls ++ [ran self Git.ls_tree (Ok after); log_append] /\
    List.filter is_pull pulls = pulls /\
    changed ≡ₚ elements (symmetric_difference (line_set (stdout after)) (line_set (stdout before))).
Proof.
  inversion 1 as [| | | | before pulls c after changed' Ha Hc Hperm]; subst.
  exists before, pulls, after. split; [reflexivity |]. split; [| exact Hperm].
  eapply attempts_pulls; eauto.
Qed.

(** C2. When [sync] reports success, the list it returns is made of the
    two listings of tracked files that surround the pulls in its trace:
    it holds, once each, the paths that are in exactly one of the two
    sets, in the order in which the set happens to be iterated; taken as
    a set it is the symmetric difference of the two, whichever of them
    comes first. *)
Theorem changed_files_symmetric_difference force w changed :
  fst (sync env self force w) = Ok (true, changed) ->
  exists pre before pulls after,
    emitted (sync env self force) w =
      pre ++ ran self Git.ls_tree (Ok before) :: pulls
          ++ [ran self Git.ls_tree (Ok after); log_append] /\
    List.filter is_pull pulls = pulls /\
    let B := line_set (stdout before) in
    let A := line_set (stdout after) in
    (forall f, f ∈ changed <-> (f ∈ B /\ f ∉ A) \/ (f ∈ A /\ f ∉ B)) /\
    NoDup changed /\
    list_to_set changed = symmetric_difference A B /\
    list_to_set changed = symmetric_difference B A.
Proof.
  intros Hok. destruct (sync_trace force w) as [_ S]. rewrite Hok in S.
  assert (Hgoal : forall pre l, pull_shape self l (Ok (true, changed)) ->
            exists pre' before pulls after,
              pre ++ l = pre' ++ ran self Git.ls_tree (Ok before) :: pulls
                               ++ [ran self Git.ls_tree (Ok after); log_append] /\
              List.filter is_pull pulls = pulls /\
              (forall f, f ∈ changed <->
                 (f ∈ line_set (stdout before) /\ f ∉ line_set (stdout after)) \/
                 (f ∈ line_set (stdout after) /\ f ∉ line_set (stdout before))) /\
              NoDup changed /\
              list_to_set changed
              = symmetric_difference (line_set (stdout after)) (line_set (stdout before)) /\
              list_to_set changed
              = symmetric_difference (line_set (stdout before)) (line_set (stdout after))).
  { intros pre l Hp. apply pull_shape_synced in Hp as (before & pulls & after & -> & Hf & Hperm).
    assert (Hset : list_to_set changed
                   = symmetric_difference (line_set (stdout after)) (line_set (stdout before))).
    { rewrite (list_to_set_perm_L _ _ Hperm). apply list_to_set_elements_L. }
    exists pre, before, pulls, after. split; [reflexivity |]. split; [exact Hf |].
    split; [| split; [| split]].
    - intros f. rewrite Hperm, elem_of_elements, elem_of_symmetric_difference. tauto.
    - rewrite Hperm. apply NoDup_elements.
    - exact Hset.
    - rewrite Hset. apply symmetric_difference_comm. }
  assert (Hc : forall r x, caught r = Ok (true, x) -> r = Ok (true, x)).
  { intros [v|e] x; simpl; [auto | discriminate]. }
  remember (Ok (true, changed)) as r eqn:Hr.
  destruct S as [l Hl | l e Hl | l g r Hl Hg]; try discriminate.
  destruct Hg as [e | c' Hc' Hf | c' l' r' Hc' Hp | c' opens m e _ _ Ho | c' opens m cs l' r' _ _ Ho Hp];
    try discriminate.
  - apply Hc in Hr. subst r'.
    destruct (Hgoal (l ++ [ran self Git.status (Ok c')]) l' Hp) as (pre & b & p & a & E & H).
    exists pre, b, p, a. rewrite <- E, <- app_assoc. auto.
  - apply Hc in Hr. subst r'.
    destruct (Hgoal (l ++ ran self Git.status (Ok c') :: EvBackup :: opens
                       ++ [ran self (Git.stash m) (Ok cs)]) l' Hp) as (pre & b & p & a & E & H).
    exists pre, b, p, a. rewrite <- E. split; [| exact H].
    rewrite <- !app_assoc. simpl. rewrite <- !app_assoc. reflexivity.
Qed.

End SyncFacts.

Lemma sync_refuses_local_changes_witness :
  let env := Runs.repo (Runs.lines ["?? notes.md"]) 0 0 0 in
  fst (sync env Scenario.me false Runs.tidy) = Ok (false, []) /\
  last (emitted (sync env Scenario.me false) Runs.tidy)
  = Some (ran Scenario.me Git.status (Ok (Scenario.exited 0 (Runs.lines ["?? notes.md"])))).
Proof.
  simpl.
  destruct (sync_refuses_local_changes (Runs.repo (Runs.lines ["?? notes.md"]) 0 0 0)
              Scenario.me Runs.tidy (Some "/home/u/agents")
              (Scenario.exited 0 (Runs.lines ["?? notes.md"]))) as (H1 & H2 & _).
  - apply list_elem_of_In. vm_compute. left. reflexivity.
  - reflexivity.
  - split; [exact H1 | exact H2].
Defined.

(** C1 as the spec words it fails twice.  An output of the status query
    that is not empty but blank passes the test: the pull is run and the
    sync succeeds.  And in a directory that is not a clone yet, the clone,
    a remote call other than the status query, has been made by the time
    the status query reports the log file the clone left behind. *)
Lemma sync_blank_or_clone_counterexample :
  (let env := Runs.repo Py.NL 0 0 0 in
   stdout (Scenario.exited 0 Py.NL) <> "" /\
   ran Scenario.me Git.status (Ok (Scenario.exited 0 Py.NL))
     ∈ emitted (sync env Scenario.me false) Runs.tidy /\
   fst (sync env Scenario.me false Runs.tidy) = Ok (true, ["c.md"; "a.md"]) /\
   ran Scenario.me (Git.pull "main") (Ok (Scenario.exited 0 ""))
     ∈ emitted (sync env Scenario.me false) Runs.tidy) /\
  (let env := Runs.repo (Runs.lines ["?? .sync.log"]) 0 0 0 in
   stdout (Scenario.exited 0 (Runs.lines ["?? .sync.log"])) <> "" /\
   ran Scenario.me Git.status (Ok (Scenario.exited 0 (Runs.lines ["?? .sync.log"])))
     ∈ emitted (sync env Scenario.me false) Scenario.nothing /\
   cloning Scenario.me (Ok (Scenario.exited 0 ""))
     ∈ emitted (sync env Scenario.me false) Scenario.nothing).
Proof.
  split; simpl.
  - split; [discriminate |]. split; [| split].
    + apply list_elem_of_In. vm_compute. left. reflexivity.
    + vm_compute. reflexivity.
    + apply list_elem_of_In. vm_compute. right. right. left. reflexivity.
  - split; [discriminate |]. split.
    + apply list_elem_of_In. vm_compute. right. right. left. reflexivity.
    + apply list_elem_of_In. vm_compute. left. reflexivity.
Qed.

Lemma sync_force_backup_before_stash_witness :
  let env := Runs.repo (Runs.lines ["?? notes.md"]) 1 0 0 in
  fst (sync env Scenario.me true Runs.tidy) = Ok (true, ["c.md"; "a.md"]) /\
  exists init opens message rs rest,
    emitted (sync env Scenario.me true) Runs.tidy =
      init ++ ran Scenario.me Git.status (Ok (Scenario.exited 0 (Runs.lines ["?? notes.md"])))
           :: EvBackup :: opens ++ ran Scenario.me (Git.stash message) rs :: rest /\
    Forall (is_init_event Scenario.me) init /\
    Forall is_log_append opens /\
    (forall cs, rs = Ok cs ->
       exists rp, pull_shape Scenario.me rest rp /\
                  fst (sync env Scenario.me true Runs.tidy) = caught rp).
Proof.
  simpl. split; [vm_compute; reflexivity |].
  apply (sync_force_backup_before_stash (Runs.repo (Runs.lines ["?? notes.md"]) 1 0 0)
           Scenario.me Runs.tidy (Some "/home/u/agents")).
  - apply list_elem_of_In. vm_compute. left. reflexivity.
  - reflexivity.
Defined.

Lemma changed_files_symmetric_difference_witness :
  let env := Runs.iterating String.leb (Runs.repo "" 0 0 0) in
  fst (sync env Scenario.me false Runs.tidy) = Ok (true, ["a.md"; "c.md"]) /\
  NoDup ["a.md"; "c.md"].
Proof.
  simpl.
  assert (Hrun : fst (sync (Runs.iterating String.leb (Runs.repo "" 0 0 0))
                        Scenario.me false Runs.tidy)
                 = Ok (true, ["a.md"; "c.md"])) by (vm_compute; reflexivity).
  split; [exact Hrun |].
  destruct (changed_files_symmetric_difference _ _ _ _ _ Hrun)
    as (pre & before & pulls & after & _ & _ & _ & Hnodup & _).
  exact Hnodup.
Defined.

Lemma branch_fallback_witness :
  let env := Runs.repo "" 0 1 1 in
  List.filter is_pull (emitted (sync env Scenario.me false) Runs.tidy)
  = [ran Scenario.me (Git.pull "main") (Ok (Scenario.exited 1 ""));
     ran Scenario.me (Git.pull "master") (Ok (Scenario.exited 1 ""))] /\
  fst (sync env Scenario.me false Runs.tidy) = Ok (false, []) /\
  fst (check_for_updates env Scenario.me Runs.tidy) = Ok false.
Proof.
  simpl.
  destruct (branch_fallback (Runs.repo "" 0 1 1) Scenario.me) as (_ & Hcheck & _ & _ & Hsync).
  assert (E : List.filter is_pull
                (emitted (sync (Runs.repo "" 0 1 1) Scenario.me false) Runs.tidy)
              = [ran Scenario.me (Git.pull "main") (Ok (Scenario.exited 1 ""));
                 ran Scenario.me (Git.pull "master") (Ok (Scenario.exited 1 ""))])
    by (vm_compute; reflexivity).
  split; [exact E | split].
  - destruct (Hsync false Runs.tidy (Scenario.exited 0 (Runs.lines ["a.md"; "b.md"])))
      as (r & v & Ha & Hv & Hfail & _).
    + apply list_elem_of_In. vm_compute. right. left. reflexivity.
    + rewrite E in Ha. inversion Ha; subst.
      rewrite Hv. f_equal. apply (Hfail (Scenario.exited 1 "") eq_refl). discriminate.
  - destruct (Hcheck Runs.tidy (Ok (Scenario.exited 0 ""))) as (b & Hb & Hrest).
    + apply list_elem_of_In. vm_compute. left. reflexivity.
    + destruct (Hrest _ eq_refl) as (tries & r & Et & Ha & _ & Hfail).
      assert (E' : emitted (check_for_updates (Runs.repo "" 0 1 1) Scenario.me) Runs.tidy
                   = [ran Scenario.me Git.fetch (Ok (Scenario.exited 0 ""));
                      ran Scenario.me (Git.rev_list "main") (Ok (Scenario.exited 128 ""));
                      ran Scenario.me (Git.rev_list "master") (Ok (Scenario.exited 128 ""))])
        by (vm_compute; reflexivity).
      rewrite E' in Et. injection Et as <-. inversion Ha; subst.
      rewrite Hb. f_equal. apply (Hfail (Scenario.exited 128 "") eq_refl). discriminate.
Defined.

(** The fallback at work: [main] is refused, [master] is pulled. *)
Example pull_falls_back_to_master :
  List.filter is_pull (emitted (sync (Runs.repo "" 0 1 0) Scenario.me false) Runs.tidy)
  = [ran Scenario.me (Git.pull "main") (Ok (Scenario.exited 1 ""));
     ran Scenario.me (Git.pull "master") (Ok (Scenario.exited 0 ""))] /\
  fst (sync (Runs.repo "" 0 1 0) Scenario.me false Runs.tidy) = Ok (true, ["c.md"; "a.md"]) /\
  fst (sync (Runs.repo "" 0 1 1) Scenario.me false Runs.tidy) = Ok (false, []) /\
  fst (check_for_updates (Runs.repo "" 0 1 1) Scenario.me Runs.tidy) = Ok false.
Proof. repeat split; vm_compute; reflexivity. Qed.

(** C6 fails on the code: [sync] creates a missing agents directory
    outside of any [try], and what [mkdir] raises there leaves [initialize]
    and [sync] as an exception instead of a failure result. *)
Theorem sync_lets_mkdir_exception_escape :
  fst (initialize Runs.no_permission Scenario.me Scenario.nothing) = Exc PermissionError /\
  fst (sync Runs.no_permission Scenario.me false Scenario.nothing) = Exc PermissionError /\
  fst (sync Runs.no_permission Scenario.me true Scenario.nothing) = Exc PermissionError.
Proof. repeat split. Qed.

(** ** Sorting names *)

Lemma sle_total x y : sle x y \/ sle y x.
Proof. apply String.leb_total. Qed.

Lemma sle_antisym x y : sle x y -> sle y x -> x = y.
Proof. apply String.leb_antisym. Qed.


Lemma sle_refl x : sle x x.
Proof. destruct (sle_total x x); assumption. Qed.

#[local] Instance sle_antisymm : AntiSymm (=) sle.
Proof. intros x y. apply sle_antisym. Qed.

Lemma insert_sorted_perm x l : insert_sorted x l ≡ₚ x :: l.
Proof.
  induction l as [| y l IH]; simpl; [reflexivity |].
  destruct (String.leb x y); [reflexivity |].
  rewrite IH. apply Permutation_swap.
Qed.

Lemma sorted_perm l : sorted l ≡ₚ l.
Proof.
  induction l as [| x l IH]; simpl; [reflexivity |].
  rewrite insert_sorted_perm, IH. reflexivity.
Qed.















(** ** Backup rotation *)

Lemma elem_of_snapshot_names f x :
  x ∈ snapshot_names f <-> Py.startswith "backup_" x = true /\ x ∈ entries f.
Proof.
  unfold snapshot_names, entries. destruct (backups f) as [b|].
  - rewrite list_elem_of_filter, Is_true_true.
    assert (H : x ∈ map fst (map_to_list b) <-> x ∈ dom b); [| tauto].
    rewrite elem_of_dom. change (map fst (map_to_list b)) with ((map_to_list b).*1).
    rewrite list_elem_of_fmap. split.
    + intros ([k v] & -> & Hin). apply elem_of_map_to_list in Hin. eauto.
    + intros [v Hv]. exists (x, v). split; [reflexivity |].
      apply elem_of_map_to_list. exact Hv.
  - rewrite elem_of_nil, elem_of_empty. tauto.
Qed.


Section BackupSteps.
Variable env : Env.

Lemma fs_call_inv {A} op (act : FS -> Res A * FS) w r w' :
  fs_call env op act w = (r, w') ->
  (exists e, os_fault env op w = Some e /\ r = Exc e /\ fs w' = fs w) \/
  (os_fault env op w = None /\ act (fs w) = (r, fs w')).
Proof.
  unfold fs_call. destruct (os_fault env op w) as [e|].
  - intros [= <- <-]. left. eauto.
  - destruct (act (fs w)) as [r0 f] eqn:E. intros [= <- <-]. right. auto.
Qed.







Lemma log_backups message w r w' :
  _log env message w = (r, w') -> backups (fs w') = backups (fs w).
Proof.
  unfold _log, bind, now, try_except, append_file. simpl.
  match goal with
  | |- context [fs_call env ?op ?act ?w0] =>
      destruct (fs_call env op act w0) as [r0 w1] eqn:E;
      apply fs_call_inv in E as [(e & _ & _ & E) | [_ E]]
  end.
  - destruct r0; intros [= _ <-]; rewrite E; reflexivity.
  - simpl in E. destruct (root (fs w)); simpl in E.
    + destruct (top (fs w) !! ".sync.log") as [[[t|]|]|];
        injection E as <- E; intros [= _ <-]; rewrite <- E; reflexivity.
    + injection E as <- E. intros [= _ <-]. rewrite <- E. reflexivity.
Qed.

End BackupSteps.

Section BackupFacts.
Variable env : Env.
Variable self : AgentSync.


Lemma startswith_backup timestamp :
  Py.startswith "backup_" ("backup_" +:+ timestamp) = true.
Proof. unfold Py.startswith. destruct timestamp; reflexivity. Qed.





End BackupFacts.


(** Six backups in a row, one second apart: the first snapshot is gone. *)
Example six_backups :
  let r := backups_run (Scenario.dirty "") Scenario.me 6 Runs.tidy in
  head (created (returned r)) = Some "backup_20240517_090001" /\
  length (created (returned r)) = 6 /\
  ("backup_20240517_090001" ∉ snapshots (fs (snd r))) /\
  snapshots (fs (snd r)) = drop 1 (created (returned r)).
Proof.
  simpl. split; [vm_compute; reflexivity |]. split; [vm_compute; reflexivity |].
  split; [| vm_compute; reflexivity].
  intros H. apply list_elem_of_In in H. vm_compute in H. intuition discriminate.
Qed.

(** ** When [sync] raises *)

Section SyncExceptions.
Variable env : Env.
Variable self : AgentSync.

Lemma try_except_returns {A} (m : M A) (h : exn -> M A) w :
  (forall e w1, exists a, fst (h e w1) = Ok a) ->
  exists a, fst (try_except m h w) = Ok a.
Proof.
  intros Hh. unfold try_except. destruct (m w) as [[a|e] w1]; [exists a; reflexivity | apply Hh].
Qed.

Lemma sync_guarded_returns force w :
  exists v, fst (sync_guarded env self force w) = Ok v.
Proof.
  unfold sync_guarded. apply try_except_returns. intros e w1. eexists. reflexivity.
Qed.

(** What [sync] raises was raised by lines 121 to 123: the [try] block
    lets nothing out. *)
Lemma sync_exception_init force w e :
  fst (sync env self force w) = Exc e <-> fst (ensure_initialized env self w) = Exc e.
Proof.
  unfold sync, bind. destruct (ensure_initialized env self w) as [[ok|e'] w1]; simpl.
  - destruct ok; simpl.
    + destruct (sync_guarded_returns force w1) as [v ->]. split; discriminate.
    + split; discriminate.
  - split; intros [= ->]; reflexivity.
Qed.

(** X1. An exception leaves [sync] only from lines 121 to 123, ahead of
    its [try] block: when [sync] raises, what it raises was raised by the
    test for [.git] or by [initialize], and [sync] has run no command,
    entered no backup and opened no file. *)
Theorem sync_raises_before_try force w e :
  fst (sync env self force w) = Exc e ->
  fst (ensure_initialized env self w) = Exc e /\
  emitted (sync env self force) w = [].
Proof.
  intros H. split; [apply (sync_exception_init force); exact H |].
  destruct (sync_trace env self force w) as [_ S]. rewrite H in S.
  assert (Hc : forall r, caught r <> Exc e) by (intros [v|e']; discriminate).
  remember (Exc e) as r eqn:Hr.
  destruct S as [l Hl | l e' Hl | l g r Hl Hg]; try discriminate.
  - inversion Hl. reflexivity.
  - exfalso. destruct Hg; try discriminate; eapply Hc; eauto.
Qed.

End SyncExceptions.

Lemma sync_raises_before_try_witness :
  fst (ensure_initialized Runs.no_permission Scenario.me Scenario.nothing)
  = Exc PermissionError /\
  emitted (sync Runs.no_permission Scenario.me true) Scenario.nothing = [].
Proof.
  apply (sync_raises_before_try Runs.no_permission Scenario.me true Scenario.nothing
           PermissionError).
  reflexivity.
Defined.

(** ** What [sync] runs, and what its result says *)

Section SyncMore.
Variable env : Env.
Variable self : AgentSync.

Lemma attempts_sync_events force l r :
  attempts self (Git.pull "main") (Git.pull "master") l r -> Forall (sync_event self force) l.
Proof. destruct 1; repeat apply List.Forall_cons; try apply List.Forall_nil; constructor. Qed.

Lemma pull_shape_sync_events force l r :
  pull_shape self l r -> Forall (sync_event self force) l.
Proof.
  destruct 1;
    repeat first [apply List.Forall_cons | apply Forall_app; split | apply List.Forall_nil];
    try (eapply attempts_sync_events; eassumption); constructor.
Qed.

Lemma opens_sync_events force l :
  Forall is_log_append l -> Forall (sync_event self force) l.
Proof. intros H. eapply Forall_impl; [exact H |]. intros ev ->. constructor. Qed.

Lemma init_sync_events force l :
  Forall (is_init_event self) l -> Forall (sync_event self force) l.
Proof. intros H. eapply Forall_impl; [exact H |]. intros ev [[r ->] | ->]; constructor. Qed.

Lemma sync_shape_events force l r :
  sync_shape self force l r -> Forall (sync_event self force) l.
Proof.
  destruct 1 as [l Hl | l e Hl | l g r Hl Hg];
    try (eapply init_sync_events, init_events; eassumption).
  apply Forall_app. split; [eapply init_sync_events, init_events; eassumption |].
  destruct Hg as [e | c Hc Hf | c l' r' Hc Hp | c opens m e Hc Hf Ho | c opens m cs l' r' Hc Hf Ho Hp].
  - repeat constructor.
  - repeat constructor.
  - apply List.Forall_cons; [constructor | eapply pull_shape_sync_events; eassumption].
  - apply List.Forall_cons; [constructor |].
    apply List.Forall_cons; [apply sync_backs_up; exact Hf |].
    apply Forall_app. split; [apply opens_sync_events; exact Ho |].
    apply List.Forall_cons; [apply sync_stashes; exact Hf | apply List.Forall_nil].
  - apply List.Forall_cons; [constructor |].
    apply List.Forall_cons; [apply sync_backs_up; exact Hf |].
    apply Forall_app. split; [apply opens_sync_events; exact Ho |].
    apply List.Forall_cons; [apply sync_stashes; exact Hf |].
    eapply pull_shape_sync_events; eassumption.
Qed.

(** X2. Everything [sync] adds to the trace is a clone, a status query, a
    listing of the tracked files, a pull of [main] or [master], an entry
    in the log, or, with [force] only, an entry into [backup] and a stash:
    it never fetches, counts, commits or reads a file, and without [force]
    it never stashes and never makes a backup. *)
Theorem sync_events force w :
  Forall (sync_event self force) (emitted (sync env self force) w).
Proof.
  destruct (sync_trace env self force w) as [_ S].
  eapply sync_shape_events. exact S.
Qed.

Lemma pulled_after pre l :
  List.filter is_pull pre = [] -> pulled self l -> pulled self (pre ++ l).
Proof.
  intros Hpre (branch & c & Hb & Hc & Hlast & Hlog).
  exists branch, c. split; [exact Hb |]. split; [exact Hc |].
  rewrite List.filter_app, Hpre. simpl. split; [exact Hlast |].
  rewrite last_app, Hlog. reflexivity.
Qed.

Lemma attempts_last l c :
  attempts self (Git.pull "main") (Git.pull "master") l (Ok c) ->
  exists branch, (branch = "main" \/ branch = "master") /\
                 last l = Some (ran self (Git.pull branch) (Ok c)).
Proof.
  inversion 1; subst; [exists "main" | exists "master"]; split; auto.
Qed.

Lemma pull_shape_result l ok changed :
  pull_shape self l (Ok (ok, changed)) ->
  (ok = true -> pulled self l) /\ (ok = false -> changed = []).
Proof.
  inversion 1 as [| | before pulls c Ha Hc | | before pulls c after changed' Ha Hc Hperm]; subst.
  - split; [discriminate | reflexivity].
  - split; [| discriminate]. intros _.
    destruct (attempts_last _ _ Ha) as (branch & Hb & Hlast).
    exists branch, c. split; [exact Hb |]. split; [exact Hc |]. split.
    + simpl. rewrite List.filter_app. simpl. rewrite app_nil_r.
      rewrite (attempts_pulls _ _ _ _ _ Ha). exact Hlast.
    + rewrite app_comm_cons, last_app. reflexivity.
Qed.

Lemma caught_result l r ok changed :
  pull_shape self l r -> caught r = Ok (ok, changed) ->
  (ok = true -> pulled self l) /\ (ok = false -> changed = []).
Proof.
  intros Hp. destruct r as [[ok' changed']|e]; simpl.
  - intros [= -> ->]. eapply pull_shape_result. exact Hp.
  - intros [= <- <-]. split; [discriminate | reflexivity].
Qed.

Lemma sync_shape_result force l ok changed :
  sync_shape self force l (Ok (ok, changed)) ->
  (ok = true -> pulled self l) /\ (ok = false -> changed = []).
Proof.
  intros S. remember (Ok (ok, changed)) as r eqn:Hr.
  destruct S as [l Hl | l e Hl | l g r Hl Hg]; try discriminate.
  - injection Hr as <- <-. split; [discriminate | reflexivity].
  - apply init_events, init_no_pull in Hl.
    destruct Hg as [e | c Hc Hf | c l' r' Hc Hp | c opens m e Hc Hf Ho | c opens m cs l' r' Hc Hf Ho Hp].
    + injection Hr as <- <-. split; [discriminate | reflexivity].
    + injection Hr as <- <-. split; [discriminate | reflexivity].
    + destruct (caught_result _ _ _ _ Hp Hr) as [Ht Hf].
      split; [| exact Hf]. intros E. apply pulled_after; [exact Hl |].
      apply (pulled_after [ran self Git.status (Ok c)]); [reflexivity | auto].
    + injection Hr as <- <-. split; [discriminate | reflexivity].
    + destruct (caught_result _ _ _ _ Hp Hr) as [Ht Hf'].
      split; [| exact Hf']. intros E. apply pulled_after; [exact Hl |].
      apply (pulled_after (ran self Git.status (Ok c) :: EvBackup :: opens
                             ++ [ran self (Git.stash m) (Ok cs)])) in Ht; [| | exact E].
      * rewrite <- !app_comm_cons, <- app_assoc in Ht. exact Ht.
      * simpl. rewrite List.filter_app, (opens_no_pull _ Ho). reflexivity.
Qed.

(** X3. What the result of [sync] says.  Success is reported only when
    the last pull run, on [main] or on [master], exited with status zero,
    and the entry in the log is then the last thing done.  A failure
    never comes with changed files. *)
Theorem sync_result force w ok changed :
  fst (sync env self force w) = Ok (ok, changed) ->
  (ok = true -> pulled self (emitted (sync env self force) w)) /\
  (ok = false -> changed = []).
Proof.
  intros H. destruct (sync_trace env self force w) as [_ S]. rewrite H in S.
  eapply sync_shape_result. exact S.
Qed.

End SyncMore.

Lemma sync_result_witness :
  fst (sync (Runs.repo "" 0 0 0) Scenario.me false Runs.tidy) = Ok (true, ["c.md"; "a.md"]) /\
  pulled Scenario.me (emitted (sync (Runs.repo "" 0 0 0) Scenario.me false) Runs.tidy).
Proof.
  assert (Hrun : fst (sync (Runs.repo "" 0 0 0) Scenario.me false Runs.tidy)
                 = Ok (true, ["c.md"; "a.md"])) by (vm_compute; reflexivity).
  split; [exact Hrun |].
  apply (proj1 (sync_result _ _ _ _ _ _ Hrun)). reflexivity.
Defined.

(** ** [force] on a clean working tree *)

Section SyncForce.
Variable env : Env.
Variable self : AgentSync.

(** X4. [force] matters only when the status query reports changes: if
    every status query of [sync(force=False)] that returns prints nothing
    but white space, [sync(force=True)] does the same and returns the
    same, with no backup and no stash. *)
Theorem sync_force_irrelevant_when_clean w :
  (forall cwd c,
     EvRun ("git" :: Git.status) cwd (Ok c) ∈ emitted (sync env self false) w ->
     Py.truthy (Py.strip (stdout c)) = false) ->
  sync env self true w = sync env self false w.
Proof.
  intros Hclean. revert Hclean. unfold emitted, sync, bind.
  destruct (ensure_initialized env self w) as [[ok|e] w1] eqn:Hinit; [| reflexivity].
  destruct ok; simpl; [| reflexivity].
  apply init_shape_of in Hinit as (l & T1 & _).
  unfold sync_guarded, try_except, bind, git.
  destruct (run env ("git" :: ["status"; "--porcelain"]) (Some (agents_dir self)) w1)
    as [[c|e] w2] eqn:Hrun; [| reflexivity].
  apply run_inv in Hrun.
  destruct (Py.truthy (Py.strip (stdout c))) eqn:Hdirty; [| reflexivity].
  simpl. intros Hclean. exfalso.
  specialize (Hclean (Some (agents_dir self)) c).
  rewrite Hrun, T1, <- app_assoc, drop_app_length in Hclean.
  rewrite Hclean in Hdirty; [discriminate |].
  apply elem_of_app. right. apply list_elem_of_singleton. reflexivity.
Qed.

End SyncForce.

Lemma sync_force_irrelevant_when_clean_witness :
  sync (Runs.repo "" 0 0 0) Scenario.me true Runs.tidy
  = sync (Runs.repo "" 0 0 0) Scenario.me false Runs.tidy.
Proof.
  apply (sync_force_irrelevant_when_clean (Runs.repo "" 0 0 0) Scenario.me Runs.tidy).
  intros cwd c Hin. apply list_elem_of_In in Hin. vm_compute in Hin.
  repeat (destruct Hin as [Hin | Hin]; [try discriminate Hin; injection Hin as _ <-; reflexivity |]).
  contradiction.
Defined.

(** ** The outcomes of [initialize] *)

Section InitializeFacts.
Variable env : Env.
Variable self : AgentSync.

(** The clone of lines 52 to 67, with the entry in the log that follows a
    successful one. *)
Lemma clone_block w :
  let m := try_except
             (let* result := run env ["git"; "clone"; repo_url self; agents_dir self] None in
              if (returncode result =? 0)%Z
              then _log env "Repository cloned successfully" ;; ret true
              else ret false)
             (fun _ => ret false) in
  exists rc,
    fst (m w) = Ok (clone_ok rc) /\
    trace (snd (m w)) = trace w ++ cloning self rc :: (if clone_ok rc then [log_append] else []).
Proof.
  simpl. unfold try_except, bind.
  destruct (run env ["git"; "clone"; repo_url self; agents_dir self] None w)
    as [[c|e] w1] eqn:Hrun; apply run_inv in Hrun.
  - exists (Ok c). simpl. destruct (returncode c =? 0)%Z.
    + destruct (log_spec env "Repository cloned successfully" w1) as (w2 & E & T).
      rewrite E. simpl. split; [reflexivity |]. rewrite T, Hrun, <- app_assoc. reflexivity.
    + simpl. split; [reflexivity | exact Hrun].
  - exists (Exc e). simpl. split; [reflexivity | exact Hrun].
Qed.

(** X5. [initialize] without a repository URL fails and touches nothing;
    with a URL, on a directory that holds [.git], it succeeds and touches
    nothing, whatever the URL.  Otherwise, when it returns, it has run
    exactly one clone, of the URL into the agents directory, and its
    answer is whether that clone exited with status zero (a clone that
    could not be started counts as failed); the entry in the log follows
    a successful clone and nothing follows a failed one. *)
Theorem initialize_outcome w :
  (Py.truthy (repo_url self) = false -> initialize env self w = (Ok false, w)) /\
  (Py.truthy (repo_url self) = true -> has_entry (fs w) ".git" = true ->
   initialize env self w = (Ok true, w)) /\
  (Py.truthy (repo_url self) = true -> has_entry (fs w) ".git" = false ->
   forall b, fst (initialize env self w) = Ok b ->
   exists rc,
     b = clone_ok rc /\
     emitted (initialize env self) w
     = cloning self rc :: (if clone_ok rc then [log_append] else [])).
Proof.
  split; [| split].
  - intros Hurl. unfold initialize. rewrite Hurl. reflexivity.
  - intros Hurl Hgit. unfold initialize. rewrite Hurl. simpl.
    unfold bind, root_exists, is_initialized, path_exists.
    assert (Hroot : root (fs w) = true).
    { unfold has_entry in Hgit. apply andb_prop in Hgit. apply Hgit. }
    rewrite Hroot. simpl. rewrite Hgit. reflexivity.
  - intros Hurl Hgit b. unfold emitted, initialize. rewrite Hurl. simpl.
    set (m := try_except _ _).
    assert (Hm : forall w1, trace w1 = trace w ->
              fst (m w1) = Ok b ->
              exists rc, b = clone_ok rc /\
                drop (length (trace w)) (trace (snd (m w1)))
                = cloning self rc :: (if clone_ok rc then [log_append] else [])).
    { intros w1 Hw1. destruct (clone_block w1) as (rc & E & T).
      change (fst (m w1) = Ok (clone_ok rc)) in E.
      change (trace (snd (m w1))
              = trace w1 ++ cloning self rc :: (if clone_ok rc then [log_append] else [])) in T.
      rewrite E, T, Hw1. intros [= <-]. exists rc. split; [reflexivity |].
      apply drop_app_length. }
    unfold bind, root_exists, is_initialized, path_exists.
    destruct (root (fs w)) eqn:Hroot; simpl.
    + rewrite Hgit. simpl. apply Hm. reflexivity.
    + unfold mkdir_root, fs_call. destruct (os_fault env OpMkdirRoot w); [discriminate |].
      rewrite Hroot. simpl. apply Hm. reflexivity.
Qed.

End InitializeFacts.

Lemma initialize_outcome_witness :
  exists rc,
    true = clone_ok rc /\
    emitted (initialize (Runs.repo "" 0 0 0) Scenario.me) Scenario.nothing
    = cloning Scenario.me rc :: (if clone_ok rc then [log_append] else []).
Proof.
  apply (proj2 (proj2 (initialize_outcome (Runs.repo "" 0 0 0) Scenario.me Scenario.nothing)));
    reflexivity.
Defined.

(** ** What computations leave alone *)

Section Keeps.
Context (R : FS -> FS -> Prop) `{!PreOrder R}.

Lemma keeps_ret {A} (a : A) : keeps R (ret a).
Proof. intros w r w' [= <- <-]. reflexivity. Qed.

Lemma keeps_raise {A} e : keeps R (@raise A e).
Proof. intros w r w' [= <- <-]. reflexivity. Qed.

(** [m] then [k], where [k] is only run on the values [m] can return. *)
Lemma keeps_bind_on {A B} (Q : A -> Prop) (m : M A) (k : A -> M B) :
  keeps R m -> (forall w a w', m w = (Ok a, w') -> Q a) ->
  (forall a, Q a -> keeps R (k a)) -> keeps R (bind m k).
Proof.
  intros Hm HQ Hk w r w' H. apply bind_inv in H as [(a & w1 & H1 & H2) | (e & H1 & ->)].
  - transitivity (fs w1); [exact (Hm _ _ _ H1) |].
    exact (Hk a (HQ _ _ _ H1) _ _ _ H2).
  - exact (Hm _ _ _ H1).
Qed.

Lemma keeps_bind {A B} (m : M A) (k : A -> M B) :
  keeps R m -> (forall a, keeps R (k a)) -> keeps R (bind m k).
Proof. intros Hm Hk. apply (keeps_bind_on (fun _ => True)); auto. Qed.

Lemma keeps_try_except {A} (m : M A) h :
  keeps R m -> (forall e, keeps R (h e)) -> keeps R (try_except m h).
Proof.
  intros Hm Hh w r w' H.
  apply try_except_inv in H as [(a & H1 & ->) | (e & w1 & H1 & H2)].
  - exact (Hm _ _ _ H1).
  - transitivity (fs w1); [exact (Hm _ _ _ H1) | exact (Hh _ _ _ _ H2)].
Qed.

Lemma keeps_for_each {A} (l : list A) body :
  (forall x, x ∈ l -> keeps R (body x)) -> keeps R (for_each l body).
Proof.
  induction l as [| x l IH]; simpl; intros Hb.
  - apply keeps_ret.
  - apply keeps_bind; [apply Hb; left |]. intros _. apply IH.
    intros y Hy. apply Hb. right. exact Hy.
Qed.

Lemma keeps_same {A} (m : M A) :
  (forall w, fs (snd (m w)) = fs w) -> keeps R m.
Proof. intros H w r w' E. specialize (H w). rewrite E in H. simpl in H. rewrite H. reflexivity. Qed.

Lemma keeps_now env : keeps R (now env).
Proof. apply keeps_same. reflexivity. Qed.

Lemma keeps_stat env name : keeps R (stat env name).
Proof. apply keeps_same. reflexivity. Qed.

Lemma keeps_list_of_set env s : keeps R (list_of_set env s).
Proof. apply keeps_same. reflexivity. Qed.

Lemma keeps_glob_md : keeps R glob_md.
Proof. apply keeps_same. reflexivity. Qed.

Lemma keeps_glob_backups : keeps R glob_backups.
Proof. apply keeps_same. reflexivity. Qed.

Lemma keeps_path_exists name : keeps R (path_exists name).
Proof. apply keeps_same. reflexivity. Qed.

Lemma keeps_root_exists : keeps R root_exists.
Proof. apply keeps_same. reflexivity. Qed.

Lemma keeps_fs_call {A} env op (act : FS -> Res A * FS) :
  (forall f, R f (snd (act f))) -> keeps R (fs_call env op act).
Proof.
  intros Hact w r w'. unfold fs_call. destruct (os_fault env op w).
  - intros [= <- <-]. reflexivity.
  - specialize (Hact (fs w)). destruct (act (fs w)) as [r0 f]. intros [= <- <-]. exact Hact.
Qed.

Lemma keeps_recorded {A} (m : M A) ev :
  keeps R m -> keeps R (fun w => m (record ev w)).
Proof. intros Hm w r w' H. exact (Hm _ _ _ H). Qed.

Lemma keeps_read_file env name : keeps R (read_file env name).
Proof.
  unfold read_file. apply keeps_recorded, keeps_fs_call. intros f.
  destruct (root f); simpl; [| reflexivity].
  destruct (top f !! name) as [[[t|]|]|]; reflexivity.
Qed.

Lemma keeps_run env argv cwd : git_idle env -> keeps R (run env argv cwd).
Proof.
  intros Hidle w r w'. unfold run. specialize (Hidle argv cwd w).
  destruct (subprocess_run env argv cwd w) as [r0 f]. simpl in Hidle. subst f.
  intros [= <- <-]. reflexivity.
Qed.

End Keeps.

Lemma emits_emitted {A} (P : Event -> Prop) (m : M A) w :
  emits P m -> Forall P (emitted m w).
Proof.
  intros H. destruct (m w) as [r w'] eqn:E. destruct (H _ _ _ E) as (l & T & F).
  rewrite (emitted_eq m w l); [exact F |]. rewrite E. exact T.
Qed.

(** ** Reading one prompt, listing all of them *)

Section Listing.
Variable env : Env.
Variable self : AgentSync.

Lemma read_file_inv name w r w' :
  read_file env name w = (r, w') ->
  trace w' = trace w ++ [opened_for_reading name] /\ fs w' = fs w /\
  (forall text, r = Ok text ->
     exists content,
       top (fs w) !! name = Some (File (Some content)) /\
       text = Py.universal_newlines content).
Proof.
  unfold read_file. intros H.
  match type of H with
  | fs_call env ?op ?act ?w0 = _ =>
      pose proof (fs_call_trace env op act w0) as T; rewrite H in T;
      apply fs_call_inv in H as [(e & _ & -> & F) | [_ H]]
  end; simpl in *.
  - split; [exact T | split; [exact F | discriminate]].
  - destruct (root (fs w)); simpl in H.
    + destruct (top (fs w) !! name) as [[[t|]|]|]; injection H as <- <-;
        (split; [exact T | split; [reflexivity |]]); try discriminate.
      intros text [= <-]. exists t. split; reflexivity.
    + injection H as <- <-. split; [exact T | split; [reflexivity | discriminate]].
Qed.

(** X6. [get_agent] changes no file and runs no command: it opens at
    most one file, for reading, [name.md] or [name].  A text it returns
    is the text that the read of the one file it opened returned. *)
Theorem get_agent_harmless name w :
  fs (snd (get_agent env name w)) = fs w /\
  (emitted (get_agent env name) w = [] \/
   emitted (get_agent env name) w = [opened_for_reading (name +:+ ".md")] \/
   emitted (get_agent env name) w = [opened_for_reading name]) /\
  (forall text, fst (get_agent env name w) = Ok (Some text) ->
     exists f,
       emitted (get_agent env name) w = [opened_for_reading f] /\
       fst (read_file env f w) = Ok text).
Proof.
  assert (Hread : forall f,
            let m := try_except (let* text := read_file env f in ret (Some text))
                                (fun _ => ret None) in
            fs (snd (m w)) = fs w /\
            drop (length (trace w)) (trace (snd (m w))) = [opened_for_reading f] /\
            (forall text, fst (m w) = Ok (Some text) -> fst (read_file env f w) = Ok text)).
  { intros f. simpl. unfold try_except, bind, ret.
    destruct (read_file env f w) as [[t|e] w1] eqn:E; apply read_file_inv in E as (T & F & _);
      simpl; rewrite T, drop_app_length; (split; [exact F | split; [reflexivity |]]).
    - intros text [= <-]. reflexivity.
    - discriminate. }
  unfold emitted, get_agent, bind, path_exists. simpl.
  destruct (has_entry (fs w) (name +:+ ".md")) eqn:E1; simpl.
  - rewrite E1. destruct (Hread (name +:+ ".md")) as (F & T & R).
    split; [exact F | split; [right; left; exact T |]]. eauto.
  - destruct (has_entry (fs w) name) eqn:E2; simpl.
    + destruct (Hread name) as (F & T & R).
      split; [exact F | split; [right; right; exact T |]]. eauto.
    + rewrite drop_all. split; [reflexivity | split; [left; reflexivity | discriminate]].
Qed.

Lemma describe_agent_inv agent_file w r w' :
  describe_agent env self agent_file w = (r, w') ->
  exists o, r = Ok o /\
    trace w' = trace w ++ [opened_for_reading agent_file] /\ fs w' = fs w /\
    (forall info, o = Some info -> listed self (fs w) agent_file info).
Proof.
  unfold describe_agent. intros H.
  assert (Hbody : forall r1 w1,
    (let* text := read_file env agent_file in
     match role_of_text text with
     | Exc e => raise e
     | Ok role =>
         let* st1 := stat env agent_file in
         let* st2 := stat env agent_file in
         ret (Some {| ai_name := stem agent_file; ai_file := str_path self [agent_file];
                      ai_size := fst st1; ai_modified := snd st2;
                      ai_role := role_or_default role |})
     end) w = (r1, w1) ->
    trace w1 = trace w ++ [opened_for_reading agent_file] /\ fs w1 = fs w /\
    (forall info, r1 = Ok (Some info) -> listed self (fs w) agent_file info)).
  { intros r1 w1 Hb.
    apply bind_inv in Hb as [(text & w2 & H1 & Hb) | (e & H1 & ->)];
      apply read_file_inv in H1 as (T & F & Htext).
    2: { split; [exact T | split; [exact F | discriminate]]. }
    destruct (Htext text eq_refl) as (content & Hcontent & ->).
    destruct (role_of_text (Py.universal_newlines content)) as [role|e] eqn:Hrole.
    2: { injection Hb as <- <-. split; [exact T | split; [exact F | discriminate]]. }
    unfold bind, stat in Hb. simpl in Hb.
    destruct (os_stat env agent_file w2) as [st1|e1].
    2: { injection Hb as <- <-. split; [exact T | split; [exact F | discriminate]]. }
    destruct (os_stat env agent_file (asked w2)) as [st2|e2]; injection Hb as <- <-;
      (split; [exact T | split; [exact F |]]); [| discriminate].
    intros info [= <-]. split; [reflexivity | split; [reflexivity |]].
    exists content, role. auto. }
  apply try_except_inv in H as [(o & H & ->) | (e & w1 & H & [= <- <-])];
    apply Hbody in H as (T & F & L).
  - exists o. split; [reflexivity | split; [exact T | split; [exact F |]]].
    intros info ->. apply L. reflexivity.
  - exists None. split; [reflexivity | split; [exact T | split; [exact F | discriminate]]].
Qed.

Lemma list_agents_loop_inv files w r w' :
  list_agents_loop env self files w = (r, w') ->
  exists agents kept,
    r = Ok agents /\ fs w' = fs w /\
    trace w' = trace w ++ map opened_for_reading files /\
    sublist kept files /\ Forall2 (listed self (fs w)) kept agents.
Proof.
  revert w r w'. induction files as [| f files IH]; simpl; intros w r w' H.
  - injection H as <- <-. exists [], []. rewrite app_nil_r. repeat split; constructor.
  - apply bind_inv in H as [(o & w1 & H1 & H) | (e & H1 & _)];
      apply describe_agent_inv in H1 as (o' & Ho & T1 & F1 & L1); [| discriminate].
    injection Ho as ->.
    apply bind_inv in H as [(agents & w2 & H2 & H) | (e & H2 & _)];
      apply IH in H2 as (agents' & kept & Ha & F2 & T2 & Hsub & Hall); [| discriminate].
    injection Ha as ->. injection H as <- <-. rewrite F1 in Hall, F2.
    destruct o' as [info|].
    + exists (info :: agents'), (f :: kept). repeat split; auto.
      * rewrite T2, T1, <- app_assoc. reflexivity.
      * apply sublist_skip. exact Hsub.
    + exists agents', kept. repeat split; auto.
      * rewrite T2, T1, <- app_assoc. reflexivity.
      * apply sublist_cons. exact Hsub.
Qed.

(** X7. [list_agents] changes no file and runs no command: all it does
    is open, for reading and in the order of the names, direct children
    of the agents directory that match [*.md].  The entries it returns,
    when it returns, follow that order: there is one for each file of a
    sublist of the sorted names, with the stem as name, the path as file
    and a role read from the text found there. *)
Theorem list_agents_sorted_entries w :
  fs (snd (list_agents env self w)) = fs w /\
  (exists opened,
     emitted (list_agents env self) w = map opened_for_reading opened /\
     sublist opened (sorted (md_names (fs w)))) /\
  (forall agents, fst (list_agents env self w) = Ok agents ->
     exists kept,
       sublist kept (sorted (md_names (fs w))) /\
       Forall2 (listed self (fs w)) kept agents).
Proof.
  unfold emitted, list_agents, bind, glob_md. fold (md_names (fs w)).
  destruct (list_agents_loop env self (sorted (md_names (fs w))) w) as [r w'] eqn:E.
  apply list_agents_loop_inv in E as (agents & kept & -> & F & T & Hsub & Hall).
  simpl. rewrite T, drop_app_length. split; [exact F | split].
  - exists (sorted (md_names (fs w))). split; reflexivity.
  - intros agents' [= <-]. exists kept. split; assumption.
Qed.

End Listing.

(** ** The role is always there, and short *)

Lemma length_append a b :
  String.length (a +:+ b) = String.length a + String.length b.
Proof. induction a as [| c a IH]; simpl; [reflexivity | rewrite IH; reflexivity]. Qed.

Lemma length_substring_0 n s :
  String.length (String.substring 0 n s) = Nat.min n (String.length s).
Proof.
  revert s. induction n as [| n IH]; intros [| c s]; simpl; try reflexivity.
  rewrite IH. reflexivity.
Qed.

Lemma substring_all s : String.substring 0 (String.length s) s = s.
Proof. induction s as [| c s IH]; simpl; [reflexivity | rewrite IH; reflexivity]. Qed.

Lemma substring_split n s :
  n <= String.length s ->
  String.substring 0 n s +:+ String.substring n (String.length s - n) s = s.
Proof.
  revert n. induction s as [| c s IH]; intros [| n] Hn; simpl in *; try lia.
  - reflexivity.
  - rewrite substring_all. reflexivity.
  - change (String c (String.substring 0 n s +:+ String.substring n (String.length s - n) s)
            = String c s).
    rewrite IH by lia. reflexivity.
Qed.

Lemma index_is_Some x l : x ∈ l -> is_Some (Py.index x l).
Proof.
  induction l as [| y l IH]; intros Hin; [apply elem_of_nil in Hin; contradiction |].
  simpl. destruct (String.eqb_spec y x) as [-> | Hne]; [eauto |].
  apply elem_of_cons in Hin as [-> | Hin]; [contradiction |].
  destruct (IH Hin) as [i ->]. simpl. eauto.
Qed.

Lemma next_role_some ls r :
  next_role ls = Some r -> exists l, summary_line l = true /\ r = shorten (Py.strip l).
Proof.
  induction ls as [| l ls IH]; simpl; [discriminate |].
  destruct (Py.truthy (Py.strip l) && negb (Py.startswith "#" (Py.strip l))) eqn:E.
  - intros [= <-]. exists l. split; [exact E | reflexivity].
  - exact IH.
Qed.

(** [lines.index(line)] finds every line the loop visits. *)
Lemma find_role_returns lines rest :
  (forall x, x ∈ rest -> x ∈ lines) ->
  exists role, find_role lines rest = Ok role /\
    forall r, role = Some r -> exists l, summary_line l = true /\ r = shorten (Py.strip l).
Proof.
  induction rest as [| line rest IH]; simpl; intros Hin.
  - exists None. split; [reflexivity | discriminate].
  - destruct (Py.startswith "## Role" (Py.strip line)).
    + destruct (index_is_Some line lines) as [i ->]; [apply Hin; left |].
      eexists. split; [reflexivity |]. intros r. apply next_role_some.
    + apply IH. intros x Hx. apply Hin. right. exact Hx.
Qed.

(** Whether a text starts with a given character depends on its first
    character only. *)
Lemma startswith_cons p c s t :
  Py.startswith (String p "") (String c s) = Py.startswith (String p "") (String c t).
Proof.
  unfold Py.startswith. cbn [String.prefix].
  destruct (ascii_dec p c); [| reflexivity]. destruct s, t; reflexivity.
Qed.

Lemma shorten_bounds s :
  Py.truthy s = true -> Py.startswith "#" s = false ->
  shorten s <> "" /\ String.length (shorten s) <= 103 /\ Py.startswith "#" (shorten s) = false.
Proof.
  intros Hs Hhash. unfold shorten.
  destruct (Nat.ltb_spec 100 (String.length s)) as [Hlen | Hlen].
  - destruct s as [| c s]; [discriminate |]. split; [discriminate |]. split.
    + unfold Py.take. rewrite length_append, length_substring_0.
      change (String.length "...") with 3. lia.
    + transitivity (Py.startswith "#" (String c s)); [| exact Hhash]. unfold Py.take.
      change (String.substring 0 100 (String c s) +:+ "...")
        with (String c (String.substring 0 99 s +:+ "...")).
      apply startswith_cons.
  - split; [destruct s; [discriminate | discriminate] |]. split; [lia | exact Hhash].
Qed.

(** X8. Reading the role of a text always returns: the look-up of the
    heading among the lines never fails.  The role an entry shows, the
    line found or the sentinel, is never empty, never longer than 103
    characters and never starts with [#]. *)
Theorem role_never_blank text :
  exists role,
    role_of_text text = Ok role /\
    role_or_default role <> "" /\
    String.length (role_or_default role) <= 103 /\
    Py.startswith "#" (role_or_default role) = false.
Proof.
  unfold role_of_text.
  destruct (find_role_returns (take 10 (Py.readlines text)) (take 10 (Py.readlines text)))
    as (role & E & Hrole); [auto |].
  exists role. split; [exact E |].
  destruct role as [r|]; simpl.
  - destruct (Hrole r eq_refl) as (l & Hl & ->). unfold summary_line in Hl.
    apply andb_prop in Hl as [Ht Hh]. apply negb_true_iff in Hh.
    rewrite truthy_shorten by exact Ht. apply shorten_bounds; assumption.
  - split; [discriminate |]. split; [simpl; lia | reflexivity].
Qed.

(** ** From the listing to the prompt *)

Lemma stem_md name :
  endswith ".md" name = true -> name <> ".md" -> stem name +:+ ".md" = name.
Proof.
  unfold endswith, stem. change (String.length ".md") with 3.
  intros H Hne. apply andb_prop in H as [Hlen Heq].
  apply Nat.leb_le in Hlen. apply String.eqb_eq in Heq.
  apply String.eqb_neq in Hne. rewrite Hne.
  pose proof (substring_split (String.length name - 3) name) as Hs.
  replace (String.length name - (String.length name - 3)) with 3 in Hs by lia.
  rewrite Heq in Hs. apply Hs. lia.
Qed.

Lemma elem_of_md_names f x :
  x ∈ md_names f -> endswith ".md" x = true /\ root f = true.
Proof.
  unfold md_names. destruct (root f); [| intros H; apply elem_of_nil in H; contradiction].
  rewrite list_elem_of_filter, Is_true_true. intros [H _].
  apply andb_prop in H. split; [apply H | reflexivity].
Qed.

Section ListThenGet.
Variable env : Env.
Variable self : AgentSync.

(** X9. What is listed can be retrieved.  When opening a file for reading
    does not fail for reasons outside the directory, every entry of
    [list_agents] whose name is not [.md] leads [get_agent], called with
    that name on the same files, to the text the entry was built from:
    the role of the entry is the role read from the text returned. *)
Theorem listed_agent_can_be_got w agents info :
  (forall name w0, os_fault env (OpOpen name "r") w0 = None) ->
  fst (list_agents env self w) = Ok agents ->
  info ∈ agents -> ai_name info <> ".md" ->
  exists text role,
    fst (get_agent env (ai_name info) w) = Ok (Some text) /\
    role_of_text text = Ok role /\ ai_role info = role_or_default role.
Proof.
  intros Hfault Hlist Hin Hname.
  unfold list_agents, bind, glob_md in Hlist. fold (md_names (fs w)) in Hlist.
  destruct (list_agents_loop env self (sorted (md_names (fs w))) w) as [r w'] eqn:E.
  apply list_agents_loop_inv in E as (agents' & kept & -> & _ & _ & Hsub & Hall).
  simpl in Hlist. injection Hlist as ->.
  apply list_elem_of_lookup in Hin as [i Hi].
  destruct (Forall2_lookup_r _ _ _ _ _ Hall Hi) as (f & Hf & Hstem & _ & text & role & Htext & Hrole & Hr).
  apply list_elem_of_lookup_2 in Hf.
  apply (elem_of_sublist _ _ _ Hf) in Hsub. rewrite sorted_perm in Hsub.
  apply elem_of_md_names in Hsub as [Hmd Hroot].
  assert (Hf' : stem f +:+ ".md" = f).
  { apply stem_md; [exact Hmd |]. intros ->. apply Hname. rewrite Hstem. reflexivity. }
  assert (Hex : has_entry (fs w) f = true).
  { unfold has_entry. rewrite Hroot, Htext. reflexivity. }
  exists (Py.universal_newlines text), role. split; [| auto].
  rewrite Hstem, get_agent_candidate. simpl. rewrite Hf', Hex, Hex.
  unfold read_file, fs_call. rewrite Hfault. simpl. rewrite Hroot, Htext. reflexivity.
Qed.

End ListThenGet.

Lemma listed_agent_can_be_got_witness :
  exists text role,
    fst (get_agent (Scenario.dirty "") (ai_name planner_info) planner_world) = Ok (Some text) /\
    role_of_text text = Ok role /\ ai_role planner_info = role_or_default role.
Proof.
  apply (listed_agent_can_be_got (Scenario.dirty "") Scenario.me planner_world [planner_info]).
  - reflexivity.
  - vm_compute. reflexivity.
  - constructor.
  - discriminate.
Defined.

(** ** The report of [get_status] *)

Lemma bind_ok {A B} (m : M A) (k : A -> M B) w a w1 :
  m w = (Ok a, w1) -> bind m k w = k a w1.
Proof. unfold bind. intros ->. reflexivity. Qed.

Lemma split_char_from_cons sep cur s : Py.split_char_from sep cur s <> [].
Proof.
  revert cur. induction s as [| c s IH]; intros cur; simpl; [discriminate |].
  destruct (Ascii.eqb c sep); [discriminate | apply IH].
Qed.

Section StatusReport.
Variable env : Env.
Variable self : AgentSync.

Lemma updates_shape_queries l b :
  updates_shape self l b -> Forall (query_event self) l.
Proof.
  destruct 1 as [| e | fetched l r Ha]; repeat constructor.
  destruct Ha; repeat constructor.
Qed.

Lemma status_not_in_updates l b cwd r :
  updates_shape self l b -> EvRun ("git" :: Git.status) cwd r ∉ l.
Proof.
  intros Hl Hin. destruct Hl as [| e | fetched l r' Ha].
  - apply elem_of_nil in Hin. exact Hin.
  - apply list_elem_of_singleton in Hin. discriminate.
  - apply elem_of_cons in Hin as [Hin | Hin]; [discriminate |].
    destruct Ha; repeat (apply elem_of_cons in Hin as [Hin | Hin]; [discriminate |]);
      apply elem_of_nil in Hin; exact Hin.
Qed.

(** Lines 314 to 322: the time of the last entry of the log, if any. *)
Lemma last_sync_block (has_log : bool) w :
  exists last_sync w1,
    (if has_log then
       try_except
         (let* text := read_file env ".sync.log" in ret (last_sync_of text))
         (fun _ => ret None)
     else ret None) w = (Ok last_sync, w1) /\
    fs w1 = fs w /\
    (trace w1 = trace w \/ trace w1 = trace w ++ [opened_for_reading ".sync.log"]).
Proof.
  destruct has_log; [| exists None, w; auto].
  unfold try_except, bind, ret.
  destruct (read_file env ".sync.log" w) as [[text|e] w1] eqn:E;
    apply read_file_inv in E as (T & F & _); eauto 6.
Qed.

(** Lines 328 to 338: the status query and what is made of its output. *)
Lemma local_changes_block w :
  exists r w1,
    run env ("git" :: Git.status) (Some (agents_dir self)) w = (r, w1) /\
    try_except
      (let* result := git env self ["status"; "--porcelain"] in
       if Py.truthy (stdout result)
       then ret (Py.split_char Py.LF (Py.strip (stdout result)))
       else ret [])
      (fun _ => ret []) w = (Ok (local_changes_of r), w1).
Proof.
  unfold try_except, bind, git, ret.
  change ("git" :: ["status"; "--porcelain"]) with ("git" :: Git.status).
  destruct (run env ("git" :: Git.status) (Some (agents_dir self)) w) as [[c|e] w1].
  - exists (Ok c), w1. split; [reflexivity |]. simpl.
    destruct (Py.truthy (stdout c)); reflexivity.
  - exists (Exc e), w1. split; reflexivity.
Qed.

(** [get_status] on a clone, step by step, from what was read in the log. *)
Lemma get_status_steps w last_sync w1 :
  has_entry (fs w) ".git" = true ->
  (if has_entry (fs w) ".sync.log" then
     try_except
       (let* text := read_file env ".sync.log" in ret (last_sync_of text))
       (fun _ => ret None)
   else ret None) w = (Ok last_sync, w1) ->
  exists b l w2 r w3,
    check_for_updates env self w1 = (Ok b, w2) /\
    trace w2 = trace w1 ++ l /\ updates_shape self l b /\
    run env ("git" :: Git.status) (Some (agents_dir self)) w2 = (r, w3) /\
    get_status env self w =
      (Ok {| st_initialized := true;
             st_agents_dir := agents_dir self;
             st_repo_url := repo_url self;
             st_last_sync := last_sync;
             st_total_agents := length (md_names (fs w));
             st_has_updates := b;
             st_local_changes := local_changes_of r |}, w3).
Proof.
  intros Hgit Hls.
  assert (H0 : is_initialized w = (Ok true, w)).
  { unfold is_initialized, path_exists. rewrite Hgit. reflexivity. }
  destruct (check_for_updates env self w1) as [rb w2] eqn:Hup.
  destruct (updates_shape_of _ _ _ _ _ Hup) as (b & l & -> & T2 & S2 & _).
  destruct (local_changes_block w2) as (r & w3 & Hrun & Hlc).
  exists b, l, w2, r, w3.
  split; [reflexivity |]. split; [exact T2 |]. split; [exact S2 |]. split; [exact Hrun |].
  unfold get_status.
  rewrite (bind_ok _ _ _ _ _ H0). cbv beta.
  rewrite (bind_ok _ _ _ _ _ H0). cbv beta iota.
  rewrite (bind_ok glob_md _ w (md_names (fs w)) w eq_refl). cbv beta.
  rewrite (bind_ok (path_exists ".sync.log") _ w (has_entry (fs w) ".sync.log") w eq_refl).
  cbv beta.
  rewrite (bind_ok _ _ _ _ _ Hls). cbv beta.
  rewrite (bind_ok _ _ _ _ _ Hup). cbv beta.
  rewrite (bind_ok _ _ _ _ _ Hlc). reflexivity.
Qed.

Lemma get_status_inv w :
  has_entry (fs w) ".git" = true ->
  exists last_sync w1 b l w2 r w3,
    fs w1 = fs w /\
    (trace w1 = trace w \/ trace w1 = trace w ++ [opened_for_reading ".sync.log"]) /\
    check_for_updates env self w1 = (Ok b, w2) /\
    trace w2 = trace w1 ++ l /\ updates_shape self l b /\
    run env ("git" :: Git.status) (Some (agents_dir self)) w2 = (r, w3) /\
    get_status env self w =
      (Ok {| st_initialized := true;
             st_agents_dir := agents_dir self;
             st_repo_url := repo_url self;
             st_last_sync := last_sync;
             st_total_agents := length (md_names (fs w));
             st_has_updates := b;
             st_local_changes := local_changes_of r |}, w3).
Proof.
  intros Hgit.
  destruct (last_sync_block (has_entry (fs w) ".sync.log") w) as (ls & w1 & Hls & F1 & T1).
  destruct (get_status_steps w ls w1 Hgit Hls) as (b & l & w2 & r & w3 & H).
  exists ls, w1, b, l, w2, r, w3. auto.
Qed.

End StatusReport.

(** One step through a computation whose primitives leave the files alone. *)
Ltac keeps_step :=
  match goal with
  | |- forall _, keeps _ _ => intro
  | |- keeps _ (bind _ _) => apply keeps_bind
  | |- keeps _ (try_except _ _) => apply keeps_try_except
  | |- keeps _ (ret _) => apply keeps_ret
  | |- keeps _ (raise _) => apply keeps_raise
  | |- keeps _ (now _) => apply keeps_now
  | |- keeps _ glob_md => apply keeps_glob_md
  | |- keeps _ glob_backups => apply keeps_glob_backups
  | |- keeps _ (path_exists _) => apply keeps_path_exists
  | |- keeps _ root_exists => apply keeps_root_exists
  | |- keeps _ (stat _ _) => apply keeps_stat
  | |- keeps _ (list_of_set _ _) => apply keeps_list_of_set
  | |- keeps _ (read_file _ _) => apply keeps_read_file
  | |- keeps _ (run _ _ _) => apply keeps_run
  | |- keeps _ (match ?x with _ => _ end) => destruct x
  | |- PreOrder _ => apply _
  | |- git_idle _ => assumption
  end.

Section StatusFacts2.
Variable env : Env.
Variable self : AgentSync.

Lemma check_for_updates_keeps : git_idle env -> keeps eq (check_for_updates env self).
Proof.
  intros Hidle. unfold check_for_updates, is_initialized, git.
  repeat keeps_step.
Qed.

(** X10. All [get_status] does is look: it opens nothing but files for
    reading, and runs nothing but a fetch, the counts of the commits ahead
    and the status query; when [git] leaves the files alone, so does
    [get_status].  The report it returns, when it returns one, names the
    directory and the repository of the object, says whether [.git] is
    there, counts no more prompts than the direct children that match
    [*.md], and is empty of everything else when [.git] is not there. *)
Theorem get_status_harmless w :
  Forall (query_event self) (emitted (get_status env self) w) /\
  (git_idle env -> fs (snd (get_status env self w)) = fs w) /\
  (forall st, fst (get_status env self w) = Ok st ->
     st_agents_dir st = agents_dir self /\
     st_repo_url st = repo_url self /\
     st_initialized st = has_entry (fs w) ".git" /\
     st_total_agents st <= length (md_names (fs w)) /\
     (st_initialized st = false ->
      st_last_sync st = None /\ st_total_agents st = 0 /\
      st_has_updates st = false /\ st_local_changes st = [])).
Proof.
  destruct (has_entry (fs w) ".git") eqn:Hgit.
  - destruct (get_status_inv env self w Hgit)
      as (ls & w1 & b & l & w2 & r & w3 & F1 & T1 & Hup & T2 & S2 & Hrun & E).
    unfold emitted. rewrite E. simpl. split; [| split].
    + pose proof (run_inv _ _ _ _ _ _ Hrun) as T3.
      apply updates_shape_queries in S2.
      assert (Hlast : query_event self (EvRun ("git" :: Git.status) (Some (agents_dir self)) r))
        by apply query_asks_status.
      destruct T1 as [T1 | T1]; rewrite T1 in T2; rewrite T2 in T3.
      * rewrite <- app_assoc in T3. rewrite T3, drop_app_length.
        apply Forall_app. split; [exact S2 | repeat constructor; exact Hlast].
      * rewrite <- !app_assoc in T3. rewrite T3, drop_app_length.
        apply List.Forall_cons; [apply query_reads |].
        apply Forall_app. split; [exact S2 | repeat constructor; exact Hlast].
    + intros Hidle. apply (check_for_updates_keeps Hidle) in Hup.
      apply (keeps_run eq) in Hrun; [| exact Hidle]. congruence.
    + intros st [= <-]. simpl.
      split; [reflexivity |]. split; [reflexivity |]. split; [reflexivity |].
      split; [apply Nat.le_refl | discriminate].
  - unfold emitted, get_status, bind, is_initialized, path_exists. rewrite Hgit. simpl.
    rewrite drop_all. split; [constructor | split; [reflexivity |]].
    intros st [= <-]. simpl.
    split; [reflexivity |]. split; [reflexivity |]. split; [reflexivity |].
    split; [apply Nat.le_0_l | auto].
Qed.

(** X11. The local changes [get_status] reports are made of the output of
    its status query: nothing when the query raised or printed nothing,
    else the output, stripped as a whole, cut at the line feeds.  An
    output that is not empty always gives at least one entry: an output of
    white space only is reported as one change, with an empty name. *)
Theorem get_status_local_changes w st cwd r :
  fst (get_status env self w) = Ok st ->
  EvRun ("git" :: Git.status) cwd r ∈ emitted (get_status env self) w ->
  st_local_changes st = local_changes_of r /\
  (forall c, r = Ok c -> Py.truthy (stdout c) = true -> st_local_changes st <> []) /\
  (forall c, r = Ok c -> Py.truthy (stdout c) = true -> Py.strip (stdout c) = "" ->
     st_local_changes st = [""]).
Proof.
  intros Hst Hin.
  assert (Hlc : st_local_changes st = local_changes_of r).
  { destruct (has_entry (fs w) ".git") eqn:Hgit.
    - destruct (get_status_inv env self w Hgit)
        as (ls & w1 & b & l & w2 & r' & w3 & F1 & T1 & Hup & T2 & S2 & Hrun & E).
      revert Hin. unfold emitted. rewrite E in *. simpl in *. injection Hst as <-. simpl.
      pose proof (run_inv _ _ _ _ _ _ Hrun) as T3.
      assert (Hl : EvRun ("git" :: Git.status) cwd r ∉ l)
        by (eapply status_not_in_updates; exact S2).
      destruct T1 as [T1 | T1]; rewrite T1 in T2; rewrite T2 in T3.
      + rewrite <- app_assoc in T3. rewrite T3, drop_app_length.
        intros Hin. apply elem_of_app in Hin as [Hin | Hin]; [contradiction |].
        apply list_elem_of_singleton in Hin. injection Hin as _ ->. reflexivity.
      + rewrite <- !app_assoc in T3. rewrite T3, drop_app_length.
        intros Hin. apply elem_of_cons in Hin as [Hin | Hin]; [discriminate |].
        apply elem_of_app in Hin as [Hin | Hin]; [contradiction |].
        apply list_elem_of_singleton in Hin. injection Hin as _ ->. reflexivity.
    - revert Hin. unfold emitted, get_status, bind, is_initialized, path_exists.
      rewrite Hgit. simpl. rewrite drop_all. intros Hin. apply elem_of_nil in Hin. contradiction. }
  split; [exact Hlc |]. rewrite Hlc. split.
  - intros c -> Hout. simpl. rewrite Hout. apply split_char_from_cons.
  - intros c -> Hout Hblank. simpl. rewrite Hout, Hblank. reflexivity.
Qed.

End StatusFacts2.

Lemma get_status_local_changes_witness :
  exists st,
    fst (get_status (Scenario.dirty Py.NL) Scenario.me Runs.tidy) = Ok st /\
    st_local_changes st = [""].
Proof.
  eexists. split; [vm_compute; reflexivity |].
  refine (proj2 (proj2 (get_status_local_changes (Scenario.dirty Py.NL) Scenario.me Runs.tidy _
                          (Some "/home/u/agents") (Ok (Scenario.exited 0 Py.NL)) _ _))
            (Scenario.exited 0 Py.NL) eq_refl eq_refl eq_refl).
  - vm_compute. reflexivity.
  - apply list_elem_of_In. vm_compute. right. right. left. reflexivity.
Defined.

(** ** Decimal numbers, as printed and as read *)

Lemma append_assoc (a b c : string) : (a +:+ b) +:+ c = a +:+ (b +:+ c).
Proof.
  induction a as [| x a IH]; [reflexivity |].
  change (String x ((a +:+ b) +:+ c) = String x (a +:+ (b +:+ c))). rewrite IH. reflexivity.
Qed.

Lemma append_nil_r (a : string) : a +:+ "" = a.
Proof.
  induction a as [| x a IH]; [reflexivity |].
  change (String x (a +:+ "") = String x a). rewrite IH. reflexivity.
Qed.

Lemma all_digits_append a b :
  all_digits a = true -> all_digits b = true -> all_digits (a +:+ b) = true.
Proof.
  intros Ha Hb. induction a as [| c a IH]; simpl in *; [exact Hb |].
  apply andb_prop in Ha as [Hc Ha]. rewrite Hc. simpl. auto.
Qed.

Lemma all_digits_uint d : all_digits (NilEmpty.string_of_uint d) = true.
Proof. induction d; simpl; auto. Qed.

Lemma to_little_uint_nonnil n acc :
  acc <> Decimal.Nil -> Nat.to_little_uint n acc <> Decimal.Nil.
Proof.
  revert acc. induction n as [| n IH]; simpl; intros acc Hacc; [exact Hacc |].
  apply IH. destruct acc; simpl; discriminate.
Qed.

Lemma to_uint_nonnil n : Nat.to_uint n <> Decimal.Nil.
Proof.
  unfold Nat.to_uint. intros H. apply DecimalFacts.rev_nil_inv in H.
  revert H. apply to_little_uint_nonnil. discriminate.
Qed.

(** [str(n)] is a digit followed by digits. *)
Lemma str_nat_digits n :
  all_digits (Py.str_nat n) = true /\ exists c r, Py.str_nat n = String c r.
Proof.
  unfold Py.str_nat. split; [apply all_digits_uint |].
  pose proof (to_uint_nonnil n) as H. destruct (Nat.to_uint n); simpl; eauto. contradiction.
Qed.

Lemma zfill_digits w s :
  all_digits s = true -> (exists c r, s = String c r) ->
  all_digits (Py.zfill w s) = true /\ exists c r, Py.zfill w s = String c r.
Proof.
  intros Hs (c & r & ->). unfold Py.zfill.
  generalize (w - String.length (String c r)). intros k. induction k as [| k [IH1 IH2]].
  - simpl. eauto.
  - split.
    + destruct k; simpl in *; exact IH1.
    + destruct k; simpl; eauto.
Qed.

Lemma two_digits n : all_digits (two n) = true /\ exists c r, two n = String c r.
Proof. apply zfill_digits; apply str_nat_digits. Qed.

(** Reading back the digits of a number. *)
Lemma int_digits_uint d acc b :
  d <> Decimal.Nil \/ b = true ->
  Py.int_digits (Z.of_nat acc) b (NilEmpty.string_of_uint d)
  = Some (Z.of_nat (Nat.of_uint_acc d acc)).
Proof.
  revert acc b.
  induction d as [| d IH | d IH | d IH | d IH | d IH | d IH | d IH | d IH | d IH | d IH];
    intros acc b Hb;
    [destruct Hb as [Hb | ->]; [contradiction | reflexivity] | ..];
    simpl NilEmpty.string_of_uint; simpl Nat.of_uint_acc; cbn [Py.int_digits];
    match goal with
    | |- context [Py.isdigit ?c] =>
        change (Py.isdigit c) with true;
        let v := eval vm_compute in (Py.digit_val c) in change (Py.digit_val c) with v
    end;
    cbv iota; rewrite <- (IH _ true) by (right; reflexivity); f_equal;
    rewrite Nat.tail_mul_spec; lia.
Qed.

Lemma digit_not_space c : Py.isdigit c = true -> Py.isspace c = false.
Proof. destruct c as [[] [] [] [] [] [] [] []]; intros H; try discriminate H; reflexivity. Qed.

Lemma rstrip_digits s :
  all_digits s = true -> Py.rstrip (s +:+ Py.NL) = s /\ Py.rstrip s = s.
Proof.
  induction s as [| c s IH]; simpl; [auto |].
  intros H. apply andb_prop in H as [Hc Hs]. destruct (IH Hs) as [IH1 IH2].
  rewrite IH1, IH2, (digit_not_space c Hc). destruct s; auto.
Qed.

Lemma strip_digits s :
  all_digits s = true -> Py.strip (s +:+ Py.NL) = s /\ Py.strip s = s.
Proof.
  intros H. unfold Py.strip. destruct s as [| c s]; [auto |].
  assert (Hsp : Py.isspace c = false).
  { simpl in H. apply andb_prop in H as [Hc _]. apply digit_not_space, Hc. }
  change (String c s +:+ Py.NL) with (String c (s +:+ Py.NL)).
  simpl Py.lstrip. rewrite Hsp.
  change (String c (s +:+ Py.NL)) with (String c s +:+ Py.NL).
  apply rstrip_digits. exact H.
Qed.

Lemma count_digits_length s :
  all_digits s = true -> Py.count_digits s = String.length s.
Proof.
  induction s as [| c s IH]; [reflexivity |].
  simpl. intros H. apply andb_prop in H as [-> Hs]. rewrite IH by exact Hs. reflexivity.
Qed.

(** [int(str(n) + newline)] is [n], once stripped, for a number of no
    more digits than the limit. *)
Lemma int_str_nat n :
  String.length (Py.str_nat n) <= Py.int_max_str_digits ->
  Py.int (Py.strip (Py.str_nat n +:+ Py.NL)) = Some (Z.of_nat n).
Proof.
  intros Hlen.
  destruct (str_nat_digits n) as [Hd (c & r & E)].
  destruct (strip_digits _ Hd) as [Hnl Hstrip]. rewrite Hnl.
  unfold Py.int. rewrite Hstrip.
  transitivity (Py.int_literal (Py.str_nat n)).
  - rewrite E in *. simpl in Hd. apply andb_prop in Hd as [Hc _].
    destruct c as [[] [] [] [] [] [] [] []]; try discriminate Hc; reflexivity.
  - unfold Py.int_literal.
    replace (Py.int_digits 0 false (Py.str_nat n)) with (Some (Z.of_nat n)).
    + rewrite (count_digits_length _ Hd).
      destruct (Nat.ltb_spec Py.int_max_str_digits (String.length (Py.str_nat n))) as [Hlt | _];
        [exfalso; apply (Nat.lt_irrefl (String.length (Py.str_nat n)));
         eapply Nat.le_lt_trans; [exact Hlen | exact Hlt] | reflexivity].
    + symmetry. unfold Py.str_nat.
      rewrite (int_digits_uint _ 0 false) by (left; apply to_uint_nonnil).
      f_equal. f_equal. apply DecimalNat.Unsigned.of_to.
Qed.

(** ** The count [check_for_updates] reads *)

Section UpdatesCount.
Variable env : Env.
Variable self : AgentSync.

Lemma updates_shape_last l b args cwd c :
  updates_shape self l b ->
  last l = Some (EvRun ("git" :: "rev-list" :: args) cwd (Ok c)) ->
  b = behind (Ok c).
Proof.
  destruct 1 as [| e | fetched l r Ha]; try discriminate.
  destruct Ha as [r Hr | c0 r Hc0]; simpl; intros [=]; subst; reflexivity.
Qed.

(** X12. What [check_for_updates] makes of the count.  When the last
    thing it ran is a count that exited with status zero, its answer is
    read from what the count printed: for the decimal writing of [n]
    followed by a line feed, [n] being written with no more digits than
    [int] accepts (4300), it is whether [n] is positive; for a text that
    [int] refuses, it is [False], the error being swallowed. *)
Theorem check_for_updates_counts w args cwd c :
  last (emitted (check_for_updates env self) w)
  = Some (EvRun ("git" :: "rev-list" :: args) cwd (Ok c)) ->
  returncode c = 0%Z ->
  (forall n, stdout c = Py.str_nat n +:+ Py.NL ->
     String.length (Py.str_nat n) <= Py.int_max_str_digits ->
     fst (check_for_updates env self w) = Ok (0 <? n)%nat) /\
  (Py.int (Py.strip (stdout c)) = None ->
     fst (check_for_updates env self w) = Ok false).
Proof.
  intros Hlast Hrc. destruct (updates_trace env self w) as (b & E & S).
  rewrite E. rewrite (updates_shape_last _ _ _ _ _ S Hlast). simpl. rewrite Hrc. simpl.
  split.
  - intros n -> Hlen. rewrite int_str_nat by exact Hlen. destruct n; reflexivity.
  - intros ->. reflexivity.
Qed.

End UpdatesCount.

Lemma check_for_updates_counts_witness :
  fst (check_for_updates (Runs.ahead 3) Scenario.me Runs.tidy) = Ok true.
Proof.
  refine (proj1 (check_for_updates_counts (Runs.ahead 3) Scenario.me Runs.tidy
                   ["--count"; "HEAD..origin/main"] (Some "/home/u/agents")
                   (Scenario.exited 0 (Py.str_nat 3 +:+ Py.NL)) _ _) 3 eq_refl _).
  - vm_compute. reflexivity.
  - reflexivity.
  - apply Nat.leb_le. vm_compute. reflexivity.
Defined.

(** ** From the log to the report *)

Lemma split_head_cons c s :
  String.prefix " - " (String c s) = false ->
  Py.split_head " - " (String c s) = String c (Py.split_head " - " s).
Proof.
  intros H.
  change (Py.split_head " - " (String c s))
    with (if String.prefix " - " (String c s) then EmptyString
          else String c (Py.split_head " - " s)).
  rewrite H. reflexivity.
Qed.

Lemma prefix_not_space c s :
  c <> " "%char -> String.prefix " - " (String c s) = false.
Proof.
  intros Hc. cbn [String.prefix]. destruct (ascii_dec " " c); [subst; contradiction | reflexivity].
Qed.

Lemma prefix_space_not_dash c s :
  c <> "-"%char -> String.prefix " - " (String " " (String c s)) = false.
Proof.
  intros Hc. cbn [String.prefix]. destruct (ascii_dec " " " "); [| reflexivity].
  destruct (ascii_dec "-" c); [subst; contradiction | reflexivity].
Qed.

Lemma digit_plain c : Py.isdigit c = true -> c <> " "%char /\ c <> "-"%char.
Proof. split; intros ->; discriminate. Qed.

Lemma split_head_digits a rest :
  all_digits a = true ->
  Py.split_head " - " (a +:+ rest) = a +:+ Py.split_head " - " rest.
Proof.
  induction a as [| c a IH]; intros H; [reflexivity |].
  simpl in H. apply andb_prop in H as [Hc Ha].
  change (String c a +:+ rest) with (String c (a +:+ rest)).
  rewrite split_head_cons by (apply prefix_not_space, digit_plain, Hc).
  rewrite IH by exact Ha. reflexivity.
Qed.

Lemma split_head_mark c rest :
  c <> " "%char ->
  Py.split_head " - " (String c "" +:+ rest) = String c "" +:+ Py.split_head " - " rest.
Proof. intros Hc. apply split_head_cons, prefix_not_space, Hc. Qed.

Lemma split_head_space h rest :
  all_digits h = true -> (exists c r, h = String c r) ->
  Py.split_head " - " (" " +:+ h +:+ rest) = " " +:+ Py.split_head " - " (h +:+ rest).
Proof.
  intros Hd (c & r & ->). simpl in Hd. apply andb_prop in Hd as [Hc _].
  apply (split_head_cons " " (String c (r +:+ rest))).
  apply prefix_space_not_dash, digit_plain, Hc.
Qed.

Lemma split_head_hit rest : Py.split_head " - " (" - " +:+ rest) = "".
Proof. destruct rest; reflexivity. Qed.

(** The time stamp of an entry of the log is what comes before its first
    [" - "]. *)
Lemma split_head_stamp d rest :
  Py.split_head " - " (strftime_log d +:+ " - " +:+ rest) = strftime_log d.
Proof.
  unfold strftime_log. rewrite !append_assoc.
  destruct (zfill_digits 4 (Py.str_nat (year d))) as [Hy _]; try apply str_nat_digits.
  destruct (two_digits (month d)) as [Hm _]. destruct (two_digits (day d)) as [Hd _].
  destruct (two_digits (hour d)) as [Hh Hh']. destruct (two_digits (minute d)) as [Hmi _].
  destruct (two_digits (second d)) as [Hs _].
  rewrite (split_head_digits _ _ Hy), split_head_mark by discriminate.
  rewrite (split_head_digits _ _ Hm), split_head_mark by discriminate.
  rewrite (split_head_digits _ _ Hd), (split_head_space _ _ Hh Hh').
  rewrite (split_head_digits _ _ Hh), split_head_mark by discriminate.
  rewrite (split_head_digits _ _ Hmi), split_head_mark by discriminate.
  rewrite (split_head_digits _ _ Hs), split_head_hit, append_nil_r. reflexivity.
Qed.

Lemma readlines_line cur line :
  contains Py.LF line = false ->
  Py.readlines_from cur (line +:+ Py.NL) = [cur +:+ line +:+ Py.NL].
Proof.
  revert cur. induction line as [| c line IH]; intros cur H.
  - reflexivity.
  - simpl in H. apply orb_false_elim in H as [Hc Hline].
    change (String c line +:+ Py.NL) with (String c (line +:+ Py.NL)).
    cbn [Py.readlines_from]. rewrite Hc, (IH _ Hline), append_assoc. reflexivity.
Qed.

Lemma readlines_closed t cur rest :
  Py.readlines_from cur ((t +:+ Py.NL) +:+ rest)
  = Py.readlines_from cur (t +:+ Py.NL) ++ Py.readlines_from "" rest.
Proof.
  revert cur. induction t as [| c t IH]; intros cur.
  - reflexivity.
  - change ((String c t +:+ Py.NL) +:+ rest) with (String c ((t +:+ Py.NL) +:+ rest)).
    change (String c t +:+ Py.NL) with (String c (t +:+ Py.NL)).
    cbn [Py.readlines_from]. destruct (Ascii.eqb c Py.LF); rewrite IH; reflexivity.
Qed.

Lemma contains_append c a b : contains c (a +:+ b) = contains c a || contains c b.
Proof.
  induction a as [| x a IH]; [reflexivity |].
  change (String x a +:+ b) with (String x (a +:+ b)). simpl. rewrite IH, orb_assoc. reflexivity.
Qed.

Lemma digits_no_lf a : all_digits a = true -> contains Py.LF a = false.
Proof.
  induction a as [| c a IH]; intros H; [reflexivity |].
  simpl in *. apply andb_prop in H as [Hc Ha]. rewrite (IH Ha), orb_false_r.
  destruct c as [[] [] [] [] [] [] [] []]; try discriminate Hc; reflexivity.
Qed.

Lemma stamp_no_lf d : contains Py.LF (strftime_log d) = false.
Proof.
  unfold strftime_log. rewrite !contains_append.
  destruct (zfill_digits 4 (Py.str_nat (year d))) as [Hy _]; try apply str_nat_digits.
  destruct (two_digits (month d)) as [Hm _]. destruct (two_digits (day d)) as [Hd _].
  destruct (two_digits (hour d)) as [Hh _]. destruct (two_digits (minute d)) as [Hmi _].
  destruct (two_digits (second d)) as [Hs _].
  rewrite (digits_no_lf _ Hy), (digits_no_lf _ Hm), (digits_no_lf _ Hd), (digits_no_lf _ Hh),
    (digits_no_lf _ Hmi), (digits_no_lf _ Hs). reflexivity.
Qed.

Lemma digits_no_cr a : all_digits a = true -> contains Py.CR a = false.
Proof.
  induction a as [| c a IH]; intros H; [reflexivity |].
  simpl in *. apply andb_prop in H as [Hc Ha]. rewrite (IH Ha), orb_false_r.
  destruct c as [[] [] [] [] [] [] [] []]; try discriminate Hc; reflexivity.
Qed.

Lemma stamp_no_cr d : contains Py.CR (strftime_log d) = false.
Proof.
  unfold strftime_log. rewrite !contains_append.
  destruct (zfill_digits 4 (Py.str_nat (year d))) as [Hy _]; try apply str_nat_digits.
  destruct (two_digits (month d)) as [Hm _]. destruct (two_digits (day d)) as [Hd _].
  destruct (two_digits (hour d)) as [Hh _]. destruct (two_digits (minute d)) as [Hmi _].
  destruct (two_digits (second d)) as [Hs _].
  rewrite (digits_no_cr _ Hy), (digits_no_cr _ Hm), (digits_no_cr _ Hd), (digits_no_cr _ Hh),
    (digits_no_cr _ Hmi), (digits_no_cr _ Hs). reflexivity.
Qed.

(** Translation starts afresh after a line feed. *)
Lemma translate_newlines_closed b t rest :
  Py.translate_newlines b ((t +:+ Py.NL) +:+ rest)
  = Py.translate_newlines b (t +:+ Py.NL) +:+ Py.translate_newlines false rest.
Proof.
  revert b. induction t as [| c t IH]; intros b.
  - destruct b; reflexivity.
  - change ((String c t +:+ Py.NL) +:+ rest) with (String c ((t +:+ Py.NL) +:+ rest)).
    change (String c t +:+ Py.NL) with (String c (t +:+ Py.NL)).
    cbn [Py.translate_newlines].
    destruct (b && Ascii.eqb c Py.LF); [apply IH |].
    destruct (Ascii.eqb c Py.CR); rewrite IH; reflexivity.
Qed.

(** What is read of a text that ends with a line feed ends with one, or
    is empty. *)
Lemma translate_newlines_ends b t :
  (b = true /\ Py.translate_newlines b (t +:+ Py.NL) = "")
  \/ exists t', Py.translate_newlines b (t +:+ Py.NL) = t' +:+ Py.NL.
Proof.
  revert b. induction t as [| c t IH]; intros b.
  - destruct b; [left; split; reflexivity | right; exists ""; reflexivity].
  - change (String c t +:+ Py.NL) with (String c (t +:+ Py.NL)).
    cbn [Py.translate_newlines].
    destruct (b && Ascii.eqb c Py.LF) eqn:Hskip.
    + apply andb_prop in Hskip as [-> _]. right.
      destruct (IH false) as [[[=] _] | Ht]. exact Ht.
    + right. destruct (Ascii.eqb c Py.CR).
      * destruct (IH true) as [[_ ->] | [t' ->]];
          [exists "" | exists (String Py.LF t')]; reflexivity.
      * destruct (IH false) as [[[=] _] | [t' ->]]. exists (String c t'). reflexivity.
Qed.

Lemma universal_newlines_ends t : ends_lines (Py.universal_newlines (t +:+ Py.NL)).
Proof.
  right. destruct (translate_newlines_ends false t) as [[[=] _] | Ht]. exact Ht.
Qed.

(** The last line of a log is the entry appended last. *)
Lemma last_sync_of_appended t d message :
  ends_lines t -> contains Py.LF message = false ->
  last_sync_of (t +:+ log_entry_at d message) = Some (strftime_log d).
Proof.
  intros Ht Hm. unfold last_sync_of, log_entry_at, Py.readlines.
  assert (Hentry : strftime_log d +:+ " - " +:+ message +:+ Py.NL
                   = (strftime_log d +:+ " - " +:+ message) +:+ Py.NL)
    by (rewrite !append_assoc; reflexivity).
  assert (Hc : contains Py.LF (strftime_log d +:+ " - " +:+ message) = false).
  { rewrite !contains_append, stamp_no_lf, Hm. reflexivity. }
  assert (Hlast : last (Py.readlines_from "" (t +:+ strftime_log d +:+ " - " +:+ message +:+ Py.NL))
                  = Some (strftime_log d +:+ " - " +:+ message +:+ Py.NL)).
  { rewrite Hentry. destruct Ht as [-> | [t' ->]].
    - change ("" +:+ (strftime_log d +:+ " - " +:+ message) +:+ Py.NL)
        with ((strftime_log d +:+ " - " +:+ message) +:+ Py.NL).
      rewrite (readlines_line "" _ Hc). reflexivity.
    - rewrite readlines_closed, (readlines_line "" _ Hc). apply last_snoc. }
  rewrite Hlast. f_equal. apply split_head_stamp.
Qed.

(** The same, of the log as it is read. *)
Lemma last_sync_of_read t d message :
  ends_lines t -> contains Py.LF message = false -> contains Py.CR message = false ->
  last_sync_of (Py.universal_newlines (t +:+ log_entry_at d message)) = Some (strftime_log d).
Proof.
  intros Ht Hlf Hcr.
  assert (Hentry : Py.universal_newlines (log_entry_at d message) = log_entry_at d message).
  { apply universal_newlines_plain. unfold log_entry_at.
    rewrite !contains_append, stamp_no_cr, Hcr. reflexivity. }
  destruct Ht as [-> | [t' ->]].
  - change ("" +:+ log_entry_at d message) with (log_entry_at d message).
    rewrite Hentry. apply (last_sync_of_appended ""); [left; reflexivity | exact Hlf].
  - unfold Py.universal_newlines in *. rewrite translate_newlines_closed, Hentry.
    apply last_sync_of_appended; [apply (universal_newlines_ends t') | exact Hlf].
Qed.

Section LogReport.
Variable env : Env.
Variable self : AgentSync.

(** What [_log] leaves in the log when nothing fails. *)
Lemma log_writes message t w :
  (forall w0, os_fault env (OpOpen ".sync.log" "a") w0 = None) ->
  root (fs w) = true -> log_text (fs w) = Some t ->
  fs (snd (_log env message w))
  = set_top (<[".sync.log" := File (Some (t +:+ log_entry_at (datetime_now env w) message))]>
               (top (fs w))) (fs w).
Proof.
  intros Hfault Hroot Hlog. unfold _log, bind, now, try_except, append_file, fs_call. simpl.
  rewrite Hfault. simpl. rewrite Hroot. simpl. unfold log_text in Hlog.
  destruct (top (fs w) !! ".sync.log") as [[[t'|]|]|]; try discriminate;
    injection Hlog as <-; reflexivity.
Qed.

(** X13. The report shows the time of the last entry of the log.  On a
    clone whose log is missing or is a text that ends with a line feed,
    and when no call on the files fails for outside reasons, [get_status]
    right after [_log] has written a message with no line feed and no
    carriage return in it reports as last sync the time stamp [_log]
    wrote, to the second. *)
Theorem log_then_last_sync message t w :
  (forall op w0, os_fault env op w0 = None) ->
  has_entry (fs w) ".git" = true ->
  log_text (fs w) = Some t -> ends_lines t ->
  contains Py.LF message = false -> contains Py.CR message = false ->
  exists st,
    fst (get_status env self (snd (_log env message w))) = Ok st /\
    st_last_sync st = Some (strftime_log (datetime_now env w)).
Proof.
  intros Hfault Hgit Hlog Ht Hm Hcr.
  assert (Hroot : root (fs w) = true).
  { unfold has_entry in Hgit. apply andb_prop in Hgit. apply Hgit. }
  pose proof (log_writes message t w (Hfault _) Hroot Hlog) as Hfs.
  set (w' := snd (_log env message w)) in *.
  set (text := t +:+ log_entry_at (datetime_now env w) message) in *.
  assert (Hgit' : has_entry (fs w') ".git" = true).
  { unfold has_entry in *. rewrite Hfs. simpl. rewrite lookup_insert_ne by discriminate.
    exact Hgit. }
  assert (Hlog' : has_entry (fs w') ".sync.log" = true).
  { unfold has_entry. rewrite Hfs. simpl. rewrite lookup_insert_eq, Hroot. reflexivity. }
  assert (Hread : read_file env ".sync.log" w'
                  = (Ok (Py.universal_newlines text), snd (read_file env ".sync.log" w'))).
  { unfold read_file, fs_call. rewrite Hfault. simpl. rewrite Hfs. simpl.
    rewrite Hroot, lookup_insert_eq. reflexivity. }
  assert (Hls : (if has_entry (fs w') ".sync.log" then
                   try_except
                     (let* text := read_file env ".sync.log" in ret (last_sync_of text))
                     (fun _ => ret None)
                 else ret None) w'
                = (Ok (last_sync_of (Py.universal_newlines text)),
                   snd (read_file env ".sync.log" w'))).
  { rewrite Hlog'. unfold try_except, bind. rewrite Hread. reflexivity. }
  destruct (get_status_steps env self w' _ _ Hgit' Hls) as (b & l & w2 & r & w3 & _ & _ & _ & _ & E).
  rewrite E. eexists. split; [reflexivity |]. simpl.
  apply last_sync_of_read; assumption.
Qed.

End LogReport.

Lemma log_then_last_sync_witness :
  exists st,
    fst (get_status (Scenario.dirty "") Scenario.me
           (snd (_log (Scenario.dirty "") "Synced successfully. 0 files changed." Runs.tidy)))
    = Ok st /\
    st_last_sync st = Some "2024-05-17 09:00:00".
Proof.
  apply (log_then_last_sync (Scenario.dirty "") Scenario.me
           "Synced successfully. 0 files changed." "" Runs.tidy).
  - reflexivity.
  - reflexivity.
  - reflexivity.
  - left. reflexivity.
  - reflexivity.
  - reflexivity.
Defined.

(** ** What [backup] leaves alone *)

#[local] Instance same_agents_preorder : PreOrder same_agents.
Proof.
  split.
  - intros f. split; reflexivity.
  - intros f g h [R1 T1] [R2 T2]. split; [congruence |].
    intros name Hn. rewrite (T2 name Hn). apply T1, Hn.
Qed.

#[local] Instance same_strays_preorder : PreOrder same_strays.
Proof.
  split.
  - intros f name _. reflexivity.
  - intros f g h H1 H2 name Hn. rewrite (H2 name Hn). apply H1, Hn.
Qed.

Lemma set_backups_agents b f : same_agents f (set_backups b f).
Proof. split; reflexivity. Qed.

Lemma ne_of_startswith snap name :
  Py.startswith "backup_" snap = true -> Py.startswith "backup_" name = false -> snap <> name.
Proof. intros H1 H2 ->. congruence. Qed.

Section BackupKeeps.
Variable env : Env.
Variable self : AgentSync.

Lemma keeps_agents_mkdir_backups : keeps same_agents (mkdir_backups env).
Proof.
  apply keeps_fs_call; [apply _ |]. intros f. destruct (root f) eqn:E; simpl; [| reflexivity].
  destruct (backups f); simpl; [reflexivity |]. split; simpl; auto.
Qed.

Lemma keeps_agents_mkdir_snapshot snap : keeps same_agents (mkdir_snapshot env snap).
Proof.
  apply keeps_fs_call; [apply _ |]. intros f. destruct (backups f) as [b|]; [| reflexivity].
  destruct (b !! snap); simpl; [reflexivity | apply set_backups_agents].
Qed.

Lemma keeps_agents_copy2 name snap : keeps same_agents (copy2 env name snap).
Proof.
  apply keeps_fs_call; [apply _ |]. intros f.
  destruct (top f !! name) as [[t|]|]; destruct (backups f) as [b|]; try reflexivity.
  destruct (b !! snap) as [[files|]|]; simpl; try reflexivity; apply set_backups_agents.
Qed.

Lemma keeps_agents_rmtree snap : keeps same_agents (rmtree env snap).
Proof.
  apply keeps_fs_call; [apply _ |]. intros f. destruct (backups f) as [b|]; [| reflexivity].
  destruct (b !! snap) as [[files|]|]; simpl; try reflexivity. apply set_backups_agents.
Qed.

Lemma keeps_agents_log message : keeps same_agents (_log env message).
Proof.
  unfold _log. apply keeps_bind; [apply _ | apply keeps_now; apply _ |]. intros d.
  apply keeps_try_except; [apply _ | | intros e; apply keeps_ret; apply _].
  unfold append_file. apply keeps_recorded, keeps_fs_call; [apply _ |]. intros f.
  destruct (root f); simpl; [| reflexivity].
  destruct (top f !! ".sync.log") as [[[t|]|]|]; simpl; try reflexivity;
    (split; [reflexivity |]); intros name Hn; simpl; apply lookup_insert_ne; congruence.
Qed.

Lemma keeps_agents_backup : keeps same_agents (backup env self).
Proof.
  unfold backup. apply keeps_recorded.
  repeat first
    [ apply keeps_agents_mkdir_backups | apply keeps_agents_mkdir_snapshot
    | apply keeps_agents_copy2 | apply keeps_agents_rmtree | apply keeps_agents_log
    | apply keeps_for_each; [apply _ | intros ? _]
    | keeps_step ].
Qed.

(** X14. [backup] never raises and runs no command: it marks its entry
    and opens nothing but the log.  Whether it succeeds or not, it leaves
    the agents directory as it was, the log apart: no file is created,
    changed or removed there. *)
Theorem backup_keeps_agents w :
  (exists o, fst (backup env self w) = Ok o) /\
  same_agents (fs w) (fs (snd (backup env self w))) /\
  exists opens,
    emitted (backup env self) w = EvBackup :: opens /\ Forall is_log_append opens.
Proof.
  destruct (backup env self w) as [r w'] eqn:E.
  pose proof (keeps_agents_backup _ _ _ E) as K.
  destruct (backup_spec _ _ _ _ _ E) as (o & opens & -> & T & F).
  split; [eauto |]. split; [exact K |]. exists opens. split; [| exact F].
  apply emitted_eq. rewrite E. exact T.
Qed.

End BackupKeeps.

Section BackupStrays.
Variable env : Env.
Variable self : AgentSync.

Lemma set_backups_insert_strays snap v b f :
  backups f = Some b -> Py.startswith "backup_" snap = true ->
  same_strays f (set_backups (<[snap := v]> b) f).
Proof.
  intros Hb Hsnap name Hname. unfold backup_entry. simpl. rewrite Hb.
  apply lookup_insert_ne. eapply ne_of_startswith; eassumption.
Qed.

Lemma keeps_strays_mkdir_backups : keeps same_strays (mkdir_backups env).
Proof.
  apply keeps_fs_call; [apply _ |]. intros f. destruct (root f); simpl; [| reflexivity].
  destruct (backups f) eqn:E; simpl; [reflexivity |].
  intros name _. unfold backup_entry. simpl. rewrite E. apply lookup_empty.
Qed.

Lemma keeps_strays_mkdir_snapshot snap :
  Py.startswith "backup_" snap = true -> keeps same_strays (mkdir_snapshot env snap).
Proof.
  intros Hsnap. apply keeps_fs_call; [apply _ |]. intros f.
  destruct (backups f) as [b|] eqn:E; [| reflexivity].
  destruct (b !! snap); simpl; [reflexivity |]. apply set_backups_insert_strays; assumption.
Qed.

Lemma keeps_strays_copy2 name snap :
  Py.startswith "backup_" snap = true -> keeps same_strays (copy2 env name snap).
Proof.
  intros Hsnap. apply keeps_fs_call; [apply _ |]. intros f.
  destruct (top f !! name) as [[t|]|]; destruct (backups f) as [b|] eqn:E; try reflexivity.
  destruct (b !! snap) as [[files|]|]; simpl; try reflexivity;
    apply set_backups_insert_strays; assumption.
Qed.

Lemma keeps_strays_rmtree snap :
  Py.startswith "backup_" snap = true -> keeps same_strays (rmtree env snap).
Proof.
  intros Hsnap. apply keeps_fs_call; [apply _ |]. intros f.
  destruct (backups f) as [b|] eqn:E; [| reflexivity].
  destruct (b !! snap) as [[files|]|]; simpl; try reflexivity.
  intros name Hname. unfold backup_entry. simpl. rewrite E.
  apply lookup_delete_ne. eapply ne_of_startswith; eassumption.
Qed.

Lemma keeps_strays_log message : keeps same_strays (_log env message).
Proof.
  intros w r w' H. apply log_backups in H. intros name _. unfold backup_entry.
  rewrite H. reflexivity.
Qed.

Lemma glob_backups_match w found w' :
  glob_backups w = (Ok found, w') ->
  forall x, x ∈ all_but_last5 (sorted found) -> Py.startswith "backup_" x = true.
Proof.
  intros [= <- _] x Hx. apply subseteq_take in Hx. rewrite sorted_perm in Hx.
  fold (snapshot_names (fs w)) in Hx. apply elem_of_snapshot_names in Hx. apply Hx.
Qed.

Lemma keeps_strays_backup : keeps same_strays (backup env self).
Proof.
  unfold backup. apply keeps_recorded.
  apply keeps_try_except; [apply _ | | intros e; apply keeps_ret; apply _].
  apply keeps_bind; [apply _ | apply keeps_strays_mkdir_backups |]. intros _.
  apply keeps_bind; [apply _ | apply keeps_now; apply _ |]. intros d.
  apply keeps_bind; [apply _ | apply keeps_strays_mkdir_snapshot, startswith_backup |]. intros _.
  apply keeps_bind; [apply _ | apply keeps_glob_md; apply _ |]. intros md_files.
  apply keeps_bind; [apply _ | |].
  { apply keeps_for_each; [apply _ |]. intros md_file _.
    apply keeps_strays_copy2, startswith_backup. }
  intros _.
  apply (keeps_bind_on same_strays
           (fun found => forall x, x ∈ all_but_last5 (sorted found) ->
                                   Py.startswith "backup_" x = true)).
  { apply keeps_glob_backups. apply _. }
  { intros w found w'. apply glob_backups_match. }
  intros found Hfound.
  apply keeps_bind; [apply _ | |].
  { apply keeps_for_each; [apply _ |]. intros x Hx. apply keeps_strays_rmtree, Hfound, Hx. }
  intros _. apply keeps_bind; [apply _ | apply keeps_strays_log |].
  intros _. apply keeps_ret. apply _.
Qed.

(** X15. Under [.backups], [backup] touches only what matches
    [backup_*]: an entry with another name is there afterwards exactly
    when it was there before, and is the same, whether the backup
    succeeds or not. *)
Theorem backup_keeps_strays w name :
  Py.startswith "backup_" name = false ->
  backup_entry (fs (snd (backup env self w))) name = backup_entry (fs w) name.
Proof.
  intros Hname. destruct (backup env self w) as [r w'] eqn:E.
  exact (keeps_strays_backup _ _ _ E name Hname).
Qed.

End BackupStrays.

Lemma backup_keeps_strays_witness :
  backup_entry (fs (snd (backup Runs.frozen Scenario.me Runs.backed_up))) "notes" = Some Stray.
Proof.
  apply (backup_keeps_strays Runs.frozen Scenario.me Runs.backed_up "notes"). reflexivity.
Defined.

(** ** Two backups in the same second *)

Section BackupCollision.
Variable env : Env.
Variable self : AgentSync.


End BackupCollision.


(** ** What a snapshot holds *)

#[local] Instance same_top_preorder : PreOrder same_top.
Proof.
  split.
  - intros f. split; reflexivity.
  - intros f g h [R1 T1] [R2 T2]. split; congruence.
Qed.



Section SnapshotContent.
Variable env : Env.
Variable self : AgentSync.










End SnapshotContent.


(** ** The commands that only look *)

Section Lookers.
Variable env : Env.
Variable self : AgentSync.

Lemma emits_check_for_updates : emits (query_event self) (check_for_updates env self).
Proof.
  intros w r w' H. apply updates_shape_of in H as (b & l & _ & T & S & _).
  exists l. split; [exact T | eapply updates_shape_queries; exact S].
Qed.

Lemma emits_get_status : emits (query_event self) (get_status env self).
Proof.
  unfold get_status, is_initialized, git.
  repeat first
    [ emits_step | apply emits_check_for_updates
    | apply emits_read_file; constructor | apply emits_run; intro; constructor ].
Qed.

Lemma keeps_get_status : git_idle env -> keeps eq (get_status env self).
Proof.
  intros Hidle. unfold get_status, is_initialized, git.
  repeat first [keeps_step | apply check_for_updates_keeps; exact Hidle].
Qed.

Lemma emits_list_agents : emits (query_event self) (list_agents env self).
Proof.
  intros w r w'. unfold list_agents, bind, glob_md. intros H.
  apply list_agents_loop_inv in H as (agents & kept & _ & _ & T & _).
  eexists. split; [exact T |]. apply Forall_forall. intros ev Hev.
  apply list_elem_of_fmap in Hev as (name & -> & _). constructor.
Qed.

Lemma keeps_list_agents : keeps eq (list_agents env self).
Proof.
  intros w r w'. unfold list_agents, bind, glob_md. intros H.
  apply list_agents_loop_inv in H as (agents & kept & _ & F & _). symmetry. exact F.
Qed.

Lemma emits_get_agent name : emits (query_event self) (get_agent env name).
Proof.
  unfold get_agent. cbv zeta.
  repeat first [emits_step | apply emits_read_file; constructor].
Qed.

Lemma keeps_get_agent name : keeps eq (get_agent env name).
Proof. unfold get_agent. cbv zeta. repeat keeps_step. Qed.

End Lookers.

Section MainLooks.
Variable env : Env.

Lemma main_looks p args :
  arg_sync args = false ->
  arg_status args = true \/ arg_list args = true \/ given (arg_get args) <> None ->
  emits (query_event (AgentSync_init p (arg_repo args) (arg_dir args))) (main env p args) /\
  (git_idle env -> keeps eq (main env p args)).
Proof.
  intros Hsync Hwhich. unfold main. rewrite Hsync.
  destruct (arg_status args).
  { split; [| intros Hidle];
      [apply emits_bind; [apply emits_get_status | intros; apply emits_ret]
      | apply keeps_bind; [apply _ | apply keeps_get_status, Hidle | intros; apply keeps_ret; apply _]]. }
  destruct (arg_list args).
  { split; [| intros Hidle];
      [apply emits_bind; [apply emits_list_agents | intros; apply emits_ret]
      | apply keeps_bind; [apply _ | apply keeps_list_agents | intros; apply keeps_ret; apply _]]. }
  destruct (given (arg_get args)) as [name|].
  { split; [| intros Hidle].
    - apply emits_bind; [apply emits_get_agent |]. intros content.
      destruct (given content); apply emits_ret.
    - apply keeps_bind; [apply _ | apply keeps_get_agent |]. intros content.
      destruct (given content); apply keeps_ret; apply _. }
  destruct Hwhich as [H | [H | H]]; try discriminate. contradiction.
Qed.

(** X19. [--status], [--list] and [--get] only look.  Without [--sync],
    a run that acts on one of them opens files for reading only and runs
    no command but a fetch, the counts of the commits ahead and the
    status query: no clone, no pull, no stash, no backup, no entry in the
    log.  When [git] leaves the files alone, the run leaves them as they
    were. *)
Theorem main_only_looks p args w :
  arg_sync args = false ->
  arg_status args = true \/ arg_list args = true \/ given (arg_get args) <> None ->
  Forall (query_event (AgentSync_init p (arg_repo args) (arg_dir args)))
         (emitted (main env p args) w) /\
  (git_idle env -> fs (snd (main env p args w)) = fs w).
Proof.
  intros Hsync Hwhich. destruct (main_looks p args Hsync Hwhich) as [He Hk].
  split; [apply emits_emitted, He |].
  intros Hidle. destruct (main env p args w) as [r w'] eqn:E.
  symmetry. exact (Hk Hidle _ _ _ E).
Qed.

End MainLooks.

Lemma main_only_looks_witness :
  fs (snd (main Runs.frozen CommandLine.proc (CommandLine.get_only "foo") foo_only))
  = fs foo_only.
Proof.
  refine (proj2 (main_only_looks Runs.frozen CommandLine.proc (CommandLine.get_only "foo")
                   foo_only _ _) _).
  - reflexivity.
  - right. right. discriminate.
  - intros argv cwd w. reflexivity.
Defined.

Lemma get_status_harmless_witness :
  fs (snd (get_status Runs.frozen Scenario.me Runs.tidy)) = fs Runs.tidy.
Proof.
  destruct (get_status_harmless Runs.frozen Scenario.me Runs.tidy) as (_ & H & _).
  apply H. intros argv cwd w. reflexivity.
Defined.

(** ** Every readable prompt is listed *)

Section ListingComplete.
Variable env : Env.
Variable self : AgentSync.
Hypothesis open_works : forall name w, os_fault env (OpOpen name "r") w = None.
Hypothesis stat_works : forall name w, exists s, os_stat env name w = Ok s.




End ListingComplete.


(** ** The log only grows *)

Section LogFacts.
Variable env : Env.


End LogFacts.

(** ** What [sync] itself writes *)

#[local] Instance same_agents_if_there_preorder : PreOrder same_agents_if_there.
Proof.
  split.
  - intros f _. reflexivity.
  - intros f g h H1 H2 Hroot. specialize (H1 Hroot).
    transitivity g; [exact H1 |]. apply H2. destruct H1 as [R _]. congruence.
Qed.

Section SyncWrites.
Variable env : Env.
Variable self : AgentSync.
Hypothesis idle : git_idle env.

Lemma keeps_there_of_agents {A} (m : M A) :
  keeps same_agents m -> keeps same_agents_if_there m.
Proof. intros H w r w' E _. exact (H _ _ _ E). Qed.

Lemma keeps_there_initialize : keeps same_agents_if_there (initialize env self).
Proof.
  unfold initialize, is_initialized.
  repeat first
    [ apply keeps_there_of_agents, keeps_agents_log
    | keeps_step ].
  apply keeps_fs_call; [apply _ |]. intros f Hroot. rewrite Hroot. reflexivity.
Qed.

Lemma keeps_there_sync force : keeps same_agents_if_there (sync env self force).
Proof.
  unfold sync, ensure_initialized, is_initialized, sync_guarded, sync_pull, git.
  repeat first
    [ apply keeps_there_initialize
    | apply keeps_there_of_agents, keeps_agents_log
    | apply keeps_there_of_agents, keeps_agents_backup
    | keeps_step ].
Qed.

(** X22. What [sync] writes by itself.  When [git] leaves the files
    alone and the agents directory exists, [sync] leaves it as it was,
    the log apart, with or without [force], whatever it returns: all
    changes to the prompts come from [git]. *)
Theorem sync_writes_only_the_log force w :
  root (fs w) = true -> same_agents (fs w) (fs (snd (sync env self force w))).
Proof.
  intros Hroot. destruct (sync env self force w) as [r w'] eqn:E.
  exact (keeps_there_sync force _ _ _ E Hroot).
Qed.

End SyncWrites.

Lemma sync_writes_only_the_log_witness :
  top (fs (snd (sync Runs.frozen Scenario.me true Runs.backed_up))) !! "a.md"
  = Some (File (Some "# A")).
Proof.
  destruct (sync_writes_only_the_log Runs.frozen Scenario.me (fun _ _ _ => eq_refl) true
              Runs.backed_up eq_refl) as [_ H].
  rewrite H by discriminate. reflexivity.
Defined.
